(** * A shallow embedding of the KVM accelerator glue (accel/kvm/kvm-all.c)

    The development follows the source file top to bottom: machine
    integers and the bitmap helpers it relies on, the memory-slot table,
    the two dirty trackers (bitmap and ring), the GSI routing table, the
    hyperupcall registry reachable through hypercalls, and the vCPU run
    loop.  Kernel calls are oracles: every function that issues an ioctl
    takes the kernel's answer as an argument and returns the requests it
    issued next to its result. *)

From Stdlib Require Import ZArith Lia Bool.
From stdpp Require Import base numbers list strings gmap.

Local Open Scope Z_scope.

(** ** Machine integers *)

(** [hwaddr], [uint64_t] and [unsigned long] are 64 bits wide on the hosts
    KVM runs on; [uint32_t] is 32 bits wide.  Values are kept in [Z] and
    every operation that can wrap says so. *)
Definition u64 (z : Z) : Z := z mod 2 ^ 64.
Definition u32 (z : Z) : Z := z mod 2 ^ 32.

Definition in_u64 (z : Z) : Prop := 0 <= z < 2 ^ 64.
Definition in_u32 (z : Z) : Prop := 0 <= z < 2 ^ 32.

(** Modelled from the spec: the [ROUND_UP(n, d)] macro of
    include/qemu/osdep.h, which is not part of the sources at hand.  It
    "rounds start up" to a multiple of the power of two [d] with the mask
    [-d], in the 64-bit unsigned type of its operand. *)
Definition ROUND_UP (n d : Z) : Z := Z.land (u64 (n + d - 1)) (u64 (- d)).

(** Modelled from the spec: [DIV_ROUND_UP(n, d)] of include/qemu/osdep.h,
    [((n) + (d) - 1) / (d)] on 64-bit unsigned operands. *)
Definition DIV_ROUND_UP (n d : Z) : Z := u64 (n + d - 1) / d.

(** Modelled from the spec: [qemu_real_host_page_mask()], the negated page
    size seen as a 64-bit mask ("truncates size down to host page size"). *)
Definition qemu_real_host_page_mask (psize : Z) : Z := u64 (- psize).

(** [int128_get64] asserts that the 128-bit value fits 64 bits. *)
Definition int128_get64 (a : Z) : option Z :=
  if decide (0 <= a < 2 ^ 64) then Some a else None.

Definition MIN (a b : Z) : Z := if decide (a < b) then a else b.

(** Error numbers of the host (errno.h). *)
Definition ENOENT : Z := 2.
Definition ESRCH : Z := 3.
Definition EINTR : Z := 4.
Definition EAGAIN : Z := 11.
Definition EINVAL : Z := 22.
Definition ENOSPC : Z := 28.

(** ** Bitmaps

    [unsigned long *] bitmaps are lists of 64-bit words, bit [nr] living in
    word [nr / 64] at position [nr mod 64].  A word that lies outside the
    list reads as zero and is not written (the C helpers would touch
    memory they do not own). *)
Module Bitmap.

Definition BITS_PER_LONG : Z := 64.
Definition BIT_WORD (nr : Z) : Z := nr / BITS_PER_LONG.
Definition BIT_MASK (nr : Z) : Z := Z.shiftl 1 (nr mod BITS_PER_LONG).
Definition BITS_TO_LONGS (nbits : Z) : Z :=
  (nbits + BITS_PER_LONG - 1) / BITS_PER_LONG.

(** The word of a map at a word index; zero outside the map. *)
Definition word_at (bm : list Z) (w : Z) : Z :=
  default 0 (bm !! Z.to_nat w).

(** Modelled from the spec: [test_bit] of include/qemu/bitops.h, which is
    not in the sources at hand; the maps hold "one bit per page". *)
Definition test_bit (nr : Z) (bm : list Z) : bool :=
  Z.testbit (word_at bm (BIT_WORD nr)) (nr mod BITS_PER_LONG).

(** Modelled from the spec: [set_bit] of include/qemu/bitops.h, which
    "maps the dirtied page into the owning slot's bitmap" and marks a
    GSI used. *)
Definition set_bit (nr : Z) (bm : list Z) : list Z :=
  alter (fun w => Z.lor w (BIT_MASK nr)) (Z.to_nat (BIT_WORD nr)) bm.

(** Modelled from the spec: [clear_bit] of include/qemu/bitops.h, which
    "clears the GSI bit". *)
Definition clear_bit (nr : Z) (bm : list Z) : list Z :=
  alter (fun w => Z.ldiff w (BIT_MASK nr)) (Z.to_nat (BIT_WORD nr)) bm.

Definition assign_bit (nr : Z) (b : bool) (bm : list Z) : list Z :=
  if b then set_bit nr bm else clear_bit nr bm.

(** Modelled from the spec: [bitmap_new(nbits)] of include/qemu/bitmap.h,
    a zeroed map of [BITS_TO_LONGS(nbits)] words. *)
Definition bitmap_new (nbits : Z) : list Z :=
  replicate (Z.to_nat (BITS_TO_LONGS nbits)) 0.

(** Modelled from the spec: [bitmap_clear(map, start, nr)] of
    util/bitmap.c clears the bits [start .. start + nr - 1], as in
    "zero the padding" and "intersect-clear the authoritative bitmap". *)
Definition bitmap_clear (bm : list Z) (start nr : Z) : list Z :=
  foldl (fun m i => clear_bit i m) bm (seqZ start nr).

(** Modelled from the spec: [bitmap_copy_with_src_offset(dst, src, shift,
    nbits)] of util/bitmap.c builds the "temporary padded bitmap copy":
    bit [i] of [dst] becomes bit [shift + i] of [src], for [i < nbits]. *)
Definition bitmap_copy_with_src_offset
    (dst src : list Z) (shift nbits : Z) : list Z :=
  foldl (fun d i => assign_bit i (test_bit (shift + i) src) d)
        dst (seqZ 0 nbits).

(** Modelled from the spec: [find_first_zero_bit(addr, size)] of
    include/qemu/bitops.h "returns the lowest clear bit" below [size],
    and [size] when every bit is set. *)
Definition find_first_zero_bit (bm : list Z) (size : Z) : Z :=
  match list_find (fun i => test_bit i bm = false) (seqZ 0 size) with
  | Some (_, i) => i
  | None => size
  end.


End Bitmap.

(** ** Memory slots *)

Definition KVM_MEM_LOG_DIRTY_PAGES : Z := 1.
Definition KVM_MEM_READONLY : Z := 2.

Definition HYPERUPCALL_MAX_N_MEMSLOTS : Z := 128.

(** [KVMSlot] (sysemu/kvm_int.h).  A slot of [memory_size] zero is free;
    [dirty_bmap] is [None] for the null pointer. *)
Record KVMSlot := mkKVMSlot {
  start_addr : Z;
  memory_size : Z;
  ram : Z;
  slot : Z;
  flags : Z;
  old_flags : Z;
  dirty_bmap : option (list Z);
  dirty_bmap_size : Z;
  as_id : Z;
  ram_start_offset : Z
}.

Definition set_old_flags (f : Z) (m : KVMSlot) : KVMSlot :=
  mkKVMSlot (start_addr m) (memory_size m) (ram m) (slot m) (flags m) f
            (dirty_bmap m) (dirty_bmap_size m) (as_id m) (ram_start_offset m).

Definition set_dirty_bmap (b : option (list Z)) (sz : Z) (m : KVMSlot) : KVMSlot :=
  mkKVMSlot (start_addr m) (memory_size m) (ram m) (slot m) (flags m)
            (old_flags m) b sz (as_id m) (ram_start_offset m).

(** The part of a [MemoryRegionSection] and of its [MemoryRegion] that
    the slot code reads. *)
Record MemoryRegion := mkMemoryRegion {
  mr_is_ram : bool;
  mr_readonly : bool;
  mr_rom_device : bool;
  mr_romd_mode : bool;
  mr_dirty_log_mask : Z;
  mr_ram_ptr : Z;
  mr_ram_addr : Z
}.

Record MemoryRegionSection := mkSection {
  mr : MemoryRegion;
  offset_within_region : Z;
  offset_within_address_space : Z;
  size : Z
}.

(** [kvm_align_section]: the aligned start and the size of the section;
    [None] is the failed assertion of [int128_get64]. *)
Definition kvm_align_section (psize : Z) (section : MemoryRegionSection)
    : option (Z * Z) :=
  sz ← int128_get64 (size section);
  let aligned := ROUND_UP (offset_within_address_space section) psize in
  let delta := u64 (aligned - offset_within_address_space section) in
  let start := aligned in
  if decide (delta > sz) then Some (start, 0)
  else Some (start, Z.land (u64 (sz - delta)) (qemu_real_host_page_mask psize)).

(** The argument of KVM_SET_USER_MEMORY_REGION. *)
Record kvm_userspace_memory_region := mkUserMem {
  um_slot : Z;
  um_flags : Z;
  um_guest_phys_addr : Z;
  um_memory_size : Z;
  um_userspace_addr : Z
}.

Definition with_memory_size (sz : Z) (m : kvm_userspace_memory_region) :=
  mkUserMem (um_slot m) (um_flags m) (um_guest_phys_addr m) sz
            (um_userspace_addr m).

(** What [kvm_set_user_memory_region] leaves behind: its return value,
    the slot (whose [old_flags] it may refresh), the high-water mark
    [used_memslots], and the slot-set calls it issued, oldest first. *)
Record set_region_result := mkSetRegion {
  sr_ret : Z;
  sr_slot : KVMSlot;
  sr_used_memslots : Z;
  sr_calls : list kvm_userspace_memory_region
}.

(** The tail of [kvm_set_user_memory_region] from its [err:] label on:
    a failed call returns at once; a slot index beyond the export table
    returns without touching [used_memslots]. *)
Definition set_region_finish (ret : Z) (slot_ : KVMSlot) (used_memslots : Z)
    (calls : list kvm_userspace_memory_region) : set_region_result :=
  if decide (ret < 0) then mkSetRegion ret slot_ used_memslots calls
  else if decide (slot slot_ >= HYPERUPCALL_MAX_N_MEMSLOTS)
  then mkSetRegion ret slot_ used_memslots calls
  else mkSetRegion ret slot_
         (if decide (used_memslots < slot slot_) then slot slot_
          else used_memslots) calls.

(** [kvm_set_user_memory_region(kml, slot, new)].  [ioctl] is the
    kernel's answer to a slot-set call. *)
Definition kvm_set_user_memory_region
    (ioctl : kvm_userspace_memory_region -> Z)
    (kml_as_id : Z) (slot_ : KVMSlot) (new : bool) (used_memslots : Z)
    : set_region_result :=
  let mem0 := mkUserMem (Z.lor (slot slot_) (Z.shiftl kml_as_id 16))
                        (flags slot_) (start_addr slot_) 0 (ram slot_) in
  let final := with_memory_size (memory_size slot_) mem0 in
  if bool_decide (memory_size slot_ <> 0) && negb new &&
     bool_decide (Z.land (Z.lxor (um_flags mem0) (old_flags slot_))
                         KVM_MEM_READONLY <> 0)
  then
    let ret := ioctl mem0 in
    if decide (ret < 0)
    then set_region_finish ret slot_ used_memslots [mem0]
    else set_region_finish (ioctl final) (set_old_flags (um_flags mem0) slot_)
                           used_memslots [mem0; final]
  else set_region_finish (ioctl final) (set_old_flags (um_flags mem0) slot_)
                         used_memslots [final].

(** ** Dirty tracking: the bitmap strategy *)

(** Modelled from the spec: [cpu_physical_memory_set_dirty_lebitmap]
    (include/exec/ram_addr.h, not in the sources at hand) "merges into"
    the global dirty state every page whose bit is set among the first
    [pages] bits.  The global state is the list of dirty RAM page
    addresses, newest first. *)
Definition cpu_physical_memory_set_dirty_lebitmap
    (psize : Z) (bmap : list Z) (start pages : Z) (dirty : list Z) : list Z :=
  foldl (fun d i => if Bitmap.test_bit i bmap then (start + i * psize) :: d else d)
        dirty (seqZ 0 pages).

(** [kvm_slot_sync_dirty_pages]; a slot without bitmap makes the helper
    read through a null pointer, which is [None] here. *)
Definition kvm_slot_sync_dirty_pages (psize : Z) (slot_ : KVMSlot)
    (dirty : list Z) : option (list Z) :=
  bmap ← dirty_bmap slot_;
  Some (cpu_physical_memory_set_dirty_lebitmap psize bmap
          (ram_start_offset slot_) (memory_size slot_ / psize) dirty).


(** [ALIGN(x, y)] as defined next to its only use. *)
Definition ALIGN (x y : Z) : Z := Z.land (u64 (x + y - 1)) (u64 (Z.lnot (y - 1))).

(** [kvm_slot_init_dirty_bitmap]: allocate once, and only when logging is
    requested.  [g_malloc0] of no bytes, for a slot of no page, returns
    the null pointer. *)
Definition kvm_slot_init_dirty_bitmap (psize : Z) (mem : KVMSlot) : KVMSlot :=
  if bool_decide (Z.land (flags mem) KVM_MEM_LOG_DIRTY_PAGES = 0)
     || bool_decide (is_Some (dirty_bmap mem))
  then mem
  else
    let bitmap_size := ALIGN (memory_size mem / psize) 64 / 8 in
    set_dirty_bmap (if decide (bitmap_size = 0) then None
                    else Some (replicate (Z.to_nat (bitmap_size / 8)) 0))
                   bitmap_size mem.

(** The kernel's answer to KVM_GET_DIRTY_LOG: its return value and the
    content of the user buffer once the call is over. *)
Definition get_dirty_log_oracle : Type :=
  Z -> option (list Z) -> Z * option (list Z).

(** [kvm_slot_get_dirty_log]: [true] when the sync succeeded. *)
Definition kvm_slot_get_dirty_log (ioctl : get_dirty_log_oracle)
    (slot_ : KVMSlot) : bool * KVMSlot :=
  let '(ret0, buf) :=
    ioctl (Z.lor (slot slot_) (Z.shiftl (as_id slot_) 16)) (dirty_bmap slot_) in
  let ret := if decide (ret0 = - ENOENT) then 0 else ret0 in
  (bool_decide (ret = 0), set_dirty_bmap buf (dirty_bmap_size slot_) slot_).

(** [kvm_lookup_matching_slot]: the first slot, below [nr_slots], with
    exactly this start and size. *)
Definition kvm_lookup_matching_slot (nr_slots : Z) (slots : list KVMSlot)
    (start_addr_ size_ : Z) : option (nat * KVMSlot) :=
  list_find (fun m => start_addr_ = start_addr m /\ size_ = memory_size m)
            (take (Z.to_nat nr_slots) slots).

(** [kvm_get_free_slot]. *)
Definition kvm_get_free_slot (nr_slots : Z) (slots : list KVMSlot)
    : option (nat * KVMSlot) :=
  list_find (fun m => memory_size m = 0) (take (Z.to_nat nr_slots) slots).

(** The state a bitmap sync threads through: the slot table of the
    listener and the global dirty pages. *)
Record sync_state := mkSync {
  sy_slots : list KVMSlot;
  sy_dirty : list Z
}.

(** The [while (size)] loop of [kvm_physical_sync_dirty_bitmap].  [fuel]
    bounds the iterations; [None] is a run that did not finish (or that
    read a missing bitmap). *)
Fixpoint kvm_physical_sync_dirty_bitmap_loop (fuel : nat)
    (psize kvm_max_slot_size nr_slots : Z) (ioctl : get_dirty_log_oracle)
    (start_addr_ size_ : Z) (st : sync_state) : option sync_state :=
  if decide (size_ = 0) then Some st else
  match fuel with
  | O => None
  | S fuel' =>
    let slot_size := MIN kvm_max_slot_size size_ in
    match kvm_lookup_matching_slot nr_slots (sy_slots st) start_addr_ slot_size with
    | None => Some st
    | Some (i, mem) =>
      let '(ok, mem') := kvm_slot_get_dirty_log ioctl mem in
      st' ← (if ok
             then mkSync (<[i := mem']> (sy_slots st))
                    <$> kvm_slot_sync_dirty_pages psize mem' (sy_dirty st)
             else Some (mkSync (<[i := mem']> (sy_slots st)) (sy_dirty st)));
      kvm_physical_sync_dirty_bitmap_loop fuel' psize kvm_max_slot_size
        nr_slots ioctl (u64 (start_addr_ + slot_size)) (u64 (size_ - slot_size)) st'
    end
  end.

(** [kvm_physical_sync_dirty_bitmap(kml, section)].  A section of [n]
    bytes is cut into at most [n] slots. *)
Definition kvm_physical_sync_dirty_bitmap
    (psize kvm_max_slot_size nr_slots : Z) (ioctl : get_dirty_log_oracle)
    (section : MemoryRegionSection) (st : sync_state) : option sync_state :=
  '(start_addr_, size_) ← kvm_align_section psize section;
  kvm_physical_sync_dirty_bitmap_loop (Z.to_nat size_) psize kvm_max_slot_size
    nr_slots ioctl start_addr_ size_ st.

(** Alignment requirement for KVM_CLEAR_DIRTY_LOG: 64 pages. *)
Definition KVM_CLEAR_LOG_SHIFT : Z := 6.
Definition KVM_CLEAR_LOG_ALIGN (psize : Z) : Z :=
  u64 (Z.shiftl psize KVM_CLEAR_LOG_SHIFT).
Definition KVM_CLEAR_LOG_MASK (psize : Z) : Z := u64 (- KVM_CLEAR_LOG_ALIGN psize).

Definition UINT32_MAX : Z := 2 ^ 32 - 1.

(** The argument of KVM_CLEAR_DIRTY_LOG; the kernel only reads the
    bitmap it is handed. *)
Record kvm_clear_dirty_log := mkClearLog {
  cl_slot : Z;
  cl_num_pages : Z;
  cl_first_page : Z;
  cl_dirty_bitmap : list Z
}.

Record clear_result := mkClear {
  cr_ret : Z;
  cr_slot : KVMSlot;
  cr_request : kvm_clear_dirty_log
}.

(** [kvm_log_clear_one_slot(mem, as_id, start, size)].  [None] is a
    failed assertion. *)
Definition kvm_log_clear_one_slot (psize : Z) (ioctl : kvm_clear_dirty_log -> Z)
    (mem : KVMSlot) (as_id_ start size_ : Z) : option clear_result :=
  let bmap_start := Z.land start (KVM_CLEAR_LOG_MASK psize) in
  let start_delta := u64 (start - bmap_start) in
  let bmap_start := bmap_start / psize in
  let bmap_npages :=
    u64 (Z.shiftl (DIV_ROUND_UP (u64 (size_ + start_delta)) (KVM_CLEAR_LOG_ALIGN psize))
                  KVM_CLEAR_LOG_SHIFT) in
  let end_ := memory_size mem / psize in
  let bmap_npages :=
    if decide (bmap_npages > u64 (end_ - bmap_start))
    then u64 (end_ - bmap_start) else bmap_npages in
  let start_delta := start_delta / psize in
  if decide (bmap_start mod Bitmap.BITS_PER_LONG <> 0) then None else
  dirty ← dirty_bmap mem;
  let d_bitmap :=
    if bool_decide (start_delta <> 0)
       || bool_decide (u64 (bmap_npages - size_ / psize) <> 0)
    then
      let bmap_clear := Bitmap.bitmap_new bmap_npages in
      let bmap_clear :=
        Bitmap.bitmap_copy_with_src_offset bmap_clear dirty bmap_start
          (u64 (start_delta + size_ / psize)) in
      Bitmap.bitmap_clear bmap_clear 0 start_delta
    else drop (Z.to_nat (Bitmap.BIT_WORD bmap_start)) dirty in
  if decide (bmap_npages > UINT32_MAX) then None else
  let d := mkClearLog (Z.lor (slot mem) (Z.shiftl as_id_ 16)) bmap_npages
                      bmap_start d_bitmap in
  let ret := ioctl d in
  let ret := if decide (ret < 0 /\ ret <> - ENOENT) then ret else 0 in
  let dirty' :=
    Bitmap.bitmap_clear dirty (u64 (bmap_start + start_delta)) (size_ / psize) in
  Some (mkClear ret (set_dirty_bmap (Some dirty') (dirty_bmap_size mem) mem) d).

(** ** Dirty tracking: the ring strategy *)

Definition KVM_DIRTY_GFN_F_DIRTY : Z := 1.
Definition KVM_DIRTY_GFN_F_RESET : Z := 2.

(** An entry of the ring shared with the kernel. *)
Record kvm_dirty_gfn := mkGfn {
  gfn_flags : Z;
  gfn_slot : Z;
  gfn_offset : Z
}.

Record KVMMemoryListener := mkKml {
  kml_as_id : Z;
  kml_slots : list KVMSlot
}.

(** The fields of [KVMState] the dirty ring reads. *)
Record KVMState := mkKVMState {
  nr_slots : Z;
  nr_as : Z;
  as_ml : list KVMMemoryListener;
  kvm_dirty_ring_size : Z
}.

(** The fields of [CPUState] the dirty ring reads and writes;
    [kvm_dirty_gfns] is [None] for the null pointer. *)
Record CPUState := mkCPU {
  cpu_index : Z;
  kvm_dirty_gfns : option (list kvm_dirty_gfn);
  kvm_fetch_index : Z;
  dirty_pages : Z
}.

Definition mark_slot (offset : Z) (mem : KVMSlot) : KVMSlot :=
  set_dirty_bmap (Bitmap.set_bit offset <$> dirty_bmap mem)
                 (dirty_bmap_size mem) mem.

(** [kvm_dirty_ring_mark_page].  An offset beyond the slot is ignored, as
    is an address space beyond [nr_as].  A slot index outside the table,
    or a slot without bitmap, is memory the C code does not own: nothing
    is marked here. *)
Definition kvm_dirty_ring_mark_page (psize : Z) (s : KVMState)
    (as_id_ slot_id offset : Z) : KVMState :=
  if decide (as_id_ >= nr_as s) then s else
  match as_ml s !! Z.to_nat as_id_ with
  | None => s
  | Some kml =>
    match kml_slots kml !! Z.to_nat slot_id with
    | None => s
    | Some mem =>
      if bool_decide (memory_size mem = 0)
         || bool_decide (offset >= memory_size mem / psize)
      then s
      else
        let kml' := mkKml (kml_as_id kml)
                          (<[Z.to_nat slot_id := mark_slot offset mem]> (kml_slots kml)) in
        mkKVMState (nr_slots s) (nr_as s)
                   (<[Z.to_nat as_id_ := kml']> (as_ml s))
                   (kvm_dirty_ring_size s)
    end
  end.

(** The acquire load and the release store on an entry's flag word. *)
Definition dirty_gfn_is_dirtied (gfn : kvm_dirty_gfn) : bool :=
  bool_decide (gfn_flags gfn = KVM_DIRTY_GFN_F_DIRTY).

Definition dirty_gfn_set_collected (gfn : kvm_dirty_gfn) : kvm_dirty_gfn :=
  mkGfn KVM_DIRTY_GFN_F_RESET (gfn_slot gfn) (gfn_offset gfn).

Record reap_state := mkReap {
  rp_kvm : KVMState;
  rp_ring : list kvm_dirty_gfn;
  rp_fetch : Z;
  rp_count : Z
}.

(** The [while (true)] loop of [kvm_dirty_ring_reap_one]; [None] is a run
    that did not finish within [fuel] iterations or that read outside the
    ring. *)
Fixpoint kvm_dirty_ring_reap_loop (fuel : nat) (psize ring_size : Z)
    (st : reap_state) : option reap_state :=
  match fuel with
  | O => None
  | S fuel' =>
    let idx := Z.to_nat (rp_fetch st mod ring_size) in
    cur ← rp_ring st !! idx;
    if negb (dirty_gfn_is_dirtied cur) then Some st
    else
      let s' := kvm_dirty_ring_mark_page psize (rp_kvm st)
                  (Z.shiftr (gfn_slot cur) 16) (Z.land (gfn_slot cur) 65535)
                  (gfn_offset cur) in
      kvm_dirty_ring_reap_loop fuel' psize ring_size
        (mkReap s' (<[idx := dirty_gfn_set_collected cur]> (rp_ring st))
                (u32 (rp_fetch st + 1)) (u32 (rp_count st + 1)))
  end.

(** [kvm_dirty_ring_reap_one(s, cpu)]: the count of collected pages, with
    the new accelerator and vCPU state.  [None] is the failed assertion on
    the ring.  Every iteration but the last turns a dirty entry into a
    collected one, so one more iteration than the ring has entries is
    all the loop can make. *)
Definition kvm_dirty_ring_reap_one (psize : Z) (s : KVMState) (cpu : CPUState)
    : option (Z * KVMState * CPUState) :=
  dirty_gfns ← kvm_dirty_gfns cpu;
  let ring_size := kvm_dirty_ring_size s in
  if decide (ring_size = 0) then None else
  st ← kvm_dirty_ring_reap_loop (S (length dirty_gfns)) psize ring_size
         (mkReap s dirty_gfns (kvm_fetch_index cpu) 0);
  Some (rp_count st, rp_kvm st,
        mkCPU (cpu_index cpu) (Some (rp_ring st)) (rp_fetch st)
              (u64 (dirty_pages cpu + rp_count st))).

(** The cooperative reaper of all vCPUs, [CPU_FOREACH] in
    [kvm_dirty_ring_reap_locked]: the total count with the new state. *)
Fixpoint reap_each (psize : Z) (s : KVMState) (cpus : list CPUState)
    : option (Z * KVMState * list CPUState) :=
  match cpus with
  | [] => Some (0, s, [])
  | cpu :: rest =>
    '(n, s1, cpu') ← kvm_dirty_ring_reap_one psize s cpu;
    '(total, s2, rest') ← reap_each psize s1 rest;
    Some (u64 (n + total), s2, cpu' :: rest')
  end.

(** [kvm_dirty_ring_reap_locked(s, cpu)]: [target] is the index of the
    vCPU to reap, or [None] for all of them.  [reset_rings] is the
    kernel's answer to KVM_RESET_DIRTY_RINGS; the assertion on it is
    [None] when it fails. *)
Definition kvm_dirty_ring_reap_locked (psize : Z) (reset_rings : Z)
    (s : KVMState) (cpus : list CPUState) (target : option nat)
    : option (Z * KVMState * list CPUState) :=
  '(total, s', cpus') ←
    match target with
    | Some i =>
      cpu ← cpus !! i;
      '(n, s1, cpu') ← kvm_dirty_ring_reap_one psize s cpu;
      Some (n, s1, <[i := cpu']> cpus)
    | None => reap_each psize s cpus
    end;
  if decide (total <> 0 /\ reset_rings <> total) then None
  else Some (total, s', cpus').

(** ** Interrupt routing *)

Definition KVM_IRQ_ROUTING_IRQCHIP : Z := 1.
Definition KVM_IRQ_ROUTING_MSI : Z := 2.
Definition KVM_MSI_HASHTAB_SIZE : Z := 256.

(** The union of a routing entry, by route type. *)
Inductive route_payload :=
  | RouteIrqchip (irqchip pin : Z)
  | RouteMsi (address_lo address_hi data devid : Z)
  | RouteOther (raw : list Z).

Record kvm_irq_routing_entry := mkRoute {
  gsi : Z;
  rtype : Z;
  rflags : Z;
  u : route_payload
}.

Global Instance route_payload_eq_dec : EqDecision route_payload.
Proof. solve_decision. Defined.

Global Instance kvm_irq_routing_entry_eq_dec : EqDecision kvm_irq_routing_entry.
Proof. solve_decision. Defined.

(** The routing part of [KVMState] with the mode flags it consults.
    [irq_routes] holds the [nr] live entries of the table in order;
    [msi_hashtab] holds the cached MSI routes, one list per bucket. *)
Record RoutingState := mkRouting {
  gsi_count : Z;
  used_gsi_bitmap : list Z;
  irq_routes : list kvm_irq_routing_entry;
  nr_allocated_irq_routes : Z;
  msi_hashtab : list (list kvm_irq_routing_entry);
  kvm_direct_msi_allowed : bool;
  kvm_gsi_direct_mapping : bool
}.

Definition with_bitmap (b : list Z) (s : RoutingState) : RoutingState :=
  mkRouting (gsi_count s) b (irq_routes s) (nr_allocated_irq_routes s)
            (msi_hashtab s) (kvm_direct_msi_allowed s) (kvm_gsi_direct_mapping s).

Definition with_routes (r : list kvm_irq_routing_entry) (s : RoutingState)
    : RoutingState :=
  mkRouting (gsi_count s) (used_gsi_bitmap s) r (nr_allocated_irq_routes s)
            (msi_hashtab s) (kvm_direct_msi_allowed s) (kvm_gsi_direct_mapping s).

Definition with_allocated (n : Z) (s : RoutingState) : RoutingState :=
  mkRouting (gsi_count s) (used_gsi_bitmap s) (irq_routes s) n
            (msi_hashtab s) (kvm_direct_msi_allowed s) (kvm_gsi_direct_mapping s).

Definition with_hashtab (h : list (list kvm_irq_routing_entry))
    (s : RoutingState) : RoutingState :=
  mkRouting (gsi_count s) (used_gsi_bitmap s) (irq_routes s)
            (nr_allocated_irq_routes s) h
            (kvm_direct_msi_allowed s) (kvm_gsi_direct_mapping s).

Definition set_gsi (s : RoutingState) (gsi_ : Z) : RoutingState :=
  with_bitmap (Bitmap.set_bit gsi_ (used_gsi_bitmap s)) s.

Definition clear_gsi (s : RoutingState) (gsi_ : Z) : RoutingState :=
  with_bitmap (Bitmap.clear_bit gsi_ (used_gsi_bitmap s)) s.

(** [kvm_init_irq_routing]: [cap] is what the kernel reports for
    KVM_CAP_IRQ_ROUTING. *)
Definition kvm_init_irq_routing (cap : Z) (direct_msi direct_mapping : bool)
    : RoutingState :=
  let gsi_count_ := cap - 1 in
  mkRouting (if decide (gsi_count_ > 0) then gsi_count_ else 0)
            (if decide (gsi_count_ > 0) then Bitmap.bitmap_new gsi_count_ else [])
            [] 0
            (replicate (Z.to_nat KVM_MSI_HASHTAB_SIZE) [])
            direct_msi direct_mapping.

(** [kvm_add_routing_entry]: grow by doubling from 64, append, mark. *)
Definition kvm_add_routing_entry (s : RoutingState)
    (entry : kvm_irq_routing_entry) : RoutingState :=
  let s1 :=
    if decide (Z.of_nat (length (irq_routes s)) = nr_allocated_irq_routes s)
    then
      let n := nr_allocated_irq_routes s * 2 in
      with_allocated (if decide (n < 64) then 64 else n) s
    else s in
  set_gsi (with_routes (irq_routes s1 ++ [entry]) s1) (gsi entry).

(** [kvm_update_routing_entry]: replace the first entry of this GSI. *)
Definition kvm_update_routing_entry (s : RoutingState)
    (new_entry : kvm_irq_routing_entry) : Z * RoutingState :=
  match list_find (fun e => gsi e = gsi new_entry) (irq_routes s) with
  | Some (n, entry) =>
    if decide (entry = new_entry) then (0, s)
    else (0, with_routes (<[n := new_entry]> (irq_routes s)) s)
  | None => (- ESRCH, s)
  end.

(** [kvm_irqchip_add_irq_route]; [None] is the failed assertion.  The
    field [gsi_count] is unsigned (sysemu/kvm_int.h), so the [int] pin is
    compared as an unsigned value and a negative one fails the
    assertion. *)
Definition kvm_irqchip_add_irq_route (s : RoutingState) (irq irqchip pin : Z)
    : option RoutingState :=
  if decide (u32 pin < gsi_count s)
  then Some (kvm_add_routing_entry s
               (mkRoute irq KVM_IRQ_ROUTING_IRQCHIP 0 (RouteIrqchip irqchip pin)))
  else None.

(** The [for] loop of [kvm_irqchip_release_virq] from index [i] on: a
    matching entry is overwritten with the last one and the table
    shrinks; the index moves on in either case.  [fuel] is the number of
    indices still to visit. *)
Fixpoint release_loop (fuel : nat) (i : nat) (virq : Z)
    (routes : list kvm_irq_routing_entry) : list kvm_irq_routing_entry :=
  match fuel with
  | O => routes
  | S fuel' =>
    match routes !! i with
    | None => routes
    | Some e =>
      if decide (gsi e = virq)
      then
        let nr := pred (length routes) in
        match routes !! nr with
        | Some last_ => release_loop fuel' (S i) virq (take nr (<[i := last_]> routes))
        | None => routes
        end
      else release_loop fuel' (S i) virq routes
    end
  end.

(** [kvm_irqchip_release_virq]. *)
Definition kvm_irqchip_release_virq (s : RoutingState) (virq : Z) : RoutingState :=
  if kvm_gsi_direct_mapping s then s
  else
    clear_gsi
      (with_routes (release_loop (length (irq_routes s)) 0 virq (irq_routes s)) s)
      virq.

Definition kvm_hash_msi (data : Z) : Z := Z.land data 255.

(** [kvm_flush_dynamic_msi_routes]: release every cached route, bucket by
    bucket, and empty the cache. *)
Definition kvm_flush_dynamic_msi_routes (s : RoutingState) : RoutingState :=
  let s' := foldl (fun st route => kvm_irqchip_release_virq st (gsi route))
                  s (concat (msi_hashtab s)) in
  with_hashtab (replicate (length (msi_hashtab s)) []) s'.

(** [kvm_irqchip_get_virq]: the lowest unused GSI, or [-ENOSPC]. *)
Definition kvm_irqchip_get_virq (s : RoutingState) : Z * RoutingState :=
  let s1 :=
    if negb (kvm_direct_msi_allowed s)
       && bool_decide (Z.of_nat (length (irq_routes s)) = gsi_count s)
    then kvm_flush_dynamic_msi_routes s else s in
  let next_virq :=
    Bitmap.find_first_zero_bit (used_gsi_bitmap s1) (gsi_count s1) in
  if decide (next_virq >= gsi_count s1) then (- ENOSPC, s1)
  else (next_virq, s1).

Definition KVM_IRQ_ROUTING_S390_ADAPTER : Z := 3.
Definition KVM_IRQ_ROUTING_HV_SINT : Z := 4.

Record MSIMessage := mkMsi {
  msg_address : Z;
  msg_data : Z
}.

Definition msi_route_matches (msg : MSIMessage) (route : kvm_irq_routing_entry) : bool :=
  match u route with
  | RouteMsi address_lo address_hi data _ =>
    bool_decide (address_lo = u32 (msg_address msg))
    && bool_decide (address_hi = Z.shiftr (msg_address msg) 32)
    && bool_decide (data = msg_data msg)
  | _ => false
  end.

(** [kvm_lookup_msi_route]: the cached route with exactly this payload,
    in the bucket of its hash. *)
Definition kvm_lookup_msi_route (s : RoutingState) (msg : MSIMessage)
    : option kvm_irq_routing_entry :=
  bucket ← msi_hashtab s !! Z.to_nat (kvm_hash_msi (msg_data msg));
  snd <$> list_find (fun route => msi_route_matches msg route = true) bucket.

Definition msi_route (virq : Z) (msg : MSIMessage) : kvm_irq_routing_entry :=
  mkRoute virq KVM_IRQ_ROUTING_MSI 0
          (RouteMsi (u32 (msg_address msg)) (Z.shiftr (msg_address msg) 32)
                    (msg_data msg) 0).

(** [kvm_irqchip_send_msi].  [signal_msi] and [set_irq] are what the
    kernel answers to the direct injection and to the assertion of the
    routed GSI; committing the routes succeeds.  The cache holds the
    routes this function made, all of type MSI, which is what the
    assertion before [kvm_set_irq] reads; [le32_to_cpu] is the identity
    of a little-endian host. *)
Definition kvm_irqchip_send_msi (signal_msi set_irq : Z) (s : RoutingState)
    (msg : MSIMessage) : Z * RoutingState :=
  if kvm_direct_msi_allowed s then (signal_msi, s)
  else
    match kvm_lookup_msi_route s msg with
    | Some route => (set_irq, s)
    | None =>
      let '(virq, s1) := kvm_irqchip_get_virq s in
      if decide (virq < 0) then (virq, s1)
      else
        let route := msi_route virq msg in
        let s2 := kvm_add_routing_entry s1 route in
        (set_irq,
         with_hashtab (alter (fun bucket => bucket ++ [route])
                             (Z.to_nat (kvm_hash_msi (msg_data msg)))
                             (msi_hashtab s2)) s2)
    end.

(** [kvm_irqchip_add_adapter_route] and [kvm_irqchip_add_hv_sint_route],
    with GSI routing enabled: allocate a GSI, append its route. *)
Definition kvm_irqchip_add_adapter_route (s : RoutingState) (adapter : list Z)
    : Z * RoutingState :=
  let '(virq, s1) := kvm_irqchip_get_virq s in
  if decide (virq < 0) then (virq, s1)
  else (virq, kvm_add_routing_entry s1
                (mkRoute virq KVM_IRQ_ROUTING_S390_ADAPTER 0 (RouteOther adapter))).

Definition kvm_irqchip_add_hv_sint_route (s : RoutingState) (vcpu sint : Z)
    : Z * RoutingState :=
  let '(virq, s1) := kvm_irqchip_get_virq s in
  if decide (virq < 0) then (virq, s1)
  else (virq, kvm_add_routing_entry s1
                (mkRoute virq KVM_IRQ_ROUTING_HV_SINT 0 (RouteOther [vcpu; sint]))).

(** ** Region add and remove, with the mirror of the slot table *)

(** The file-level arrays that shadow the slots of address space 0 for
    the page-fault program, and the high-water mark [used_memslots]. *)
Record MemslotMirror := mkMirror {
  used_memslots : Z;
  memslot_base_gfns_local : list Z;
  memslot_npages_local : list Z;
  memslot_userptrs_local : list Z;
  memslot_as_id : list Z
}.

Definition mirror_init : MemslotMirror :=
  let zeros := replicate (Z.to_nat HYPERUPCALL_MAX_N_MEMSLOTS) 0 in
  mkMirror 0 zeros zeros zeros zeros.

Definition mirror_store (i : Z) (asid npages base_gfn userptr : Z)
    (m : MemslotMirror) : MemslotMirror :=
  mkMirror (used_memslots m)
           (<[Z.to_nat i := base_gfn]> (memslot_base_gfns_local m))
           (<[Z.to_nat i := npages]> (memslot_npages_local m))
           (<[Z.to_nat i := userptr]> (memslot_userptrs_local m))
           (<[Z.to_nat i := asid]> (memslot_as_id m)).

Definition with_used_memslots (n : Z) (m : MemslotMirror) : MemslotMirror :=
  mkMirror n (memslot_base_gfns_local m) (memslot_npages_local m)
           (memslot_userptrs_local m) (memslot_as_id m).

(** [kvm_mem_flags]. *)
Definition kvm_mem_flags (kvm_readonly_mem_allowed : bool) (mr_ : MemoryRegion) : Z :=
  let readonly := mr_readonly mr_ || (mr_rom_device mr_ && mr_romd_mode mr_) in
  let flags_ := 0 in
  let flags_ := if decide (mr_dirty_log_mask mr_ <> 0)
                then Z.lor flags_ KVM_MEM_LOG_DIRTY_PAGES else flags_ in
  if readonly && kvm_readonly_mem_allowed
  then Z.lor flags_ KVM_MEM_READONLY else flags_.

(** What the slot manager works on: the accelerator state with its
    listeners, the vCPUs, the global dirty pages and the mirror. *)
Record Accel := mkAccel {
  acc_kvm : KVMState;
  acc_cpus : list CPUState;
  acc_dirty : list Z;
  acc_mirror : MemslotMirror
}.

(** The settings and kernel answers the slot manager consults. *)
Record SlotEnv := mkSlotEnv {
  env_psize : Z;
  env_max_slot_size : Z;
  env_readonly_mem_allowed : bool;
  env_set_region : kvm_userspace_memory_region -> Z;
  env_get_dirty_log : get_dirty_log_oracle;
  env_reset_rings : Z
}.

Definition listener_slots (s : KVMState) (k : nat) : list KVMSlot :=
  default [] (kml_slots <$> as_ml s !! k).

Definition listener_as_id (s : KVMState) (k : nat) : Z :=
  default 0 (kml_as_id <$> as_ml s !! k).

Definition store_slot (k i : nat) (mem : KVMSlot) (s : KVMState) : KVMState :=
  mkKVMState (nr_slots s) (nr_as s)
    (alter (fun kml => mkKml (kml_as_id kml) (<[i := mem]> (kml_slots kml))) k (as_ml s))
    (kvm_dirty_ring_size s).

(** The unregister loop of [kvm_set_phys_mem] (the [add == false]
    branch).  [None] is [abort()], a failed assertion, or a run that did
    not finish within [fuel] iterations. *)
Fixpoint kvm_set_phys_mem_remove (fuel : nat) (env : SlotEnv) (k : nat)
    (start_addr_ size_ : Z) (w : Accel) : option Accel :=
  match fuel with
  | O => None
  | S fuel' =>
    let slot_size := MIN (env_max_slot_size env) size_ in
    match kvm_lookup_matching_slot (nr_slots (acc_kvm w))
            (listener_slots (acc_kvm w) k) start_addr_ slot_size with
    | None => Some w
    | Some (i, mem) =>
      w1 ← (if decide (Z.land (flags mem) KVM_MEM_LOG_DIRTY_PAGES <> 0)
            then
              '(s1, cpus1) ←
                (if decide (kvm_dirty_ring_size (acc_kvm w) <> 0)
                 then
                   '(_, s1, cpus1) ←
                     kvm_dirty_ring_reap_locked (env_psize env) (env_reset_rings env)
                       (acc_kvm w) (acc_cpus w) None;
                   Some (s1, cpus1)
                 else
                   Some (store_slot k i
                           (snd (kvm_slot_get_dirty_log (env_get_dirty_log env) mem))
                           (acc_kvm w),
                         acc_cpus w));
              mem1 ← listener_slots s1 k !! i;
              dirty1 ← kvm_slot_sync_dirty_pages (env_psize env) mem1 (acc_dirty w);
              Some (mkAccel s1 cpus1 dirty1 (acc_mirror w))
            else Some w);
      mem1 ← listener_slots (acc_kvm w1) k !! i;
      let mem2 :=
        mkKVMSlot (start_addr mem1) 0 (ram mem1) (slot mem1) 0 (old_flags mem1)
                  None (dirty_bmap_size mem1) (as_id mem1) (ram_start_offset mem1) in
      let mirror1 :=
        if bool_decide (slot mem2 < HYPERUPCALL_MAX_N_MEMSLOTS)
           && bool_decide (default 0 (memslot_npages_local (acc_mirror w1)
                                        !! Z.to_nat (slot mem2)) <> 0)
           && bool_decide (as_id mem2 = 0)
        then mirror_store (slot mem2) 0 0 0 0 (acc_mirror w1)
        else acc_mirror w1 in
      let r := kvm_set_user_memory_region (env_set_region env)
                 (listener_as_id (acc_kvm w1) k) mem2 false (used_memslots mirror1) in
      if decide (sr_ret r <> 0) then None else
      let w2 := mkAccel (store_slot k i (sr_slot r) (acc_kvm w1)) (acc_cpus w1)
                        (acc_dirty w1)
                        (with_used_memslots (sr_used_memslots r) mirror1) in
      let size' := u64 (size_ - slot_size) in
      if decide (size' = 0) then Some w2
      else kvm_set_phys_mem_remove fuel' env k (u64 (start_addr_ + slot_size)) size' w2
    end
  end.

(** The register loop of [kvm_set_phys_mem] (the [add == true] branch);
    [None] as above, [kvm_alloc_slot] aborting when no slot is free. *)
Fixpoint kvm_set_phys_mem_add (fuel : nat) (env : SlotEnv) (k : nat)
    (mr_ : MemoryRegion) (start_addr_ size_ ram_start_offset_ ram_ : Z)
    (w : Accel) : option Accel :=
  match fuel with
  | O => None
  | S fuel' =>
    let slot_size := MIN (env_max_slot_size env) size_ in
    '(i, mem0) ← kvm_get_free_slot (nr_slots (acc_kvm w))
                   (listener_slots (acc_kvm w) k);
    let kml_as := listener_as_id (acc_kvm w) k in
    let mem1 :=
      mkKVMSlot start_addr_ slot_size ram_ (slot mem0)
                (kvm_mem_flags (env_readonly_mem_allowed env) mr_)
                (old_flags mem0) (dirty_bmap mem0) (dirty_bmap_size mem0)
                kml_as ram_start_offset_ in
    let mem2 := kvm_slot_init_dirty_bitmap (env_psize env) mem1 in
    let mirror1 :=
      if bool_decide (slot mem2 < HYPERUPCALL_MAX_N_MEMSLOTS)
         && bool_decide (as_id mem2 = 0)
      then mirror_store (slot mem2) kml_as (Z.shiftr slot_size 12)
             (Z.shiftr start_addr_ 12) ram_ (acc_mirror w)
      else acc_mirror w in
    let r := kvm_set_user_memory_region (env_set_region env) kml_as mem2 true
               (used_memslots mirror1) in
    if decide (sr_ret r <> 0) then None else
    let w2 := mkAccel (store_slot k i (sr_slot r) (acc_kvm w)) (acc_cpus w)
                      (acc_dirty w)
                      (with_used_memslots (sr_used_memslots r) mirror1) in
    let size' := u64 (size_ - slot_size) in
    if decide (size' = 0) then Some w2
    else kvm_set_phys_mem_add fuel' env k mr_ (u64 (start_addr_ + slot_size)) size'
           (u64 (ram_start_offset_ + slot_size)) (u64 (ram_ + slot_size)) w2
  end.

(** [kvm_set_phys_mem(kml, section, add)], [k] naming the listener. *)
Definition kvm_set_phys_mem (env : SlotEnv) (k : nat)
    (section : MemoryRegionSection) (add : bool) (w : Accel) : option Accel :=
  let mr_ := mr section in
  let writable := negb (mr_readonly mr_) && negb (mr_rom_device mr_) in
  let skip := negb (mr_is_ram mr_)
              && (writable || negb (env_readonly_mem_allowed env)) in
  let add := if negb (mr_is_ram mr_) && negb (mr_romd_mode mr_) then false else add in
  if skip then Some w else
  '(start_addr_, size_) ← kvm_align_section (env_psize env) section;
  if decide (size_ = 0) then Some w else
  let mr_offset := u64 (offset_within_region section + start_addr_
                        - offset_within_address_space section) in
  let ram_ := u64 (mr_ram_ptr mr_ + mr_offset) in
  let ram_start_offset_ := u64 (mr_ram_addr mr_ + mr_offset) in
  if add
  then kvm_set_phys_mem_add (Z.to_nat size_) env k mr_ start_addr_ size_
         ram_start_offset_ ram_ w
  else kvm_set_phys_mem_remove (Z.to_nat size_) env k start_addr_ size_ w.

(** ** The hyperupcall registry *)

Definition MAX_NUM_HYPERUPCALL_OBJS : Z := 16.
Definition HYPERUPCALL_N_PROGRAM_SLOTS : Z := 8.
Definition HYPERUPCALL_N_MAP_SLOTS : Z := 8.
Definition HYPERUPCALL_PROG_NAME_LEN : Z := 1024.

Definition HYPERUPCALL_MAJORID_XDP : Z := 0.
Definition HYPERUPCALL_MAJORID_PAGEFAULT : Z := 1.
Definition HYPERUPCALL_MAJORID_TC_EGRESS : Z := 2.
Definition HYPERUPCALL_MAJORID_DIRECT_EXE : Z := 3.
Definition HYPERUPCALL_MAJORID_TC_INGRESS : Z := 4.
Definition HYPERUPCALL_MAJORID_PROFILING : Z := 5.

(** libbpf's attach points and the size [DECLARE_LIBBPF_OPTS] stores in
    the [sz] field of a hook. *)
Definition BPF_TC_INGRESS : Z := 1.
Definition BPF_TC_EGRESS : Z := 2.
Definition SIZEOF_BPF_TC_HOOK : Z := 24.

(** A loaded module as the registry sees it: named programs, and named
    data tables with the words a shared mapping of their first page
    shows.  [map_mmap] is [None] when mapping the table fails. *)
Record bpf_program := mkProg {
  prog_name : string;
  prog_fd : Z
}.

Record bpf_map := mkMap {
  map_name : string;
  map_fd : Z;
  map_max_entries : Z;
  map_value_size : Z;
  map_mmap : option Z;
  map_data : list Z
}.

Record bpf_object := mkObj {
  obj_programs : list bpf_program;
  obj_maps : list bpf_map
}.

Record bpf_tc_hook := mkHook {
  hook_sz : Z;
  hook_ifindex : Z;
  hook_attach_point : Z;
  hook_parent : Z
}.

Definition hook_zero : bpf_tc_hook := mkHook 0 0 0 0.

(** [struct HyperUpCall]; [None] stands for a null handle. *)
Record HyperUpCall := mkHyperUpCall {
  obj : option bpf_object;
  links : list (option Z);
  hooks : list bpf_tc_hook;
  progs : list (option bpf_program);
  major_ids : list Z;
  minor_ids : list Z;
  mmaped_map_ptrs : list (option Z);
  maps : list (option bpf_map)
}.

Definition hyperupcall_zero : HyperUpCall :=
  let np := Z.to_nat HYPERUPCALL_N_PROGRAM_SLOTS in
  let nm := Z.to_nat HYPERUPCALL_N_MAP_SLOTS in
  mkHyperUpCall None (replicate np None) (replicate np hook_zero)
                (replicate np None) (replicate np 0) (replicate np 0)
                (replicate nm None) (replicate nm None).

Definition with_obj (o : option bpf_object) (h : HyperUpCall) : HyperUpCall :=
  mkHyperUpCall o (links h) (hooks h) (progs h) (major_ids h) (minor_ids h)
                (mmaped_map_ptrs h) (maps h).

Definition with_program_slot (i : nat) (l : option Z) (k : bpf_tc_hook)
    (p : option bpf_program) (major minor : Z) (h : HyperUpCall) : HyperUpCall :=
  mkHyperUpCall (obj h) (<[i := l]> (links h)) (<[i := k]> (hooks h))
                (<[i := p]> (progs h)) (<[i := major]> (major_ids h))
                (<[i := minor]> (minor_ids h)) (mmaped_map_ptrs h) (maps h).

Definition with_map_slot (i : nat) (ptr : option Z) (m : option bpf_map)
    (h : HyperUpCall) : HyperUpCall :=
  mkHyperUpCall (obj h) (links h) (hooks h) (progs h) (major_ids h)
                (minor_ids h) (<[i := ptr]> (mmaped_map_ptrs h))
                (<[i := m]> (maps h)).

(** The registry: the pool [hyperupcalls] and the memory backend whose
    deletion is pending.  The mirror of the slot table is read, never
    written, by the registry and is passed where it is read. *)
Record Registry := mkRegistry {
  hyperupcalls : list HyperUpCall;
  memory_backend_bh : option string
}.

Definition registry_init : Registry :=
  mkRegistry (replicate (Z.to_nat MAX_NUM_HYPERUPCALL_OBJS) hyperupcall_zero)
             None.

Definition with_pool (l : list HyperUpCall) (r : Registry) : Registry :=
  mkRegistry l (memory_backend_bh r).

Definition with_backend_bh (b : option string) (r : Registry) : Registry :=
  mkRegistry (hyperupcalls r) b.

(** The host services the registry calls: guest memory, libbpf, perf
    events, the object and device layer.  Each is the answer the host
    gives; a null pointer is [None]. *)
Record Host := mkHost {
  read_name : Z -> option string;
  read_gptrs : Z -> Z -> option (list Z);
  read_page : Z -> option (list Z);
  guest_netindex_to_ifindex : Z -> Z;
  bpf_object__open_mem : list Z -> Z -> option bpf_object;
  bpf_object__load : bpf_object -> Z;
  bpf_program__attach_xdp : bpf_program -> Z -> option Z;
  bpf_program__attach_kprobe : bpf_program -> string -> option Z;
  bpf_program__attach_perf_event : bpf_program -> Z -> option Z;
  bpf_tc_hook_create : bpf_tc_hook -> Z;
  bpf_tc_attach : bpf_tc_hook -> Z -> Z;
  bpf_tc_detach : bpf_tc_hook -> Z;
  bpf_tc_hook_destroy : bpf_tc_hook -> Z;
  perf_event_open : Z -> Z;
  perf_event_enable : Z -> Z;
  object_new_with_props : string -> bool;
  qdict_new : bool;
  qmp_device_add : string -> bool;
  qdev_unplug : string -> bool;
  munmap : option Z -> Z -> Z;
  user_creatable_del : string -> bool;
  pthread_mutex_lock : Z;
  qemu_find_dev : Z -> bool;
  qemu_find_netdev : Z -> bool;
  vhostdev_access : Z -> Z;
  net_init_vhost_vdpa : Z -> bool;
  vdpa_device_add : Z -> bool
}.

(** The fixed names of the shared-memory devices, by map slot. *)
Definition memory_backend_names : list string :=
  ["bpf_map_obj0"; "bpf_map_obj1"; "bpf_map_obj2"; "bpf_map_obj3";
   "bpf_map_obj4"; "bpf_map_obj5"; "bpf_map_obj6"; "bpf_map_obj7"]%string.
Definition memory_devices_names : list string :=
  ["bpf_map_dev0"; "bpf_map_dev1"; "bpf_map_dev2"; "bpf_map_dev3";
   "bpf_map_dev4"; "bpf_map_dev5"; "bpf_map_dev6"; "bpf_map_dev7"]%string.

Definition bpf_object__find_program_by_name (o : bpf_object) (name : string)
    : option bpf_program :=
  snd <$> list_find (fun p => prog_name p = name) (obj_programs o).

Definition bpf_object__find_map_by_name (o : bpf_object) (name : string)
    : option (nat * bpf_map) :=
  list_find (fun m => map_name m = name) (obj_maps o).

(** [bpf_map__fd] of a possibly null map. *)
Definition bpf_map__fd (m : option (nat * bpf_map)) : Z :=
  match m with
  | Some (_, m) => map_fd m
  | None => - EINVAL
  end.

(** The index of the first null handle among the first [n], or -1. *)
Definition first_null {A} (n : Z) (l : list (option A)) : Z :=
  match list_find (fun x => x = None) (take (Z.to_nat n) l) with
  | Some (i, _) => Z.of_nat i
  | None => -1
  end.

(** [allocate_hyperupcall_slot]. *)
Definition allocate_hyperupcall_slot (pool : list HyperUpCall) : Z :=
  first_null MAX_NUM_HYPERUPCALL_OBJS (obj <$> pool).

(** [hyperupcalls->maps], [hyperupcalls->progs]: the arrays of the first
    object of the pool. *)
Definition pool_head (pool : list HyperUpCall) : HyperUpCall :=
  default hyperupcall_zero (pool !! 0%nat).

(** [allocate_hyperupcall_map_slot]. *)
Definition allocate_hyperupcall_map_slot (pool : list HyperUpCall) : Z :=
  first_null HYPERUPCALL_N_MAP_SLOTS (maps (pool_head pool)).

(** [free_hyperupcall_map_slot]. *)
Definition free_hyperupcall_map_slot (pool : list HyperUpCall) (slot_ : Z)
    : Z * list HyperUpCall :=
  if decide (slot_ >= HYPERUPCALL_N_MAP_SLOTS) then (-1, pool)
  else
    match maps (pool_head pool) !! Z.to_nat slot_ with
    | Some (Some _) =>
      (0, <[0%nat := with_map_slot (Z.to_nat slot_) None None (pool_head pool)]> pool)
    | _ => (-1, pool)
    end.

(** [allocate_hyperupcall_prog_slot(hyperupcall)]: the argument is not
    read; the scan runs over [hyperupcalls->progs]. *)
Definition allocate_hyperupcall_prog_slot (pool : list HyperUpCall)
    (hyperupcall : HyperUpCall) : Z :=
  first_null HYPERUPCALL_N_PROGRAM_SLOTS (progs (pool_head pool)).

(** The object of a valid registry slot: the index is below the pool
    size and the object is loaded. *)
Definition loaded_slot (r : Registry) (hyperupcall_slot : Z)
    : option (HyperUpCall * bpf_object) :=
  if decide (hyperupcall_slot >= MAX_NUM_HYPERUPCALL_OBJS) then None
  else if decide (hyperupcall_slot < 0) then None
  else
    h ← hyperupcalls r !! Z.to_nat hyperupcall_slot;
    o ← obj h;
    Some (h, o).

Definition store_hyperupcall (i : Z) (h : HyperUpCall) (r : Registry) : Registry :=
  with_pool (<[Z.to_nat i := h]> (hyperupcalls r)) r.

(** Conversions of the machine-word arguments of a hypercall to the
    [unsigned int] and [int] parameters of the operations. *)
Definition to_uint (z : Z) : Z := z mod 2 ^ 32.
Definition to_int (z : Z) : Z := (z + 2 ^ 31) mod 2 ^ 32 - 2 ^ 31.

(** [load_hyperupcall]: the registry slot of the loaded module, or -1. *)
Definition load_hyperupcall (host : Host) (psize : Z) (r : Registry)
    (program_ptr_arr program_len : Z) : Z * Registry :=
  let program_pages := to_int (DIV_ROUND_UP program_len psize) in
  let hyperupcall_slot := allocate_hyperupcall_slot (hyperupcalls r) in
  if decide (hyperupcall_slot < 0) then (-1, r) else
  match read_gptrs host program_ptr_arr (program_pages * 8) with
  | None => (-1, r)
  | Some binary_gptrs =>
    match mapM (read_page host) (take (Z.to_nat program_pages) binary_gptrs) with
    | None => (-1, r)
    | Some pages =>
      match bpf_object__open_mem host (concat pages) program_len with
      | None => (-1, r)
      | Some o =>
        if decide (bpf_object__load host o < 0) then (-1, r)
        else
          (hyperupcall_slot,
           store_hyperupcall hyperupcall_slot
             (with_obj (Some o) (default hyperupcall_zero
                (hyperupcalls r !! Z.to_nat hyperupcall_slot))) r)
      end
    end
  end.

(** The copy loop of [export_memslots_hyperupcall]: entries below
    [used_memslots] go from the local array to the shared one. *)
Definition export_copy (n : Z) (local shared : list Z) : list Z :=
  foldl (fun d i => <[Z.to_nat i := default 0 (local !! Z.to_nat i)]> d)
        shared (seqZ 0 n).

Definition store_map_data (i : nat) (data : list Z) (o : bpf_object) : bpf_object :=
  mkObj (obj_programs o)
        (alter (fun m => mkMap (map_name m) (map_fd m) (map_max_entries m)
                               (map_value_size m) (map_mmap m) data)
               i (obj_maps o)).

(** [export_memslots_hyperupcall(obj)]: 0 with the three shared tables
    written, or -1 with the module untouched.  The function closes the
    descriptors of the three tables before it returns; what the host
    answers to a later mapping of the same tables stays [map_mmap] here,
    so the model follows the source for the first export of a module. *)
Definition export_memslots_hyperupcall (mirror : MemslotMirror) (o : bpf_object)
    : Z * bpf_object :=
  let base_gfns_map := bpf_object__find_map_by_name o "l0_memslots_base_gfns" in
  let npages_map := bpf_object__find_map_by_name o "l0_memslots_npages" in
  let userptrs_map := bpf_object__find_map_by_name o "l0_memslots_userspace_addr" in
  if bool_decide (bpf_map__fd base_gfns_map < 0)
     || bool_decide (bpf_map__fd npages_map < 0)
     || bool_decide (bpf_map__fd userptrs_map < 0)
  then (-1, o)
  else
    match base_gfns_map, npages_map, userptrs_map with
    | Some (ib, mb), Some (inp, mn), Some (iu, mu) =>
      match map_mmap mb, map_mmap mn, map_mmap mu with
      | Some _, Some _, Some _ =>
        let n := used_memslots mirror in
        let o := store_map_data ib
                   (export_copy n (memslot_base_gfns_local mirror) (map_data mb)) o in
        let o := store_map_data inp
                   (export_copy n (memslot_npages_local mirror) (map_data mn)) o in
        let o := store_map_data iu
                   (export_copy n (memslot_userptrs_local mirror) (map_data mu)) o in
        (0, o)
      | _, _, _ => (-1, o)
      end
    | _, _, _ => (-1, o)
    end.

(** [set_perf_event]: the descriptor, or -1. *)
Definition set_perf_event (host : Host) (sample_freq : Z) : Z :=
  let fd := perf_event_open host sample_freq in
  if decide (fd < 0) then -1 else fd.

Definition VDPA_CREATE : Z := 1.
Definition VDPA_DESTOY : Z := 2.

(** [create_vdpa_and_hotplug]: only its return value reaches the caller. *)
Definition create_vdpa_and_hotplug (host : Host) (cmd interface_id : Z) : Z :=
  if decide (cmd = VDPA_DESTOY) then
    if negb (qemu_find_dev host interface_id) then -1
    else if negb (qdict_new host) then -1
    else 0
  else if decide (cmd = VDPA_CREATE) then
    if decide (vhostdev_access host interface_id <> 0) then -1
    else if qemu_find_netdev host interface_id then -1
    else if negb (qdict_new host) then -1
    else if negb (net_init_vhost_vdpa host interface_id)
            || negb (vdpa_device_add host interface_id) then -1
    else 0
  else -1.

(** The outcome of the attach step of [link_hyperupcall]: a failure, or
    the link (null for a traffic-control hook) and the hook descriptor,
    both with the registry as the step leaves it. *)
Inductive attach_result :=
  | AttachFailed (r : Registry)
  | Attached (link : option Z) (tc_hook : bpf_tc_hook) (r : Registry).

Definition with_attach_point (p : Z) (k : bpf_tc_hook) : bpf_tc_hook :=
  mkHook (hook_sz k) (hook_ifindex k) p (hook_parent k).

Definition attach_tc (host : Host) (prog : bpf_program) (tc_hook : bpf_tc_hook)
    (r : Registry) : attach_result :=
  if decide (bpf_tc_hook_create host tc_hook < 0) then AttachFailed r
  else if decide (bpf_tc_attach host tc_hook (prog_fd prog) < 0) then AttachFailed r
  else Attached None tc_hook r.

Definition attach_link (link : option Z) (tc_hook : bpf_tc_hook) (r : Registry)
    : attach_result :=
  match link with
  | None => AttachFailed r
  | Some _ => Attached link tc_hook r
  end.

(** The [switch (major_id)] of [link_hyperupcall]. *)
Definition attach_by_major (host : Host) (mirror : MemslotMirror) (r : Registry)
    (hyperupcall_slot : Z) (h : HyperUpCall) (o : bpf_object) (prog : bpf_program)
    (tc_hook : bpf_tc_hook) (major_id minor_id : Z) : attach_result :=
  if decide (major_id = HYPERUPCALL_MAJORID_XDP) then
    attach_link (bpf_program__attach_xdp host prog
                   (guest_netindex_to_ifindex host minor_id)) tc_hook r
  else if decide (major_id = HYPERUPCALL_MAJORID_PAGEFAULT) then
    if decide (minor_id = 0) then
      let link := bpf_program__attach_kprobe host prog "alloc_bypass" in
      let o' := snd (export_memslots_hyperupcall mirror o) in
      attach_link link tc_hook
        (store_hyperupcall hyperupcall_slot (with_obj (Some o') h) r)
    else if decide (minor_id = 1) then
      attach_link (bpf_program__attach_kprobe host prog "update_mapping") tc_hook r
    else AttachFailed r
  else if decide (major_id = HYPERUPCALL_MAJORID_TC_INGRESS) then
    attach_tc host prog (with_attach_point BPF_TC_INGRESS tc_hook) r
  else if decide (major_id = HYPERUPCALL_MAJORID_TC_EGRESS) then
    attach_tc host prog tc_hook r
  else if decide (major_id = HYPERUPCALL_MAJORID_DIRECT_EXE) then
    attach_link (if decide (minor_id = 0)
                 then bpf_program__attach_kprobe host prog "sched_direct_exe"
                 else None) tc_hook r
  else if decide (major_id = HYPERUPCALL_MAJORID_PROFILING) then
    let perf_fd := set_perf_event host minor_id in
    if decide (perf_fd < 0) then AttachFailed r
    else
      match bpf_program__attach_perf_event host prog perf_fd with
      | None => AttachFailed r
      | Some link =>
        if decide (perf_event_enable host perf_fd < 0) then AttachFailed r
        else Attached (Some link) tc_hook r
      end
  else AttachFailed r.

(** [link_hyperupcall]: the program slot, or -1. *)
Definition link_hyperupcall (host : Host) (mirror : MemslotMirror) (r : Registry)
    (hyperupcall_slot guest_prog_name major_id minor_id : Z) : Z * Registry :=
  let tc_hook := mkHook SIZEOF_BPF_TC_HOOK (guest_netindex_to_ifindex host minor_id)
                        BPF_TC_EGRESS 0 in
  match loaded_slot r hyperupcall_slot with
  | None => (-1, r)
  | Some (h, o) =>
    match read_name host guest_prog_name with
    | None => (-1, r)
    | Some name =>
      let program_slot := allocate_hyperupcall_prog_slot (hyperupcalls r) h in
      if decide (program_slot < 0) then (-1, r) else
      match bpf_object__find_program_by_name o name with
      | None => (-1, r)
      | Some prog =>
        match attach_by_major host mirror r hyperupcall_slot h o prog tc_hook
                major_id minor_id with
        | AttachFailed r' => (-1, r')
        | Attached link tc_hook' r' =>
          let h' := default h (hyperupcalls r' !! Z.to_nat hyperupcall_slot) in
          (program_slot,
           store_hyperupcall hyperupcall_slot
             (with_program_slot (Z.to_nat program_slot) link tc_hook' (Some prog)
                (to_int major_id) (to_int minor_id) h') r')
        end
      end
    end
  end.

(** [unlink_hyperupcall]: 0, or -1. *)
Definition unlink_hyperupcall (host : Host) (r : Registry)
    (hyperupcall_slot program_slot : Z) : Z * Registry :=
  match loaded_slot r hyperupcall_slot with
  | None => (-1, r)
  | Some (h, _) =>
    if decide (program_slot >= HYPERUPCALL_N_PROGRAM_SLOTS) then (-1, r) else
    match progs h !! Z.to_nat program_slot with
    | Some (Some _) =>
      let hook := default hook_zero (hooks h !! Z.to_nat program_slot) in
      let released :=
        match links h !! Z.to_nat program_slot with
        | Some (Some _) => true
        | _ =>
          if decide (hook_sz hook <> 0)
          then bool_decide (0 <= bpf_tc_detach host hook)
               && bool_decide (0 <= bpf_tc_hook_destroy host hook)
          else false
        end in
      if released
      then (0, store_hyperupcall hyperupcall_slot
                 (with_program_slot (Z.to_nat program_slot) None hook_zero None
                    (-1) (-1) h) r)
      else (-1, r)
    | _ => (-1, r)
    end
  end.

Definition map_bytes (m : bpf_map) : Z := map_max_entries m * map_value_size m.

(** [map_hyperupcall_map]: the map slot, or -1. *)
Definition map_hyperupcall_map (host : Host) (r : Registry)
    (hyperupcall_slot map_name_guest : Z) : Z * Registry :=
  match loaded_slot r hyperupcall_slot with
  | None => (-1, r)
  | Some (h, o) =>
    let map_slot := allocate_hyperupcall_map_slot (hyperupcalls r) in
    if decide (map_slot = -1) then (-1, r) else
    match read_name host map_name_guest with
    | None => (-1, r)
    | Some name =>
      match bpf_object__find_map_by_name o name with
      | None => (-1, r)
      | Some (_, map) =>
        if decide (map_fd map < 0) then (-1, r) else
        match map_mmap map with
        | None => (-1, r)
        | Some mmapped_map =>
          let backend := default ""%string (memory_backend_names !! Z.to_nat map_slot) in
          let device := default ""%string (memory_devices_names !! Z.to_nat map_slot) in
          if negb (object_new_with_props host backend) then (-1, r)
          else if negb (qdict_new host) then (-1, r)
          else if negb (qmp_device_add host device) then (-1, r)
          else
            (map_slot,
             store_hyperupcall hyperupcall_slot
               (with_map_slot (Z.to_nat map_slot) (Some mmapped_map) (Some map) h) r)
        end
      end
    end
  end.

(** [unmap_hyperupcall_map_th]: 0, or -1.  Both indices are signed; a
    negative one passes the range checks and reads outside the arrays,
    which is reported as an invalid slot here. *)
Definition unmap_hyperupcall_map_th (host : Host) (r : Registry)
    (hyperupcall_slot map_slot : Z) : Z * Registry :=
  match loaded_slot r hyperupcall_slot with
  | None => (-1, r)
  | Some (h, _) =>
    if decide (map_slot >= HYPERUPCALL_N_MAP_SLOTS) then (-1, r)
    else if decide (map_slot < 0) then (-1, r)
    else
      match maps h !! Z.to_nat map_slot with
      | Some (Some map) =>
        let device := default ""%string (memory_devices_names !! Z.to_nat map_slot) in
        if negb (qdev_unplug host device) then (-1, r) else
        let r1 := with_backend_bh (memory_backend_names !! Z.to_nat map_slot) r in
        let ptr := default None (mmaped_map_ptrs h !! Z.to_nat map_slot) in
        if decide (munmap host ptr (to_int (map_bytes map)) < 0) then (-1, r1)
        else (0, with_pool (snd (free_hyperupcall_map_slot (hyperupcalls r1) map_slot)) r1)
      | _ => (-1, r)
      end
  end.

(** [unload_hyperupcall]: release what is linked and mapped, close the
    module, free the registry slot.  Failures of the releases are not
    looked at. *)
Definition unload_hyperupcall (host : Host) (r : Registry) (hyperupcall_slot : Z)
    : Z * Registry :=
  match loaded_slot r hyperupcall_slot with
  | None => (-1, r)
  | Some _ =>
    let unlink_one (st : Registry) (i : Z) : Registry :=
      match loaded_slot st hyperupcall_slot with
      | Some (h, _) =>
        match links h !! Z.to_nat i with
        | Some (Some _) => snd (unlink_hyperupcall host st hyperupcall_slot i)
        | _ => st
        end
      | None => st
      end in
    let r1 := foldl unlink_one r (seqZ 0 HYPERUPCALL_N_PROGRAM_SLOTS) in
    let r2 := foldl (fun st i => snd (unmap_hyperupcall_map_th host st hyperupcall_slot i))
                    r1 (seqZ 0 HYPERUPCALL_N_MAP_SLOTS) in
    (0, store_hyperupcall hyperupcall_slot
          (with_obj None (default hyperupcall_zero
             (hyperupcalls r2 !! Z.to_nat hyperupcall_slot))) r2)
  end.

(** [hyperupcall_map_elem_get_set]: not implemented, always -1. *)
Definition hyperupcall_map_elem_get_set (r : Registry) (hyperupcall_slot usr_attr : Z)
    : Z :=
  -1.

(** The deferred deletion of a memory backend at the head of
    [handle_hypercall]. *)
Definition reap_memory_backend (host : Host) (r : Registry) : Registry :=
  match memory_backend_bh r with
  | Some name => if user_creatable_del host name then with_backend_bh None r else r
  | None => r
  end.

(** An operation run under [hyperupcalls_lock]: -1 when the lock cannot
    be taken. *)
Definition locked (host : Host) (r : Registry) (op : Z * Registry) : Z * Registry :=
  if decide (pthread_mutex_lock host <> 0) then (-1, r) else op.

(** [handle_hypercall(cpu, attrs, nr, a0, a1, a2, a3)]: what the guest
    reads back, and the registry afterwards. *)
Definition handle_hypercall (host : Host) (psize : Z) (mirror : MemslotMirror)
    (r0 : Registry) (nr a0 a1 a2 a3 : Z) : Z * Registry :=
  let r := reap_memory_backend host r0 in
  if decide (nr = 13) then locked host r (load_hyperupcall host psize r a0 a1)
  else if decide (nr = 14) then locked host r (unload_hyperupcall host r (to_uint a0))
  else if decide (nr = 15) then
    locked host r (link_hyperupcall host mirror r (to_uint a0) a1 a2 a3)
  else if decide (nr = 16) then
    locked host r (unlink_hyperupcall host r (to_uint a0) (to_uint a1))
  else if decide (nr = 17) then
    locked host r (map_hyperupcall_map host r (to_uint a0) a1)
  else if decide (nr = 18) then
    locked host r (unmap_hyperupcall_map_th host r (to_int a0) (to_int a1))
  else if decide (nr = 19) then
    locked host r (hyperupcall_map_elem_get_set r (to_uint a0) a1, r)
  else if decide (nr = 23) then
    let ret := create_vdpa_and_hotplug host (to_uint a0) (to_uint a1) in
    (0, r)
  else (0, r).

(** ** The vCPU run loop *)

Definition EXCP_INTERRUPT : Z := 65536.
Definition EXCP_HLT : Z := 65537.

Inductive ShutdownCause :=
  | SHUTDOWN_CAUSE_GUEST_SHUTDOWN
  | SHUTDOWN_CAUSE_GUEST_RESET.

Definition KVM_SYSTEM_EVENT_SHUTDOWN : Z := 1.
Definition KVM_SYSTEM_EVENT_RESET : Z := 2.
Definition KVM_SYSTEM_EVENT_CRASH : Z := 3.

(** The exit reasons the loop tells apart, with the payload it reads;
    every other reason goes to the architecture handler. *)
Inductive kvm_exit :=
  | KVM_EXIT_HYPERCALL (nr a0 a1 a2 a3 : Z)
  | KVM_EXIT_IO
  | KVM_EXIT_MMIO
  | KVM_EXIT_IRQ_WINDOW_OPEN
  | KVM_EXIT_SHUTDOWN
  | KVM_EXIT_UNKNOWN
  | KVM_EXIT_INTERNAL_ERROR
  | KVM_EXIT_DIRTY_RING_FULL
  | KVM_EXIT_SYSTEM_EVENT (type : Z)
  | KVM_EXIT_ARCH (reason : Z).

(** One answer of the kernel to KVM_RUN, with what the collaborators
    called on that exit answer: the architecture handler, the
    internal-error handler, and whether dirty-limit throttling is in
    service. *)
Record run_reply := mkReply {
  run_ret : Z;
  exit_reason : kvm_exit;
  arch_handle_exit : Z;
  handle_internal_error : Z;
  dirtylimit_in_service : bool;
  reply_reset_rings : Z
}.

(** What the loop does to the rest of the machine, in order. *)
Inductive run_event :=
  | EvPutRegisters
  | EvKickSelf
  | EvEatSignals
  | EvHypercallRet (ret : Z)
  | EvHandleIO
  | EvHandleMMIO
  | EvResetRequest (cause : ShutdownCause)
  | EvShutdownRequest (cause : ShutdownCause)
  | EvGuestPanicked
  | EvDirtyRingReap (all : bool)
  | EvThrottle
  | EvDumpState
  | EvVmStop.

(** The state a vCPU thread runs on. *)
Record RunState := mkRun {
  vcpu_dirty : bool;
  exit_request : bool;
  run_registry : Registry;
  run_kvm : KVMState;
  run_cpus : list CPUState;
  run_events : list run_event
}.

Definition emit (e : run_event) (st : RunState) : RunState :=
  mkRun (vcpu_dirty st) (exit_request st) (run_registry st) (run_kvm st)
        (run_cpus st) (run_events st ++ [e]).

Definition with_vcpu_dirty (b : bool) (st : RunState) : RunState :=
  mkRun b (exit_request st) (run_registry st) (run_kvm st) (run_cpus st)
        (run_events st).

Definition with_exit_request (b : bool) (st : RunState) : RunState :=
  mkRun (vcpu_dirty st) b (run_registry st) (run_kvm st) (run_cpus st)
        (run_events st).

Definition with_registry (r : Registry) (st : RunState) : RunState :=
  mkRun (vcpu_dirty st) (exit_request st) r (run_kvm st) (run_cpus st)
        (run_events st).

Definition with_rings (s : KVMState) (cpus : list CPUState) (st : RunState) : RunState :=
  mkRun (vcpu_dirty st) (exit_request st) (run_registry st) s cpus
        (run_events st).

(** The [switch (run->exit_reason)] of [kvm_cpu_exec] for one successful
    return of the run call: the new value of [ret] and the state.
    [None] is a failed assertion in the ring reaper.  On a crash event
    [kvm_cpu_synchronize_state] leaves the registers marked dirty. *)
Definition kvm_cpu_exec_dispatch (host : Host) (psize : Z) (mirror : MemslotMirror)
    (self : nat) (reply : run_reply) (st : RunState) : option (Z * RunState) :=
  match exit_reason reply with
  | KVM_EXIT_HYPERCALL nr a0 a1 a2 a3 =>
    let '(hret, r') := handle_hypercall host psize mirror (run_registry st)
                         nr a0 a1 a2 a3 in
    Some (0, emit (EvHypercallRet hret) (with_registry r' st))
  | KVM_EXIT_IO => Some (0, emit EvHandleIO st)
  | KVM_EXIT_MMIO => Some (0, emit EvHandleMMIO st)
  | KVM_EXIT_IRQ_WINDOW_OPEN => Some (EXCP_INTERRUPT, st)
  | KVM_EXIT_SHUTDOWN =>
    Some (EXCP_INTERRUPT, emit (EvResetRequest SHUTDOWN_CAUSE_GUEST_RESET) st)
  | KVM_EXIT_UNKNOWN => Some (-1, st)
  | KVM_EXIT_INTERNAL_ERROR => Some (handle_internal_error reply, st)
  | KVM_EXIT_DIRTY_RING_FULL =>
    let target := if dirtylimit_in_service reply then Some self else None in
    '(_, s', cpus') ← kvm_dirty_ring_reap_locked psize (reply_reset_rings reply)
                        (run_kvm st) (run_cpus st) target;
    Some (0, emit EvThrottle
               (emit (EvDirtyRingReap (negb (dirtylimit_in_service reply)))
                     (with_rings s' cpus' st)))
  | KVM_EXIT_SYSTEM_EVENT type =>
    if decide (type = KVM_SYSTEM_EVENT_SHUTDOWN) then
      Some (EXCP_INTERRUPT, emit (EvShutdownRequest SHUTDOWN_CAUSE_GUEST_SHUTDOWN) st)
    else if decide (type = KVM_SYSTEM_EVENT_RESET) then
      Some (EXCP_INTERRUPT, emit (EvResetRequest SHUTDOWN_CAUSE_GUEST_RESET) st)
    else if decide (type = KVM_SYSTEM_EVENT_CRASH) then
      Some (0, emit EvGuestPanicked (with_vcpu_dirty true st))
    else Some (arch_handle_exit reply, st)
  | KVM_EXIT_ARCH _ => Some (arch_handle_exit reply, st)
  end.

(** One iteration of the [do { ... } while (ret == 0)] loop of
    [kvm_cpu_exec], for one answer of the kernel: the value of [ret] at
    the end of the iteration and the state.  The loop goes on when
    [ret] is 0. *)
Definition kvm_cpu_exec_iteration (host : Host) (psize : Z) (mirror : MemslotMirror)
    (self : nat) (reply : run_reply) (st : RunState) : option (Z * RunState) :=
  let st := if vcpu_dirty st then with_vcpu_dirty false (emit EvPutRegisters st)
            else st in
  let st := if exit_request st then emit EvKickSelf st else st in
  if decide (run_ret reply < 0) then
    if decide (run_ret reply = - EINTR \/ run_ret reply = - EAGAIN)
    then Some (EXCP_INTERRUPT, emit EvEatSignals st)
    else Some (-1, st)
  else kvm_cpu_exec_dispatch host psize mirror self reply st.

(** The loop itself.  The kernel's answers to the successive run calls
    are [replies]; [None] is a loop that wants one more answer than it
    was given (or a failed assertion). *)
Fixpoint kvm_cpu_exec_loop (host : Host) (psize : Z) (mirror : MemslotMirror)
    (self : nat) (replies : list run_reply) (st : RunState)
    : option (Z * RunState * list run_reply) :=
  match replies with
  | [] => None
  | reply :: rest =>
    '(ret, st') ← kvm_cpu_exec_iteration host psize mirror self reply st;
    if decide (ret = 0)
    then kvm_cpu_exec_loop host psize mirror self rest st'
    else Some (ret, st', rest)
  end.

(** [kvm_cpu_exec(cpu)]: the status returned to the vCPU thread, the
    state, and the kernel answers left unread.
    [async_events] is what [kvm_arch_process_async_events] answers.
    The one-time [memset] of the registry at the head of the function
    writes zeros over a registry that is still zero and is left out. *)
Definition kvm_cpu_exec (host : Host) (psize : Z) (mirror : MemslotMirror)
    (self : nat) (async_events : bool) (replies : list run_reply) (st : RunState)
    : option (Z * RunState * list run_reply) :=
  if async_events then Some (EXCP_HLT, with_exit_request false st, replies)
  else
    '(ret, st', rest) ← kvm_cpu_exec_loop host psize mirror self replies st;
    let st' := if decide (ret < 0) then emit EvVmStop (emit EvDumpState st') else st' in
    Some (ret, with_exit_request false st', rest).

(** ** Hosts and states to run the model on *)

(** A host on which every service fails: guest memory faults, libbpf
    returns null handles and negative codes, the object layer refuses. *)
Definition failing_host : Host :=
  mkHost (fun _ => None) (fun _ _ => None) (fun _ => None) (fun _ => -1)
         (fun _ _ => None) (fun _ => -1)
         (fun _ _ => None) (fun _ _ => None) (fun _ _ => None)
         (fun _ => -1) (fun _ _ => -1) (fun _ => -1) (fun _ => -1)
         (fun _ => -1) (fun _ => -1)
         (fun _ => false) false (fun _ => false) (fun _ => false)
         (fun _ _ => -1) (fun _ => false) 0
         (fun _ => false) (fun _ => false) (fun _ => -1)
         (fun _ => false) (fun _ => false).

(** A module with one program, ["probe"], and the three tables of the
    slot export, each showing four zeroed words. *)
Definition probe_object : bpf_object :=
  mkObj [mkProg "probe" 7]
        [mkMap "l0_memslots_base_gfns" 10 512 8 (Some 4096) [0; 0; 0; 0];
         mkMap "l0_memslots_npages" 11 512 8 (Some 8192) [0; 0; 0; 0];
         mkMap "l0_memslots_userspace_addr" 12 512 8 (Some 12288) [0; 0; 0; 0]].

(** A host on which everything succeeds: the guest names the program
    ["probe"], every attach returns the link 1, a one-page binary opens
    as [probe_object]. *)
Definition working_host : Host :=
  mkHost (fun _ => Some "probe"%string) (fun _ _ => Some [4096]) (fun _ => Some [0])
         (fun _ => 2)
         (fun _ _ => Some probe_object) (fun _ => 0)
         (fun _ _ => Some 1) (fun _ _ => Some 1) (fun _ _ => Some 1)
         (fun _ => 0) (fun _ _ => 0) (fun _ => 0) (fun _ => 0)
         (fun _ => 5) (fun _ => 0)
         (fun _ => true) true (fun _ => true) (fun _ => true)
         (fun _ _ => 0) (fun _ => true) 0
         (fun _ => true) (fun _ => false) (fun _ => 0)
         (fun _ => true) (fun _ => true).

Definition run_init : RunState :=
  mkRun false false registry_init (mkKVMState 0 0 [] 0) [] [].

(** A kernel answer to KVM_RUN that succeeded with the given exit. *)
Definition exit_with (e : kvm_exit) : run_reply := mkReply 0 e 0 0 false 0.

(** ** Vocabulary of the properties *)

(** The number of entries of a ring the kernel marked dirty, and the
    entry a fetch index names. *)
Definition dirty_count (ring : list kvm_dirty_gfn) : nat :=
  length (filter (fun g => gfn_flags g = KVM_DIRTY_GFN_F_DIRTY) ring).

Definition ring_index (ring_size fetch : Z) : nat := Z.to_nat (fetch mod ring_size).

(** What one run of the reaping loop does, for enough fuel. *)
Definition reap_run (ring_size : Z) (st st' : reap_state) (n : nat) : Prop :=
  length (rp_ring st') = length (rp_ring st) /\
  kvm_dirty_ring_size (rp_kvm st') = kvm_dirty_ring_size (rp_kvm st) /\
  (n <= dirty_count (rp_ring st))%nat /\
  rp_fetch st' = u32 (rp_fetch st + Z.of_nat n) /\
  rp_count st' = u32 (rp_count st + Z.of_nat n) /\
  (exists cur, rp_ring st' !! ring_index ring_size (rp_fetch st') = Some cur /\
               dirty_gfn_is_dirtied cur = false) /\
  (forall idx g', rp_ring st' !! idx = Some g' ->
     exists g, rp_ring st !! idx = Some g /\
               (g' = g \/ gfn_flags g' = KVM_DIRTY_GFN_F_RESET)) /\
  (forall j : nat, (j < n)%nat ->
     exists g, rp_ring st' !! ring_index ring_size (u32 (rp_fetch st + Z.of_nat j)) = Some g /\
               gfn_flags g = KVM_DIRTY_GFN_F_RESET).

(** The two slot-set calls [kvm_set_user_memory_region] can issue for a
    slot: the one with size 0 and the one with the final state. *)
Definition slot_set_zero (kml_as_id : Z) (slot_ : KVMSlot) : kvm_userspace_memory_region :=
  mkUserMem (Z.lor (slot slot_) (Z.shiftl kml_as_id 16)) (flags slot_)
            (start_addr slot_) 0 (ram slot_).

Definition slot_set_final (kml_as_id : Z) (slot_ : KVMSlot) : kvm_userspace_memory_region :=
  mkUserMem (Z.lor (slot slot_) (Z.shiftl kml_as_id 16)) (flags slot_)
            (start_addr slot_) (memory_size slot_) (ram slot_).

(** The read-only flag of the slot differs from the one last sent. *)
Definition readonly_flipped (slot_ : KVMSlot) : Prop :=
  Z.land (Z.lxor (flags slot_) (old_flags slot_)) KVM_MEM_READONLY <> 0.

(** The opcodes [handle_hypercall] has a [case] for, the hotplug opcode
    apart. *)
Definition registry_opcode (nr : Z) : Prop :=
  nr = 13 \/ nr = 14 \/ nr = 15 \/ nr = 16 \/ nr = 17 \/ nr = 18 \/ nr = 19.

(** What an iteration does before it calls the kernel. *)
Definition pre_run_events (st : RunState) : list run_event :=
  (if vcpu_dirty st then [EvPutRegisters] else []) ++
  (if exit_request st then [EvKickSelf] else []).

(** The state of a vCPU after the answers [replies], when each of them
    lets the loop go on; [None] when one of them ends it. *)
Fixpoint run_through (host : Host) (psize : Z) (mirror : MemslotMirror)
    (self : nat) (replies : list run_reply) (st : RunState) : option RunState :=
  match replies with
  | [] => Some st
  | reply :: rest =>
    match kvm_cpu_exec_iteration host psize mirror self reply st with
    | Some (ret, st') =>
      if decide (ret = 0) then run_through host psize mirror self rest st' else None
    | None => None
    end
  end.

(** Requests for a VM-level transition among the events of a run. *)
Definition is_transition_request (e : run_event) : bool :=
  match e with
  | EvResetRequest _ | EvShutdownRequest _ => true
  | _ => false
  end.

Definition is_shutdown_request (e : run_event) : bool :=
  match e with
  | EvShutdownRequest _ => true
  | _ => false
  end.

(** The registry after two modules were loaded, in slots 0 and 1. *)
Definition two_modules : Registry :=
  snd (load_hyperupcall working_host 4096
         (snd (load_hyperupcall working_host 4096 registry_init 0 4096)) 0 4096).

(** The program handle and the major id stored in a program slot of a
    module. *)
Definition program_in (r : Registry) (module_ slot_ : nat) : option bpf_program :=
  h ← hyperupcalls r !! module_; p ← progs h !! slot_; p.

Definition major_id_in (r : Registry) (module_ slot_ : nat) : option Z :=
  h ← hyperupcalls r !! module_; major_ids h !! slot_.

(** An accelerator with one address space and four free slots, no dirty
    ring, and a kernel that accepts every slot-set call. *)
Definition four_free_slots : Accel :=
  let free i := mkKVMSlot 0 0 0 i 0 0 None 0 0 0 in
  mkAccel (mkKVMState 4 1 [mkKml 0 [free 0; free 1; free 2; free 3]] 0)
          [] [] mirror_init.

Definition accepting_kernel : SlotEnv :=
  mkSlotEnv 4096 (2 ^ 64 - 1) true (fun _ => 0) (fun _ buf => (0, buf)) 0.

(** RAM of [pages] pages at guest address [gpa], backed at host address
    [hva]. *)
Definition ram_section (gpa pages hva : Z) : MemoryRegionSection :=
  mkSection (mkMemoryRegion true false false false 0 hva 0) 0 gpa (pages * 4096).

(** The words of a named table of a module in the registry. *)
Definition table_in (r : Registry) (module_ : nat) (name : string) : option (list Z) :=
  h ← hyperupcalls r !! module_;
  o ← obj h;
  m ← bpf_object__find_map_by_name o name;
  Some (map_data m.2).

(** Distinct GSIs, by position. *)
Definition gsi_unique (routes : list kvm_irq_routing_entry) : Prop :=
  forall j1 j2 e1 e2,
    routes !! j1 = Some e1 -> routes !! j2 = Some e2 -> gsi e1 = gsi e2 -> j1 = j2.

(** The table once entry [i] is overwritten with the last one and the
    table is one entry shorter. *)
Definition swap_removed (routes : list kvm_irq_routing_entry) (i : nat)
    (last_ : kvm_irq_routing_entry) : list kvm_irq_routing_entry :=
  take (pred (length routes)) (<[i := last_]> routes).

(** The invariant of the route table under the allocator: the bitmap
    covers the GSI space, and the GSIs of the table are non-negative,
    marked used, and pairwise distinct; so are the cached ones
    non-negative. *)
Record routing_inv (s : RoutingState) : Prop := mkRoutingInv {
  inv_bitmap : 0 <= gsi_count s <= 64 * Z.of_nat (length (used_gsi_bitmap s));
  inv_range : Forall (fun e => 0 <= gsi e) (irq_routes s);
  inv_marked : Forall (fun e => Bitmap.test_bit (gsi e) (used_gsi_bitmap s) = true)
                      (irq_routes s);
  inv_unique : NoDup (gsi <$> irq_routes s);
  inv_cache : Forall (fun e => 0 <= gsi e) (concat (msi_hashtab s))
}.

(** The routing states the allocator can produce: from the initial one,
    irqchip routes on GSIs that are in range and not in use, MSIs sent
    through cached routes, adapter and SynIC routes, route updates, and
    releases. *)
Inductive routing_reachable : RoutingState -> Prop :=
  | reach_init cap direct_msi direct_mapping :
      routing_reachable (kvm_init_irq_routing cap direct_msi direct_mapping)
  | reach_irq_route s irq irqchip pin s' :
      routing_reachable s ->
      0 <= irq < gsi_count s ->
      Bitmap.test_bit irq (used_gsi_bitmap s) = false ->
      kvm_irqchip_add_irq_route s irq irqchip pin = Some s' ->
      routing_reachable s'
  | reach_send_msi s signal_msi set_irq msg :
      routing_reachable s ->
      routing_reachable (kvm_irqchip_send_msi signal_msi set_irq s msg).2
  | reach_adapter_route s adapter :
      routing_reachable s ->
      routing_reachable (kvm_irqchip_add_adapter_route s adapter).2
  | reach_hv_sint_route s vcpu sint :
      routing_reachable s ->
      routing_reachable (kvm_irqchip_add_hv_sint_route s vcpu sint).2
  | reach_update s new_entry :
      routing_reachable s ->
      routing_reachable (kvm_update_routing_entry s new_entry).2
  | reach_release s virq :
      routing_reachable s -> 0 <= virq ->
      routing_reachable (kvm_irqchip_release_virq s virq).

(** ** The slot table: translation of host addresses *)

(** [kvm_physical_memory_addr_from_host(s, ram, phys_addr)]: the return
    value and what is stored through [phys_addr] ([None] when nothing
    is).  Host addresses are compared as numbers. *)
Definition kvm_physical_memory_addr_from_host (nr_slots_ : Z)
    (slots : list KVMSlot) (ram_ : Z) : Z * option Z :=
  match list_find (fun mem => ram_ >= ram mem /\ ram_ < ram mem + memory_size mem)
                  (take (Z.to_nat nr_slots_) slots) with
  | Some (_, mem) => (1, Some (u64 (start_addr mem + (ram_ - ram mem))))
  | None => (0, None)
  end.

(** ** Switching dirty logging on and off *)






(** ** Clearing the dirty log of a section *)






(** ** Syncing every slot after a ring flush *)





(** ** MSI routes of devices, and resample events *)

Definition ENOSYS : Z := 38.
Definition ENXIO : Z := 6.






(** [struct KVMResampleFd]; an event notifier is known by its
    descriptor. *)
Record KVMResampleFd := mkResampleFd {
  rfd_gsi : Z;
  resample_event : Z
}.

(** [kvm_resample_fd_remove]: the first entry of the GSI goes. *)
Definition kvm_resample_fd_remove (gsi_ : Z) (l : list KVMResampleFd)
    : list KVMResampleFd :=
  match list_find (fun rfd => rfd_gsi rfd = gsi_) l with
  | Some (i, _) => delete i l
  | None => l
  end.

(** [kvm_resample_fd_insert]: at the head. *)
Definition kvm_resample_fd_insert (gsi_ event : Z) (l : list KVMResampleFd)
    : list KVMResampleFd :=
  mkResampleFd gsi_ event :: l.

(** [kvm_resample_fd_notify]: the event that is set, if any. *)
Definition kvm_resample_fd_notify (gsi_ : Z) (l : list KVMResampleFd) : option Z :=
  resample_event <$> (snd <$> list_find (fun rfd => rfd_gsi rfd = gsi_) l).

Definition KVM_IRQFD_FLAG_DEASSIGN : Z := 1.
Definition KVM_IRQFD_FLAG_RESAMPLE : Z := 2.

(** The argument of KVM_IRQFD. *)
Record kvm_irqfd := mkIrqfd {
  irqfd_fd : Z;
  irqfd_gsi : Z;
  irqfd_flags : Z;
  irqfd_resamplefd : Z
}.

(** [kvm_irqchip_assign_irqfd(s, event, resample, virq, assign)]: the
    result and the list of resample events; [resample] is [None] for a
    null notifier.  [None] is the failed assertion. *)
Definition kvm_irqchip_assign_irqfd (ioctl : kvm_irqfd -> Z)
    (kvm_irqchip_is_split kvm_irqfds_enabled : bool)
    (event : Z) (resample : option Z) (virq : Z) (assign : bool)
    (l : list KVMResampleFd) : option (Z * list KVMResampleFd) :=
  let fd := event in
  let rfd := default (-1) resample in
  let irqfd := mkIrqfd fd virq (if assign then 0 else KVM_IRQFD_FLAG_DEASSIGN) 0 in
  '(irqfd, l) ←
    (if decide (rfd <> -1) then
       if negb assign then None
       else if kvm_irqchip_is_split
       then Some (irqfd, kvm_resample_fd_insert virq rfd l)
       else Some (mkIrqfd fd virq (Z.lor (irqfd_flags irqfd) KVM_IRQFD_FLAG_RESAMPLE) rfd, l)
     else if negb assign then
       Some (irqfd, if kvm_irqchip_is_split then kvm_resample_fd_remove virq l else l)
     else Some (irqfd, l));
  if negb kvm_irqfds_enabled then Some (- ENOSYS, l)
  else Some (ioctl irqfd, l).

(** [kvm_irqchip_add_irqfd_notifier_gsi] and
    [kvm_irqchip_remove_irqfd_notifier_gsi]. *)
Definition kvm_irqchip_add_irqfd_notifier_gsi (ioctl : kvm_irqfd -> Z)
    (kvm_irqchip_is_split kvm_irqfds_enabled : bool)
    (n : Z) (rn : option Z) (virq : Z) (l : list KVMResampleFd)
    : option (Z * list KVMResampleFd) :=
  kvm_irqchip_assign_irqfd ioctl kvm_irqchip_is_split kvm_irqfds_enabled
    n rn virq true l.

Definition kvm_irqchip_remove_irqfd_notifier_gsi (ioctl : kvm_irqfd -> Z)
    (kvm_irqchip_is_split kvm_irqfds_enabled : bool)
    (n : Z) (virq : Z) (l : list KVMResampleFd)
    : option (Z * list KVMResampleFd) :=
  kvm_irqchip_assign_irqfd ioctl kvm_irqchip_is_split kvm_irqfds_enabled
    n None virq false l.

(** ** Poisoned pages *)

(** [kvm_hwpoison_page_add]: a page is listed once. *)
Definition kvm_hwpoison_page_add (ram_addr : Z) (hwpoison_page_list : list Z) : list Z :=
  match list_find (fun page => page = ram_addr) hwpoison_page_list with
  | Some _ => hwpoison_page_list
  | None => ram_addr :: hwpoison_page_list
  end.

(** [kvm_unpoison_all]: the pages handed to [qemu_ram_remap], in order,
    and the list afterwards; every page visited is unlinked, the head
    of what is left. *)
Definition kvm_unpoison_all (hwpoison_page_list : list Z) : list Z * list Z :=
  foldl (fun '(remapped, rest) page => (remapped ++ [page], tail rest))
        ([], hwpoison_page_list) hwpoison_page_list.

(** ** Parked vCPUs *)

Record KVMParkedVcpu := mkParked {
  vcpu_id : Z;
  parked_kvm_fd : Z
}.

(** What [do_kvm_destroy_vcpu] asks the architecture and the kernel:
    the results of [kvm_arch_destroy_vcpu], of KVM_GET_VCPU_MMAP_SIZE and
    of the two [munmap] calls. *)
Record DestroyEnv := mkDestroyEnv {
  kvm_arch_destroy_vcpu : Z;
  vcpu_mmap_size : Z;
  munmap_kvm_run : Z;
  munmap_dirty_gfns : Z
}.

(** [do_kvm_destroy_vcpu(cpu)]: the result and the parked list.  [cpu]
    gives the architecture's id of the vCPU, its descriptor, and whether
    it has a dirty ring mapped. *)
Definition do_kvm_destroy_vcpu (env : DestroyEnv) (arch_vcpu_id fd : Z)
    (has_dirty_gfns : bool) (kvm_parked_vcpus : list KVMParkedVcpu)
    : Z * list KVMParkedVcpu :=
  let ret := kvm_arch_destroy_vcpu env in
  if decide (ret < 0) then (ret, kvm_parked_vcpus) else
  let mmap_size := vcpu_mmap_size env in
  if decide (mmap_size < 0) then (mmap_size, kvm_parked_vcpus) else
  let ret := munmap_kvm_run env in
  if decide (ret < 0) then (ret, kvm_parked_vcpus) else
  if has_dirty_gfns && bool_decide (munmap_dirty_gfns env < 0)
  then (munmap_dirty_gfns env, kvm_parked_vcpus)
  else
    (if has_dirty_gfns then munmap_dirty_gfns env else ret,
     mkParked arch_vcpu_id fd :: kvm_parked_vcpus).

(** [kvm_get_vcpu(s, vcpu_id)]: a parked descriptor is taken back,
    otherwise the kernel creates the vCPU. *)
Definition kvm_get_vcpu (create_vcpu : Z -> Z) (vcpu_id_ : Z)
    (kvm_parked_vcpus : list KVMParkedVcpu) : Z * list KVMParkedVcpu :=
  match list_find (fun cpu => vcpu_id cpu = vcpu_id_) kvm_parked_vcpus with
  | Some (i, cpu) => (parked_kvm_fd cpu, delete i kvm_parked_vcpus)
  | None => (create_vcpu vcpu_id_, kvm_parked_vcpus)
  end.

(** ** Software breakpoints *)

(** [GDB_BREAKPOINT_SW] of the gdbstub interface. *)
Definition GDB_BREAKPOINT_SW : Z := 0.

(** [struct kvm_sw_breakpoint]. *)
Record kvm_sw_breakpoint := mkBreakpoint {
  bp_pc : Z;
  saved_insn : Z;
  use_count : Z
}.

(** What the breakpoint functions ask the architecture: the verdict of
    patching a breakpoint in (with the instruction it saved) and out,
    the verdicts for hardware breakpoints, and what
    [kvm_update_guest_debug(cpu, 0)] returns on each vCPU in turn. *)
Record DebugEnv := mkDebugEnv {
  kvm_arch_insert_sw_breakpoint : Z -> Z * Z;
  kvm_arch_remove_sw_breakpoint : kvm_sw_breakpoint -> Z;
  kvm_arch_insert_hw_breakpoint : Z -> Z -> Z -> Z;
  kvm_arch_remove_hw_breakpoint : Z -> Z -> Z -> Z;
  kvm_update_guest_debug : list Z
}.

(** [kvm_find_sw_breakpoint]: the first breakpoint at [pc], with its
    position. *)
Definition kvm_find_sw_breakpoint (kvm_sw_breakpoints : list kvm_sw_breakpoint)
    (pc : Z) : option (nat * kvm_sw_breakpoint) :=
  list_find (fun bp => bp_pc bp = pc) kvm_sw_breakpoints.

(** The [CPU_FOREACH] loop that ends both functions: the first error
    among the vCPUs, or 0. *)
Definition update_all_guest_debug (env : DebugEnv) : Z :=
  default 0 (snd <$> list_find (fun err => err <> 0) (kvm_update_guest_debug env)).

Definition with_use_count (n : Z) (bp : kvm_sw_breakpoint) : kvm_sw_breakpoint :=
  mkBreakpoint (bp_pc bp) (saved_insn bp) n.

(** [kvm_insert_breakpoint(cpu, type, addr, len)]; [use_count] is an
    [int]. *)
Definition kvm_insert_breakpoint (env : DebugEnv) (type addr len : Z)
    (kvm_sw_breakpoints : list kvm_sw_breakpoint)
    : Z * list kvm_sw_breakpoint :=
  if decide (type = GDB_BREAKPOINT_SW) then
    match kvm_find_sw_breakpoint kvm_sw_breakpoints addr with
    | Some (i, bp) =>
      (0, <[i := with_use_count (to_int (use_count bp + 1)) bp]> kvm_sw_breakpoints)
    | None =>
      let '(err, insn) := kvm_arch_insert_sw_breakpoint env addr in
      if decide (err <> 0) then (err, kvm_sw_breakpoints)
      else (update_all_guest_debug env,
            mkBreakpoint addr insn 1 :: kvm_sw_breakpoints)
    end
  else
    let err := kvm_arch_insert_hw_breakpoint env addr len type in
    if decide (err <> 0) then (err, kvm_sw_breakpoints)
    else (update_all_guest_debug env, kvm_sw_breakpoints).

(** [kvm_remove_breakpoint(cpu, type, addr, len)]. *)
Definition kvm_remove_breakpoint (env : DebugEnv) (type addr len : Z)
    (kvm_sw_breakpoints : list kvm_sw_breakpoint)
    : Z * list kvm_sw_breakpoint :=
  if decide (type = GDB_BREAKPOINT_SW) then
    match kvm_find_sw_breakpoint kvm_sw_breakpoints addr with
    | None => (- ENOENT, kvm_sw_breakpoints)
    | Some (i, bp) =>
      if decide (use_count bp > 1)
      then (0, <[i := with_use_count (to_int (use_count bp - 1)) bp]> kvm_sw_breakpoints)
      else
        let err := kvm_arch_remove_sw_breakpoint env bp in
        if decide (err <> 0) then (err, kvm_sw_breakpoints)
        else (update_all_guest_debug env, delete i kvm_sw_breakpoints)
    end
  else
    let err := kvm_arch_remove_hw_breakpoint env addr len type in
    if decide (err <> 0) then (err, kvm_sw_breakpoints)
    else (update_all_guest_debug env, kvm_sw_breakpoints).

(** ** The coalesced MMIO ring *)

(** An entry of the ring, and the ring with its two indices; the ring
    has [KVM_COALESCED_MMIO_MAX] entries, a number the kernel derives
    from the page size. *)
Record kvm_coalesced_mmio := mkCoalesced {
  cm_phys_addr : Z;
  cm_len : Z;
  cm_pio : Z;
  cm_data : list Z
}.

Record kvm_coalesced_mmio_ring := mkCoalescedRing {
  ring_first : Z;
  ring_last : Z;
  coalesced_mmio : list kvm_coalesced_mmio
}.

(** The writes a flush replays: to the I/O address space, or to guest
    memory. *)
Inductive coalesced_write :=
  | AddressSpaceIoWrite (addr : Z) (data : list Z) (len : Z)
  | PhysicalMemoryWrite (addr : Z) (data : list Z) (len : Z).

Record CoalescedState := mkCoalescedState {
  coalesced_flush_in_progress : bool;
  coalesced_mmio_ring : option kvm_coalesced_mmio_ring
}.

(** The [while (ring->first != ring->last)] loop; [None] is a run that
    did not finish within [fuel] iterations, or that read an entry
    outside the ring. *)
Fixpoint coalesced_flush_loop (fuel : nat) (KVM_COALESCED_MMIO_MAX : Z)
    (ring : kvm_coalesced_mmio_ring) (writes : list coalesced_write)
    : option (kvm_coalesced_mmio_ring * list coalesced_write) :=
  if decide (ring_first ring = ring_last ring) then Some (ring, writes) else
  match fuel with
  | O => None
  | S fuel' =>
    ent ← coalesced_mmio ring !! Z.to_nat (ring_first ring);
    let w := if decide (cm_pio ent = 1)
             then AddressSpaceIoWrite (cm_phys_addr ent) (cm_data ent) (cm_len ent)
             else PhysicalMemoryWrite (cm_phys_addr ent) (cm_data ent) (cm_len ent) in
    coalesced_flush_loop fuel' KVM_COALESCED_MMIO_MAX
      (mkCoalescedRing (u32 (ring_first ring + 1) mod KVM_COALESCED_MMIO_MAX)
                       (ring_last ring) (coalesced_mmio ring))
      (writes ++ [w])
  end.

(** [kvm_flush_coalesced_mmio_buffer]: the state afterwards and the
    writes replayed, oldest first.  An index that starts inside the ring
    is back at its start after [KVM_COALESCED_MMIO_MAX] steps. *)
Definition kvm_flush_coalesced_mmio_buffer (KVM_COALESCED_MMIO_MAX : Z)
    (s : CoalescedState) : option (CoalescedState * list coalesced_write) :=
  if coalesced_flush_in_progress s then Some (s, []) else
  match coalesced_mmio_ring s with
  | Some ring =>
    '(ring', writes) ← coalesced_flush_loop (S (Z.to_nat KVM_COALESCED_MMIO_MAX))
                         KVM_COALESCED_MMIO_MAX ring [];
    Some (mkCoalescedState false (Some ring'), writes)
  | None => Some (mkCoalescedState false None, [])
  end.

(** ** Capabilities and vCPU ids *)

(** Capability numbers of linux/kvm.h. *)
Definition KVM_CAP_NR_VCPUS : Z := 9.
Definition KVM_CAP_MAX_VCPUS : Z := 66.
Definition KVM_CAP_MAX_VCPU_ID : Z := 128.

(** The kernel's answers to KVM_CHECK_EXTENSION, on the system
    descriptor and on the VM descriptor. *)
Record CapKernel := mkCapKernel {
  kvm_ioctl_check_extension : Z -> Z;
  kvm_vm_ioctl_check_extension : Z -> Z
}.

(** [kvm_check_extension]. *)
Definition kvm_check_extension (k : CapKernel) (extension : Z) : Z :=
  let ret := kvm_ioctl_check_extension k extension in
  if decide (ret < 0) then 0 else ret.

(** [kvm_vm_check_extension]. *)
Definition kvm_vm_check_extension (k : CapKernel) (extension : Z) : Z :=
  let ret := kvm_vm_ioctl_check_extension k extension in
  if decide (ret < 0) then kvm_check_extension k extension else ret.

(** [kvm_recommended_vcpus], [kvm_max_vcpus], [kvm_max_vcpu_id]. *)
Definition kvm_recommended_vcpus (k : CapKernel) : Z :=
  let ret := kvm_vm_check_extension k KVM_CAP_NR_VCPUS in
  if decide (ret <> 0) then ret else 4.

Definition kvm_max_vcpus (k : CapKernel) : Z :=
  let ret := kvm_check_extension k KVM_CAP_MAX_VCPUS in
  if decide (ret <> 0) then ret else kvm_recommended_vcpus k.

Definition kvm_max_vcpu_id (k : CapKernel) : Z :=
  let ret := kvm_check_extension k KVM_CAP_MAX_VCPU_ID in
  if decide (ret <> 0) then ret else kvm_max_vcpus k.

(** [kvm_vcpu_id_is_valid]. *)
Definition kvm_vcpu_id_is_valid (k : CapKernel) (vcpu_id_ : Z) : bool :=
  bool_decide (vcpu_id_ >= 0) && bool_decide (vcpu_id_ < kvm_max_vcpu_id k).

(** ** Properties of the accelerator object *)

Inductive OnOffAuto := ON_OFF_AUTO_AUTO | ON_OFF_AUTO_ON | ON_OFF_AUTO_OFF.

(** The fields of [KVMState] the property setters write, with the
    descriptor that tells whether the accelerator is initialised. *)
Record AccelProps := mkAccelProps {
  ap_fd : Z;
  kvm_shadow_mem : Z;
  kernel_irqchip_allowed : bool;
  kernel_irqchip_required : bool;
  kernel_irqchip_split : OnOffAuto;
  ap_dirty_ring_size : Z
}.

(** [kvm_accel_instance_init], on the zeroed object. *)
Definition kvm_accel_instance_init : AccelProps :=
  mkAccelProps (-1) (-1) true false ON_OFF_AUTO_AUTO 0.

(** What a setter leaves: the object, and whether it reported an
    error. *)
Definition setter_result : Type := AccelProps * bool.

(** [kvm_set_dirty_ring_size]; the value is a [uint32_t]. *)
Definition kvm_set_dirty_ring_size (visit : option Z) (s : AccelProps)
    : setter_result :=
  if decide (ap_fd s <> -1) then (s, true) else
  match visit with
  | None => (s, true)
  | Some value =>
    if decide (Z.land value (u32 (value - 1)) <> 0) then (s, true)
    else
      (mkAccelProps (ap_fd s) (kvm_shadow_mem s) (kernel_irqchip_allowed s)
                    (kernel_irqchip_required s) (kernel_irqchip_split s) value,
       false)
  end.

(** ** Interrupt lines known by their GSI *)

(** [kvm_irqchip_set_qemuirq_gsi]: [gsimap] maps an interrupt line to
    its GSI. *)
Definition kvm_irqchip_set_qemuirq_gsi (gsimap : gmap Z Z) (irq gsi_ : Z)
    : gmap Z Z :=
  <[irq := gsi_]> gsimap.

(** [kvm_irqchip_add_irqfd_notifier] and
    [kvm_irqchip_remove_irqfd_notifier]. *)
Definition kvm_irqchip_add_irqfd_notifier (ioctl : kvm_irqfd -> Z)
    (kvm_irqchip_is_split kvm_irqfds_enabled : bool) (gsimap : gmap Z Z)
    (n : Z) (rn : option Z) (irq : Z) (l : list KVMResampleFd)
    : option (Z * list KVMResampleFd) :=
  match gsimap !! irq with
  | None => Some (- ENXIO, l)
  | Some gsi_ =>
    kvm_irqchip_add_irqfd_notifier_gsi ioctl kvm_irqchip_is_split kvm_irqfds_enabled
      n rn (to_int gsi_) l
  end.

Definition kvm_irqchip_remove_irqfd_notifier (ioctl : kvm_irqfd -> Z)
    (kvm_irqchip_is_split kvm_irqfds_enabled : bool) (gsimap : gmap Z Z)
    (n : Z) (irq : Z) (l : list KVMResampleFd)
    : option (Z * list KVMResampleFd) :=
  match gsimap !! irq with
  | None => Some (- ENXIO, l)
  | Some gsi_ =>
    kvm_irqchip_remove_irqfd_notifier_gsi ioctl kvm_irqchip_is_split
      kvm_irqfds_enabled n (to_int gsi_) l
  end.

(** ** Statistics *)

(** Flag fields of a statistics descriptor (linux/kvm.h). *)
Definition KVM_STATS_TYPE_MASK : Z := 15.
Definition KVM_STATS_TYPE_CUMULATIVE : Z := 0.
Definition KVM_STATS_TYPE_INSTANT : Z := 1.
Definition KVM_STATS_TYPE_PEAK : Z := 2.
Definition KVM_STATS_TYPE_LINEAR_HIST : Z := 3.
Definition KVM_STATS_TYPE_LOG_HIST : Z := 4.
Definition KVM_STATS_UNIT_MASK : Z := 240.
Definition KVM_STATS_UNIT_NONE : Z := 0.
Definition KVM_STATS_UNIT_BYTES : Z := 16.
Definition KVM_STATS_UNIT_SECONDS : Z := 32.
Definition KVM_STATS_UNIT_CYCLES : Z := 48.
Definition KVM_STATS_UNIT_BOOLEAN : Z := 64.
Definition KVM_STATS_BASE_MASK : Z := 3840.
Definition KVM_STATS_BASE_POW10 : Z := 0.
Definition KVM_STATS_BASE_POW2 : Z := 256.

(** [struct kvm_stats_desc]. *)
Record kvm_stats_desc := mkStatsDesc {
  sd_flags : Z;
  sd_exponent : Z;
  sd_size : Z;
  sd_offset : Z;
  sd_bucket_size : Z;
  sd_name : string
}.

(** A statistic as the monitor reports it. *)
Inductive StatsValue :=
  | StatsBoolean (b : bool)
  | StatsScalar (n : Z)
  | StatsList (l : list Z).

Record Stats := mkStats {
  stats_name : string;
  stats_value : StatsValue
}.

(** [add_kvmstat_entry(pdesc, stats_data, stats_list, errp)];
    [stats_data] is the array of 64-bit values the pointer names.  New
    entries, and the values of a list, are prepended. *)
Definition add_kvmstat_entry (pdesc : kvm_stats_desc) (stats_data : nat -> Z)
    (stats_list : list Stats) : list Stats :=
  let type := Z.land (sd_flags pdesc) KVM_STATS_TYPE_MASK in
  let unit_ := Z.land (sd_flags pdesc) KVM_STATS_UNIT_MASK in
  let base := Z.land (sd_flags pdesc) KVM_STATS_BASE_MASK in
  if negb (bool_decide (type = KVM_STATS_TYPE_CUMULATIVE)
           || bool_decide (type = KVM_STATS_TYPE_INSTANT)
           || bool_decide (type = KVM_STATS_TYPE_PEAK)
           || bool_decide (type = KVM_STATS_TYPE_LINEAR_HIST)
           || bool_decide (type = KVM_STATS_TYPE_LOG_HIST))
  then stats_list
  else if negb (bool_decide (unit_ = KVM_STATS_UNIT_NONE)
                || bool_decide (unit_ = KVM_STATS_UNIT_BYTES)
                || bool_decide (unit_ = KVM_STATS_UNIT_CYCLES)
                || bool_decide (unit_ = KVM_STATS_UNIT_SECONDS)
                || bool_decide (unit_ = KVM_STATS_UNIT_BOOLEAN))
  then stats_list
  else if negb (bool_decide (base = KVM_STATS_BASE_POW10)
                || bool_decide (base = KVM_STATS_BASE_POW2))
  then stats_list
  else
    let value :=
      if decide (unit_ = KVM_STATS_UNIT_BOOLEAN)
      then StatsBoolean (negb (bool_decide (stats_data 0%nat = 0)))
      else if decide (sd_size pdesc = 1) then StatsScalar (stats_data 0%nat)
      else StatsList (foldl (fun val_list i => stats_data i :: val_list) []
                            (seq 0 (Z.to_nat (sd_size pdesc)))) in
    mkStats (sd_name pdesc) value :: stats_list.

Inductive StatsType :=
  | STATS_TYPE_CUMULATIVE | STATS_TYPE_INSTANT | STATS_TYPE_PEAK
  | STATS_TYPE_LINEAR_HISTOGRAM | STATS_TYPE_LOG2_HISTOGRAM.

Inductive StatsUnit :=
  | STATS_UNIT_BYTES | STATS_UNIT_SECONDS | STATS_UNIT_CYCLES | STATS_UNIT_BOOLEAN.

(** [StatsSchemaValue]; an optional member is [None] when its [has_]
    flag is unset. *)
Record StatsSchemaValue := mkSchemaValue {
  ssv_name : string;
  ssv_type : StatsType;
  ssv_unit : option StatsUnit;
  ssv_base : option Z;
  ssv_exponent : Z;
  ssv_bucket_size : option Z
}.

(** [add_kvmschema_entry(pdesc, list, errp)]. *)
Definition add_kvmschema_entry (pdesc : kvm_stats_desc)
    (list_ : list StatsSchemaValue) : list StatsSchemaValue :=
  let type := Z.land (sd_flags pdesc) KVM_STATS_TYPE_MASK in
  let unit_ := Z.land (sd_flags pdesc) KVM_STATS_UNIT_MASK in
  let base := Z.land (sd_flags pdesc) KVM_STATS_BASE_MASK in
  let entry_type :=
    if decide (type = KVM_STATS_TYPE_CUMULATIVE) then Some (STATS_TYPE_CUMULATIVE, None)
    else if decide (type = KVM_STATS_TYPE_INSTANT) then Some (STATS_TYPE_INSTANT, None)
    else if decide (type = KVM_STATS_TYPE_PEAK) then Some (STATS_TYPE_PEAK, None)
    else if decide (type = KVM_STATS_TYPE_LINEAR_HIST)
    then Some (STATS_TYPE_LINEAR_HISTOGRAM, Some (sd_bucket_size pdesc))
    else if decide (type = KVM_STATS_TYPE_LOG_HIST) then Some (STATS_TYPE_LOG2_HISTOGRAM, None)
    else None in
  let entry_unit :=
    if decide (unit_ = KVM_STATS_UNIT_NONE) then Some None
    else if decide (unit_ = KVM_STATS_UNIT_BOOLEAN) then Some (Some STATS_UNIT_BOOLEAN)
    else if decide (unit_ = KVM_STATS_UNIT_BYTES) then Some (Some STATS_UNIT_BYTES)
    else if decide (unit_ = KVM_STATS_UNIT_CYCLES) then Some (Some STATS_UNIT_CYCLES)
    else if decide (unit_ = KVM_STATS_UNIT_SECONDS) then Some (Some STATS_UNIT_SECONDS)
    else None in
  let entry_base :=
    if decide (sd_exponent pdesc <> 0) then
      if decide (base = KVM_STATS_BASE_POW10) then Some (Some 10)
      else if decide (base = KVM_STATS_BASE_POW2) then Some (Some 2)
      else None
    else Some None in
  match entry_type, entry_unit, entry_base with
  | Some (t, bucket), Some un, Some b =>
    mkSchemaValue (sd_name pdesc) t un b (sd_exponent pdesc) bucket :: list_
  | _, _, _ => list_
  end.

(** The loop of [query_stats] that builds the list of statistics:
    [names] is the name filter, [stats_data] the data block read from
    the descriptor, seen from a byte offset. *)
Definition query_stats_list (names : string -> bool) (descs : list kvm_stats_desc)
    (stats_data : Z -> nat -> Z) : list Stats :=
  foldl (fun stats_list pdesc =>
           if names (sd_name pdesc)
           then add_kvmstat_entry pdesc (stats_data (sd_offset pdesc)) stats_list
           else stats_list)
        [] descs.

(** The loop of [query_stats_schema]. *)
Definition query_stats_schema_list (descs : list kvm_stats_desc)
    : list StatsSchemaValue :=
  foldl (fun stats_list pdesc => add_kvmschema_entry pdesc stats_list) [] descs.

(** ** Vocabulary of the further properties *)

(** The list of poisoned pages after the reports [addrs], oldest
    first. *)
Definition poisoned_after (addrs : list Z) : list Z :=
  foldl (fun l a => kvm_hwpoison_page_add a l) [] addrs.

(** The write that replays a ring entry. *)
Definition replayed (ent : kvm_coalesced_mmio) : coalesced_write :=
  if decide (cm_pio ent = 1)
  then AddressSpaceIoWrite (cm_phys_addr ent) (cm_data ent) (cm_len ent)
  else PhysicalMemoryWrite (cm_phys_addr ent) (cm_data ent) (cm_len ent).

(** The list of breakpoints as the functions keep it: one entry per
    address, each in use at least once, counts within [int]. *)
Definition breakpoints_inv (l : list kvm_sw_breakpoint) : Prop :=
  NoDup (bp_pc <$> l) /\ Forall (fun bp => 1 <= use_count bp <= 2 ^ 31 - 1) l.

(** The breakpoint at [pc], if there is one, can be taken once more
    without its count leaving [int]. *)
Definition can_take_again (l : list kvm_sw_breakpoint) (pc : Z) : Prop :=
  forall i bp, kvm_find_sw_breakpoint l pc = Some (i, bp) -> use_count bp < 2 ^ 31 - 1.

(** A slot whose guest range lies inside the 64-bit address space. *)
Definition slot_fits (mem : KVMSlot) : Prop :=
  0 <= start_addr mem /\ 0 <= memory_size mem /\
  start_addr mem + memory_size mem <= 2 ^ 64.

(** The host address [hva] lies in the RAM that backs the slot. *)
Definition backs (mem : KVMSlot) (hva : Z) : Prop :=
  ram mem <= hva < ram mem + memory_size mem.

(** The geometry of a clear request on a slot, in pages of [2 ^ k]
    bytes: the first page handed to the kernel (the caller's first
    page rounded down to 64 pages), the number of pages handed to it
    (the caller's range with the padding in front, rounded up to 64
    pages and cut at the end of the slot), and the padding in front. *)
Definition clear_first_page (k start : Z) : Z := 64 * (start / 2 ^ (k + 6)).

Definition clear_num_pages (k : Z) (mem : KVMSlot) (start size_ : Z) : Z :=
  Z.min (64 * ((size_ + start mod 2 ^ (k + 6) + 2 ^ (k + 6) - 1) / 2 ^ (k + 6)))
        (memory_size mem / 2 ^ k - clear_first_page k start).

Definition clear_padding (k start : Z) : Z :=
  start / 2 ^ k - clear_first_page k start.

(** The conditions under which a clear request is well formed: it lies
    inside a slot that has a bitmap and whose page count fits 32
    bits, and rounding to 64 pages stays inside the address space. *)
Definition clear_request_ok (k : Z) (mem : KVMSlot) (start size_ : Z) : Prop :=
  0 <= k <= 57 /\ 0 <= start /\ 0 <= size_ /\ start + size_ <= memory_size mem /\
  memory_size mem + 2 ^ (k + 6) <= 2 ^ 64 /\
  memory_size mem / 2 ^ k <= UINT32_MAX.


(** Page [j] of the slot lies in the guest range of [size_] bytes at
    [start]. *)
Definition page_in_range (k : Z) (mem : KVMSlot) (start size_ j : Z) : Prop :=
  0 <= j < memory_size mem / 2 ^ k /\
  start <= start_addr mem + j * 2 ^ k < start + size_.

Global Instance page_in_range_dec k mem start size_ j :
  Decision (page_in_range k mem start size_ j).
Proof. unfold page_in_range. apply _. Defined.



(** The slot that a pair of an address-space index and a slot index
    names in the accelerator. *)
Definition slot_at (s : KVMState) (as_id_ slot_id : Z) : option KVMSlot :=
  kml ← as_ml s !! Z.to_nat as_id_; kml_slots kml !! Z.to_nat slot_id.

(** Page [offset] of the slot is set in the slot's cached bitmap. *)
Definition page_marked (s : KVMState) (as_id_ slot_id offset : Z) : Prop :=
  exists mem bm,
    slot_at s as_id_ slot_id = Some mem /\ dirty_bmap mem = Some bm /\
    Bitmap.test_bit offset bm = true.

(** Page [offset] of the slot is a page the ring can report: the slot
    is in use, carries its own index, has a bitmap, and the page lies
    in it. *)
Definition page_tracked (psize : Z) (s : KVMState) (as_id_ slot_id offset : Z) : Prop :=
  0 <= as_id_ < nr_as s /\ 0 <= slot_id < 2 ^ 16 /\
  exists mem bm,
    slot_at s as_id_ slot_id = Some mem /\ slot mem = slot_id /\
    memory_size mem <> 0 /\ 0 <= offset < memory_size mem / psize /\
    dirty_bmap mem = Some bm /\ offset < 64 * Z.of_nat (length bm).

(** The slot id under which [kvm_set_user_memory_region] registers a
    slot of an address space, which a ring entry carries. *)
Definition registered_id (as_id_ slot_id : Z) : Z :=
  Z.lor slot_id (Z.shiftl as_id_ 16).




(** * Properties *)

(** ** Facts about masks and wrap-around *)

Lemma u64_range z : in_u64 (u64 z).
Proof. unfold in_u64, u64. apply Z.mod_pos_bound. lia. Qed.

Lemma u64_small z : in_u64 z -> u64 z = z.
Proof. unfold in_u64, u64. intros. by apply Z.mod_small. Qed.

Lemma pow2_le_mono (a b : Z) : 0 <= a <= b -> 2 ^ a <= 2 ^ b.
Proof. intros. apply Z.pow_le_mono_r; lia. Qed.

Lemma pow2_split (k n : Z) : 0 <= k <= n -> 2 ^ n = 2 ^ k * 2 ^ (n - k).
Proof. intros. rewrite <- Z.pow_add_r by lia. f_equal. lia. Qed.

(** The negated power of two, as a 64-bit value, is the mask that keeps
    bits [k .. 63]. *)
Lemma u64_neg_pow2 (k : Z) :
  0 <= k < 64 -> u64 (- 2 ^ k) = Z.shiftl (Z.ones (64 - k)) k.
Proof.
  intros Hk. unfold u64.
  assert (0 < 2 ^ k <= 2 ^ 63) by (split; [lia | apply pow2_le_mono; lia]).
  rewrite Z.shiftl_mul_pow2, Z.ones_equiv by lia.
  assert (E : 2 ^ 64 = 2 ^ k * 2 ^ (64 - k)) by (apply pow2_split; lia).
  replace (- 2 ^ k) with (2 ^ 64 - 2 ^ k + (-1) * 2 ^ 64) by lia.
  rewrite Z.mod_add by lia. rewrite Z.mod_small by lia. lia.
Qed.

Lemma land_page_mask (x k : Z) :
  0 <= k < 64 -> in_u64 x ->
  Z.land x (u64 (- 2 ^ k)) = 2 ^ k * (x / 2 ^ k).
Proof.
  intros Hk [Hx0 Hx]. rewrite u64_neg_pow2 by done.
  rewrite Z.mul_comm, <- Z.shiftr_div_pow2, <- Z.shiftl_mul_pow2 by lia.
  apply Z.bits_inj'. intros n Hn.
  rewrite Z.land_spec, !Z.shiftl_spec by lia.
  destruct (decide (n < k)) as [Hlt | Hge].
  - rewrite !(Z.testbit_neg_r _ (n - k)) by lia. apply andb_false_r.
  - rewrite Z.shiftr_spec by lia. replace (n - k + k) with n by lia.
    destruct (decide (n < 64)) as [Hn64 | Hn64].
    + rewrite Z.ones_spec_low by lia. apply andb_true_r.
    + rewrite Z.ones_spec_high by lia. rewrite andb_false_r.
      symmetry. apply Z.bits_above_log2; [lia |].
      destruct (decide (x = 0)) as [-> | Hx1]; [simpl; lia |].
      apply Z.log2_lt_pow2; [lia |].
      eapply Z.lt_le_trans; [exact Hx |]. apply pow2_le_mono. lia.
Qed.

Lemma ROUND_UP_pow2 (n k : Z) :
  0 <= k < 64 ->
  ROUND_UP n (2 ^ k) = 2 ^ k * (u64 (n + 2 ^ k - 1) / 2 ^ k).
Proof. intros. unfold ROUND_UP. apply land_page_mask; [done | apply u64_range]. Qed.

(** ** The alignment helper *)

Lemma pow2_pos (k : Z) : 0 <= k -> 0 < 2 ^ k.
Proof. intros. apply Z.pow_pos_nonneg; lia. Qed.

Lemma mul_div_mod_0 (p q : Z) : p <> 0 -> (p * q) mod p = 0.
Proof. intros. rewrite Z.mul_comm. by apply Z.mod_mul. Qed.

(** Rounding up in 64 bits wraps to zero in the last, partial page of
    the address space and is the mathematical rounding everywhere else. *)
Lemma ROUND_UP_u64 (off k : Z) :
  0 <= k < 64 -> in_u64 off ->
  ROUND_UP off (2 ^ k) = u64 (2 ^ k * ((off + 2 ^ k - 1) / 2 ^ k)).
Proof.
  intros Hk [Ho0 Ho]. rewrite ROUND_UP_pow2 by done.
  assert (HP : 0 < 2 ^ k) by (apply pow2_pos; lia).
  assert (E : 2 ^ 64 = 2 ^ k * 2 ^ (64 - k)) by (apply pow2_split; lia).
  assert (HQ : 0 < 2 ^ (64 - k)) by (apply pow2_pos; lia).
  assert (HP63 : 2 ^ k <= 2 ^ 63) by (apply pow2_le_mono; lia).
  destruct (decide (off + 2 ^ k - 1 < 2 ^ 64)) as [Hfit | Hwrap].
  - rewrite (u64_small (off + 2 ^ k - 1)) by (unfold in_u64; lia).
    symmetry. apply u64_small. unfold in_u64.
    pose proof (Z.mul_div_le (off + 2 ^ k - 1) (2 ^ k) HP).
    assert (0 <= (off + 2 ^ k - 1) / 2 ^ k) by (apply Z.div_pos; lia).
    nia.
  - assert (Hq : (off + 2 ^ k - 1) / 2 ^ k = 2 ^ (64 - k)).
    { symmetry. apply (Z.div_unique _ _ _ (off + 2 ^ k - 1 - 2 ^ 64)); lia. }
    rewrite Hq, <- E.
    unfold u64 at 2. rewrite Z.mod_same by lia.
    assert (Hu : u64 (off + 2 ^ k - 1) = off + 2 ^ k - 1 - 2 ^ 64).
    { unfold u64. symmetry. apply (Z.mod_unique _ _ 1); lia. }
    rewrite Hu, Z.div_small by lia. lia.
Qed.

(** C8: for every section whose fields are 64-bit values and every
    host page size [2 ^ k], [kvm_align_section] returns the section's
    start rounded up to the page size when the rounded address fits 64
    bits, and 0 when the section starts in the last, partial page of the
    address space, where the 64-bit rounding wraps around; and it
    returns the remaining length (the size less the 64-bit rounding
    delta) truncated down to a multiple of the page size, or 0 when the
    rounding delta exceeds the section's size; start and size are both
    multiples of the page size. *)
Theorem kvm_align_section_rounds (k : Z) (section : MemoryRegionSection) :
  0 <= k < 64 ->
  in_u64 (offset_within_address_space section) ->
  in_u64 (size section) ->
  let psize := 2 ^ k in
  let off := offset_within_address_space section in
  exists start sz,
    kvm_align_section psize section = Some (start, sz) /\
    start = u64 (psize * ((off + psize - 1) / psize)) /\
    (off + psize - 1 < 2 ^ 64 ->
     start = psize * ((off + psize - 1) / psize) /\ off <= start < off + psize) /\
    (2 ^ 64 <= off + psize - 1 -> start = 0) /\
    (u64 (start - off) > size section -> sz = 0) /\
    (u64 (start - off) <= size section ->
     sz = psize * ((size section - u64 (start - off)) / psize)) /\
    start mod psize = 0 /\ sz mod psize = 0.
Proof.
  intros Hk Hoff Hsz psize off.
  assert (HP : 0 < psize) by (apply pow2_pos; lia).
  unfold kvm_align_section, int128_get64.
  destruct (decide (0 <= size section < 2 ^ 64)) as [_ | Hn];
    [| by destruct Hn]. simpl.
  fold off. fold psize.
  set (start := ROUND_UP off psize).
  assert (Hstart : start = psize * (u64 (off + psize - 1) / psize))
    by (apply ROUND_UP_pow2; lia).
  assert (Hwrapped : start = u64 (psize * ((off + psize - 1) / psize)))
    by (apply ROUND_UP_u64; [lia | done]).
  assert (Hmod : start mod psize = 0) by (rewrite Hstart; apply mul_div_mod_0; lia).
  assert (Hfit : off + psize - 1 < 2 ^ 64 ->
                 start = psize * ((off + psize - 1) / psize) /\
                 off <= start < off + psize).
  { intros Hlt. rewrite Hstart.
    rewrite (u64_small (off + psize - 1)) by (unfold in_u64; destruct Hoff; lia).
    pose proof (Z.mul_div_le (off + psize - 1) psize HP).
    pose proof (Z.mul_succ_div_gt (off + psize - 1) psize HP). lia. }
  assert (Hwrap : 2 ^ 64 <= off + psize - 1 -> start = 0).
  { intros Hge. rewrite Hstart.
    assert (HP63 : psize <= 2 ^ 63) by (apply pow2_le_mono; lia).
    assert (Hu : u64 (off + psize - 1) = off + psize - 1 - 2 ^ 64).
    { unfold u64. symmetry. apply (Z.mod_unique _ _ 1); destruct Hoff; lia. }
    rewrite Hu, Z.div_small by (destruct Hoff; lia). lia. }
  pose proof (u64_range (start - off)) as [Hd0 Hd].
  destruct (decide (u64 (start - off) > size section)) as [Hgt | Hle].
  - exists start, 0. repeat split; try done; try lia; by apply Hfit.
  - exists start, (psize * ((size section - u64 (start - off)) / psize)).
    assert (Hin : in_u64 (size section - u64 (start - off)))
      by (unfold in_u64; destruct Hsz; lia).
    repeat split; try done; try lia; try (by apply Hfit).
    + do 2 f_equal. unfold qemu_real_host_page_mask.
      rewrite (u64_small _ Hin). apply land_page_mask; [lia | done].
    + apply mul_div_mod_0; lia.
Qed.

(** A section at offset 0x1234 of 0x5000 bytes, with 4 KiB pages: the
    slot starts at 0x2000 and is 0x4000 bytes long. *)
Lemma kvm_align_section_rounds_witness :
  let ram_mr := mkMemoryRegion true false false false 0 0 0 in
  kvm_align_section (2 ^ 12) (mkSection ram_mr 0 4660 20480) = Some (8192, 16384).
Proof.
  intros ram_mr.
  destruct (kvm_align_section_rounds 12 (mkSection ram_mr 0 4660 20480))
    as (start & sz & Heq & _).
  - split; [discriminate | reflexivity].
  - split; [discriminate | reflexivity].
  - split; [discriminate | reflexivity].
  - rewrite Heq. vm_compute in Heq. symmetry. exact Heq.
Defined.

(** C8 as stated fails on a section that starts in the last, partial
    page of the address space: 50 bytes at [2 ^ 64 - 100] with 4 KiB
    pages.  The 64-bit rounding wraps around and the helper returns the
    start 0, which lies below the section's start and is not that start
    rounded up. *)
Lemma kvm_align_section_wraps_counterexample :
  let ram_mr := mkMemoryRegion true false false false 0 0 0 in
  let section := mkSection ram_mr 0 (2 ^ 64 - 100) 50 in
  let off := offset_within_address_space section in
  in_u64 off /\ in_u64 (size section) /\
  exists start sz,
    kvm_align_section (2 ^ 12) section = Some (start, sz) /\
    start < off /\
    start <> 2 ^ 12 * ((off + 2 ^ 12 - 1) / 2 ^ 12).
Proof.
  intros ram_mr section off.
  split; [split; [discriminate | reflexivity] |].
  split; [split; [discriminate | reflexivity] |].
  exists 0, 0. split; [by vm_compute |]. split; [reflexivity | discriminate].
Qed.

(** ** Bitmaps, bit by bit *)

Module BitmapFacts.
Import Bitmap.

Lemma testbit_bit_mask (j n : Z) :
  0 <= n -> Z.testbit (BIT_MASK j) n = bool_decide (n = j mod 64).
Proof.
  intros Hn. unfold BIT_MASK, BITS_PER_LONG.
  assert (0 <= j mod 64 < 64) by (apply Z.mod_pos_bound; lia).
  rewrite Z.shiftl_spec by lia.
  case_bool_decide as E.
  - subst. by rewrite Z.sub_diag.
  - destruct (n - j mod 64) as [|p|p] eqn:Ed; [lia | done | done].
Qed.

Lemma bit_index_inj (i j : Z) :
  Z.to_nat (BIT_WORD i) = Z.to_nat (BIT_WORD j) -> i mod 64 = j mod 64 ->
  0 <= i -> 0 <= j -> i = j.
Proof.
  unfold BIT_WORD, BITS_PER_LONG. intros Hw Hm Hi Hj.
  assert (0 <= i / 64) by (apply Z.div_pos; lia).
  assert (0 <= j / 64) by (apply Z.div_pos; lia).
  rewrite (Z.div_mod i 64), (Z.div_mod j 64) by lia. lia.
Qed.

Lemma word_at_alter (f : Z -> Z) (n : nat) (bm : list Z) (w : Z) :
  word_at (alter f n bm) w =
    if decide (n = Z.to_nat w /\ (n < length bm)%nat) then f (word_at bm w)
    else word_at bm w.
Proof.
  unfold word_at. rewrite list_lookup_alter.
  destruct (decide (n = Z.to_nat w)) as [-> | Hne].
  - destruct (bm !! Z.to_nat w) eqn:E; simpl.
    + apply lookup_lt_Some in E. rewrite decide_True; [done | lia].
    + apply lookup_ge_None in E. rewrite decide_False; [done | lia].
  - rewrite decide_False; [done | tauto].
Qed.

Lemma test_bit_clear_bit (i j : Z) (bm : list Z) :
  0 <= i -> 0 <= j ->
  test_bit i (clear_bit j bm) = if decide (i = j) then false else test_bit i bm.
Proof.
  intros Hi Hj. unfold test_bit, clear_bit. rewrite word_at_alter.
  assert (0 <= i mod BITS_PER_LONG < 64)
    by (unfold BITS_PER_LONG; apply Z.mod_pos_bound; lia).
  destruct (decide (Z.to_nat (BIT_WORD j) = Z.to_nat (BIT_WORD i) /\ _)) as [[Hw Hr] | Hn].
  - rewrite Z.ldiff_spec, testbit_bit_mask by lia.
    destruct (decide (i = j)) as [-> | Hne].
    + rewrite bool_decide_eq_true_2 by done. apply andb_false_r.
    + rewrite bool_decide_eq_false_2; [apply andb_true_r |].
      intros Hm. apply Hne. by apply bit_index_inj.
  - destruct (decide (i = j)) as [-> | Hne]; [| done].
    unfold word_at. rewrite lookup_ge_None_2; [apply Z.testbit_0_l | lia].
Qed.

Lemma test_bit_set_bit (i j : Z) (bm : list Z) :
  0 <= i -> 0 <= j -> j < 64 * Z.of_nat (length bm) ->
  test_bit i (set_bit j bm) = if decide (i = j) then true else test_bit i bm.
Proof.
  intros Hi Hj Hr. unfold test_bit, set_bit. rewrite word_at_alter.
  assert (0 <= i mod BITS_PER_LONG < 64)
    by (unfold BITS_PER_LONG; apply Z.mod_pos_bound; lia).
  assert (Hjr : (Z.to_nat (BIT_WORD j) < length bm)%nat).
  { unfold BIT_WORD, BITS_PER_LONG.
    assert (j / 64 < Z.of_nat (length bm)) by (apply Z.div_lt_upper_bound; lia).
    assert (0 <= j / 64) by (apply Z.div_pos; lia). lia. }
  destruct (decide (Z.to_nat (BIT_WORD j) = Z.to_nat (BIT_WORD i) /\ _)) as [[Hw _] | Hn].
  - rewrite Z.lor_spec, testbit_bit_mask by lia.
    destruct (decide (i = j)) as [-> | Hne].
    + rewrite bool_decide_eq_true_2 by done. apply orb_true_r.
    + rewrite bool_decide_eq_false_2; [apply orb_false_r |].
      intros Hm. apply Hne. by apply bit_index_inj.
  - destruct (decide (i = j)) as [-> | Hne]; [| done]. tauto.
Qed.

Lemma length_set_bit j bm : length (set_bit j bm) = length bm.
Proof. apply length_alter. Qed.

Lemma length_clear_bit j bm : length (clear_bit j bm) = length bm.
Proof. apply length_alter. Qed.

Lemma test_bit_clear_all (l : list Z) (i : Z) (bm : list Z) :
  0 <= i -> Forall (fun j => 0 <= j) l ->
  test_bit i (foldl (fun m j => clear_bit j m) bm l) =
    if decide (i ∈ l) then false else test_bit i bm.
Proof.
  intros Hi Hl. revert bm. induction Hl as [| j l Hj Hl IH]; intros bm.
  - destruct (decide (i ∈ [])) as [Hin | _]; [by apply elem_of_nil in Hin | done].
  - cbn [foldl]. rewrite IH, test_bit_clear_bit by done.
    destruct (decide (i ∈ l)) as [Hin | Hnin];
      destruct (decide (i ∈ j :: l)) as [Hin' | Hnin']; try done.
    + exfalso. apply Hnin'. by apply list_elem_of_further.
    + destruct (decide (i = j)) as [-> | Hne]; [done |].
      apply elem_of_cons in Hin' as [? | ?]; done.
    + destruct (decide (i = j)) as [-> | Hne]; [| done].
      exfalso. apply Hnin'. apply list_elem_of_here.
Qed.

(** [bitmap_clear] clears the bits of its range and no other. *)
Lemma test_bit_bitmap_clear (bm : list Z) (start nr i : Z) :
  0 <= start -> 0 <= i ->
  test_bit i (bitmap_clear bm start nr) =
    if decide (start <= i < start + nr) then false else test_bit i bm.
Proof.
  intros Hs Hi. unfold bitmap_clear. rewrite test_bit_clear_all.
  - destruct (decide (i ∈ seqZ start nr)) as [Hin | Hnin].
    + apply elem_of_seqZ in Hin. by rewrite decide_True.
    + rewrite decide_False; [done |]. by rewrite <- elem_of_seqZ.
  - done.
  - apply Forall_forall. intros j Hj%elem_of_seqZ. lia.
Qed.

Lemma length_bitmap_clear bm start nr :
  length (bitmap_clear bm start nr) = length bm.
Proof.
  unfold bitmap_clear. generalize (seqZ start nr) as l. intros l. revert bm.
  induction l as [| j l IH]; intros bm; simpl; [done |].
  by rewrite IH, length_clear_bit.
Qed.

End BitmapFacts.

(** ** Clearing a range of the dirty log *)

Import Bitmap BitmapFacts.

Lemma clear_log_align_pow2 (k : Z) :
  0 <= k <= 57 -> KVM_CLEAR_LOG_ALIGN (2 ^ k) = 2 ^ (k + 6).
Proof.
  intros Hk. unfold KVM_CLEAR_LOG_ALIGN, KVM_CLEAR_LOG_SHIFT.
  rewrite Z.shiftl_mul_pow2, <- Z.pow_add_r by lia.
  apply u64_small. unfold in_u64. split; [apply Z.pow_nonneg; lia |].
  apply Z.pow_lt_mono_r; lia.
Qed.

(** The split of a byte offset into the 64-page-aligned part handed to
    the kernel and the padding in front of the caller's range. *)
Lemma clear_log_split (k start : Z) :
  0 <= k <= 57 -> in_u64 start ->
  (Z.land start (KVM_CLEAR_LOG_MASK (2 ^ k)) / 2 ^ k) mod 64 = 0 /\
  0 <= Z.land start (KVM_CLEAR_LOG_MASK (2 ^ k)) / 2 ^ k <= start / 2 ^ k /\
  u64 (Z.land start (KVM_CLEAR_LOG_MASK (2 ^ k)) / 2 ^ k +
       u64 (start - Z.land start (KVM_CLEAR_LOG_MASK (2 ^ k))) / 2 ^ k)
    = start / 2 ^ k.
Proof.
  intros Hk Hs.
  assert (Hb : Z.land start (KVM_CLEAR_LOG_MASK (2 ^ k))
               = 2 ^ (k + 6) * (start / 2 ^ (k + 6))).
  { unfold KVM_CLEAR_LOG_MASK. rewrite clear_log_align_pow2 by done.
    apply land_page_mask; [lia | done]. }
  rewrite !Hb. clear Hb.
  assert (HA : 2 ^ (k + 6) = 2 ^ k * 64) by (rewrite Z.pow_add_r by lia; done).
  set (psize := 2 ^ k) in *.
  assert (HP : 0 < psize) by (apply pow2_pos; lia).
  destruct Hs as [Hs0 Hs].
  set (q := start / 2 ^ (k + 6)) in *.
  assert (Hq : 0 <= q) by (subst q; apply Z.div_pos; lia).
  assert (Hr : 0 <= start - 2 ^ (k + 6) * q < 2 ^ (k + 6)).
  { subst q. pose proof (Z.mod_pos_bound start (2 ^ (k + 6))) as Hm.
    rewrite Z.mod_eq in Hm by lia. lia. }
  assert (Hbs : 2 ^ (k + 6) * q / psize = 64 * q).
  { rewrite HA. rewrite <- Z.mul_assoc, Z.mul_comm, Z.div_mul by lia. lia. }
  assert (Hsp : start / psize = 64 * q + (start - 2 ^ (k + 6) * q) / psize).
  { replace start with ((64 * q) * psize + (start - 2 ^ (k + 6) * q)) at 1 by lia.
    rewrite Z.div_add_l by lia. done. }
  assert (0 <= (start - 2 ^ (k + 6) * q) / psize) by (apply Z.div_pos; lia).
  rewrite Hbs. split_and!.
  - rewrite Z.mul_comm. apply Z.mod_mul. lia.
  - lia.
  - lia.
  - rewrite (u64_small (start - _)) by (unfold in_u64; lia).
    rewrite <- Hsp. apply u64_small. unfold in_u64. split.
    + apply Z.div_pos; lia.
    + apply Z.div_lt_upper_bound; [lia |]. nia.
Qed.

(** C1, as amended: for every slot with an allocated dirty bitmap and
    every clear request [(start, size)] lying inside the slot,
    [kvm_log_clear_one_slot] succeeds whatever the kernel answers and, on
    the fast path as on the path through the temporary padded copy,
    leaves a cached bitmap in which exactly the bits
    [start / psize .. start / psize + size / psize - 1] are cleared and
    every other bit is as before.  The end of that range is
    [(start + size) / psize] whenever the sub-page parts of [start] and
    [size] add up to less than a page, in particular when either is a
    multiple of the page size. *)
Theorem kvm_log_clear_one_slot_clears_range
    (k : Z) (ioctl : kvm_clear_dirty_log -> Z) (mem : KVMSlot)
    (as_id_ start size_ : Z) (bm : list Z) :
  0 <= k <= 57 ->
  dirty_bmap mem = Some bm ->
  0 <= start -> 0 <= size_ -> start + size_ <= memory_size mem ->
  memory_size mem < 2 ^ 64 ->
  memory_size mem / 2 ^ k <= UINT32_MAX ->
  let psize := 2 ^ k in
  exists res bm',
    kvm_log_clear_one_slot psize ioctl mem as_id_ start size_ = Some res /\
    dirty_bmap (cr_slot res) = Some bm' /\
    length bm' = length bm /\
    (forall i, 0 <= i ->
       test_bit i bm' =
         if decide (start / psize <= i < start / psize + size_ / psize)
         then false else test_bit i bm) /\
    (start mod psize + size_ mod psize < psize ->
     start / psize + size_ / psize = (start + size_) / psize).
Proof.
  intros Hk Hbm Hs0 Hz0 Hin Hm64 Hm32 psize.
  assert (HP : 0 < psize) by (apply pow2_pos; lia).
  assert (Hsu : in_u64 start) by (unfold in_u64; lia).
  destruct (clear_log_split k start Hk Hsu) as (Halign & [Hbs0 Hbs] & Hsum).
  fold psize in Halign, Hbs0, Hbs, Hsum.
  unfold kvm_log_clear_one_slot. cbv zeta.
  set (bstart := Z.land start (KVM_CLEAR_LOG_MASK psize) / psize) in *.
  rewrite decide_False by (unfold BITS_PER_LONG; lia).
  rewrite Hbm. cbn [mbind option_bind].
  set (npages0 := u64 (Z.shiftl _ KVM_CLEAR_LOG_SHIFT)).
  set (npages := if decide (npages0 > _) then _ else npages0).
  assert (Hend : start / psize <= memory_size mem / psize)
    by (apply Z.div_le_mono; lia).
  assert (Hnp : npages <= UINT32_MAX).
  { assert (u64 (memory_size mem / psize - bstart) = memory_size mem / psize - bstart)
      as Hu by (apply u64_small; unfold in_u64; unfold UINT32_MAX in Hm32; fold psize in Hm32; lia).
    subst npages. fold psize in Hm32. destruct (decide _); lia. }
  rewrite (decide_False (P := npages > UINT32_MAX)) by lia.
  eexists _, _. split; [reflexivity |]. cbn [cr_slot set_dirty_bmap dirty_bmap].
  split; [reflexivity |]. rewrite Hsum. split_and!.
  - apply length_bitmap_clear.
  - intros i Hi. apply test_bit_bitmap_clear; [| done]. apply Z.div_pos; lia.
  - intros Hlt.
    pose proof (Z.mod_pos_bound start psize HP).
    pose proof (Z.mod_pos_bound size_ psize HP).
    pose proof (Z.div_mod start psize ltac:(lia)).
    pose proof (Z.div_mod size_ psize ltac:(lia)).
    apply (Z.div_unique_pos _ _ _ (start mod psize + size_ mod psize)); lia.
Qed.

(** Pages 3 to 72 of a 128-page slot, all dirty before: a request that is
    not 64-page aligned.  Pages 2 and 73 stay dirty, pages 3 and 72 are
    clean afterwards. *)
Lemma kvm_log_clear_one_slot_clears_range_witness :
  let all_dirty := [2 ^ 64 - 1; 2 ^ 64 - 1] in
  let mem := mkKVMSlot 0 (128 * 4096) 0 0 1 1 (Some all_dirty) 16 0 0 in
  exists res bm',
    kvm_log_clear_one_slot (2 ^ 12) (fun _ => 0) mem 0 (3 * 4096) (70 * 4096) = Some res /\
    dirty_bmap (cr_slot res) = Some bm' /\
    Bitmap.test_bit 2 bm' = true /\ Bitmap.test_bit 3 bm' = false /\
    Bitmap.test_bit 72 bm' = false /\ Bitmap.test_bit 73 bm' = true.
Proof.
  intros all_dirty mem.
  destruct (kvm_log_clear_one_slot_clears_range 12 (fun _ => 0) mem 0
              (3 * 4096) (70 * 4096) all_dirty)
    as (res & bm' & Hres & Hbm & _ & Hbits & _).
  - split; discriminate.
  - reflexivity.
  - discriminate.
  - discriminate.
  - discriminate.
  - reflexivity.
  - discriminate.
  - exists res, bm'. split; [exact Hres |]. split; [exact Hbm |].
    rewrite (Hbits 2), (Hbits 3), (Hbits 72), (Hbits 73) by discriminate.
    repeat split; reflexivity.
Defined.

(** C1 as stated fails on a request that is not page aligned: bytes
    [2048 .. 4095] of a two-page slot lie inside the slot, page 0 is in
    [start / psize, (start + size) / psize) = [0, 1), and its bit is
    still set after the call, because [size / psize] bits, none, are
    cleared. *)
Lemma kvm_log_clear_one_slot_unaligned_counterexample :
  let mem := mkKVMSlot 0 8192 0 0 1 1 (Some [3]) 8 0 0 in
  exists res bm',
    kvm_log_clear_one_slot 4096 (fun _ => 0) mem 0 2048 2048 = Some res /\
    dirty_bmap (cr_slot res) = Some bm' /\
    2048 + 2048 <= memory_size mem /\
    2048 / 4096 <= 0 < (2048 + 2048) / 4096 /\
    test_bit 0 bm' = true.
Proof. eexists _, _. vm_compute. repeat split; discriminate. Qed.

(** ** The dirty ring *)

Lemma is_dirtied_true g :
  dirty_gfn_is_dirtied g = true <-> gfn_flags g = KVM_DIRTY_GFN_F_DIRTY.
Proof. unfold dirty_gfn_is_dirtied. apply bool_decide_eq_true. Qed.

Lemma collected_not_dirtied g :
  dirty_gfn_is_dirtied (dirty_gfn_set_collected g) = false.
Proof. done. Qed.

(** Collecting a dirty entry leaves one dirty entry fewer. *)
Lemma dirty_count_collect ring idx cur :
  ring !! idx = Some cur -> dirty_gfn_is_dirtied cur = true ->
  S (dirty_count (<[idx := dirty_gfn_set_collected cur]> ring)) = dirty_count ring.
Proof.
  unfold dirty_count. revert idx.
  induction ring as [| g ring IH]; intros [| idx] Hl Hd; simplify_eq/=.
  - apply is_dirtied_true in Hd.
    rewrite !filter_cons. rewrite (decide_True _ _ Hd).
    rewrite decide_False; [done |]. cbn. discriminate.
  - rewrite !filter_cons. specialize (IH _ Hl Hd).
    destruct (decide (gfn_flags g = KVM_DIRTY_GFN_F_DIRTY)); simpl; lia.
Qed.

Lemma dirty_count_le ring : (dirty_count ring <= length ring)%nat.
Proof. unfold dirty_count. apply length_filter. Qed.

Lemma mark_page_ring_size psize s a b c :
  kvm_dirty_ring_size (kvm_dirty_ring_mark_page psize s a b c)
  = kvm_dirty_ring_size s.
Proof.
  unfold kvm_dirty_ring_mark_page.
  repeat (case_match || case_decide); done.
Qed.

Lemma u32_succ_add (f : Z) (n : nat) :
  u32 (u32 (f + 1) + Z.of_nat n) = u32 (f + Z.of_nat (S n)).
Proof.
  unfold u32. rewrite Zplus_mod_idemp_l. f_equal. lia.
Qed.

Lemma u32_small z : in_u32 z -> u32 z = z.
Proof. unfold in_u32, u32. intros. by apply Z.mod_small. Qed.

Lemma u32_range z : in_u32 (u32 z).
Proof. unfold in_u32, u32. apply Z.mod_pos_bound. lia. Qed.

Lemma reap_loop_runs (fuel : nat) (psize ring_size : Z) (st : reap_state) :
  0 < ring_size ->
  Z.of_nat (length (rp_ring st)) = ring_size ->
  in_u32 (rp_fetch st) -> in_u32 (rp_count st) ->
  (dirty_count (rp_ring st) < fuel)%nat ->
  exists st' n,
    kvm_dirty_ring_reap_loop fuel psize ring_size st = Some st' /\
    reap_run ring_size st st' n.
Proof.
  intros Hsz. revert st.
  induction fuel as [| fuel IH]; intros st Hlen Hf Hc Hfuel; [lia |].
  cbn [kvm_dirty_ring_reap_loop].
  assert (Hidx : (Z.to_nat (rp_fetch st mod ring_size) < length (rp_ring st))%nat).
  { pose proof (Z.mod_pos_bound (rp_fetch st) ring_size Hsz). lia. }
  destruct (lookup_lt_is_Some_2 _ _ Hidx) as [cur Hcur].
  rewrite Hcur. cbn [mbind option_bind].
  destruct (dirty_gfn_is_dirtied cur) eqn:Hd; cbn [negb].
  - set (st1 := mkReap _ _ _ _).
    destruct (IH st1) as (st' & n & Hrun & Hlen' & Hrs & Hn & Hfetch & Hcount
                          & Hstop & Hframe & Hdone).
    + subst st1. cbn [rp_ring]. by rewrite length_insert.
    + apply u32_range.
    + apply u32_range.
    + subst st1. cbn [rp_ring].
      pose proof (dirty_count_collect _ _ _ Hcur Hd). lia.
    + exists st', (S n). split; [done |].
      subst st1. cbn [rp_ring rp_kvm rp_fetch rp_count] in *.
      pose proof (dirty_count_collect _ _ _ Hcur Hd) as Hdc.
      rewrite length_insert in Hlen'. rewrite mark_page_ring_size in Hrs.
      rewrite u32_succ_add in Hfetch, Hcount.
      split_and!; try done; try lia.
      * intros idx g' Hg'. destruct (Hframe idx g' Hg') as (g & Hg & Hor).
        destruct (decide (idx = Z.to_nat (rp_fetch st mod ring_size))) as [-> | Hne].
        -- rewrite list_lookup_insert_eq in Hg by done. simplify_eq.
           exists cur. split; [done |]. right. by destruct Hor as [-> | ?].
        -- rewrite list_lookup_insert_ne in Hg by done. eauto.
      * intros [| j] Hj.
        -- rewrite Z.add_0_r, (u32_small _ Hf). unfold ring_index.
           assert (Hlt : (Z.to_nat (rp_fetch st mod ring_size) < length (rp_ring st'))%nat)
             by lia.
           destruct (lookup_lt_is_Some_2 _ _ Hlt) as [g' Hg'].
           exists g'. split; [done |].
           destruct (Hframe _ _ Hg') as (g & Hg & Hor).
           rewrite list_lookup_insert_eq in Hg by done. simplify_eq.
           by destruct Hor as [-> | ?].
        -- destruct (Hdone j ltac:(lia)) as (g & Hg & Hr).
           rewrite u32_succ_add in Hg. eauto.
  - exists st, 0%nat. split; [done |].
    unfold reap_run. rewrite !Z.add_0_r, (u32_small _ Hf), (u32_small _ Hc).
    split_and!; try done; try lia; eauto.
Qed.

(** C2: for every vCPU whose ring has the [kvm_dirty_ring_size] entries
    the accelerator announced, [kvm_dirty_ring_reap_one] returns; every
    entry it consumed has its flag word set to RESET, the fetch index is
    advanced past them, and a second call right after the first, with no
    kernel write in between, consumes nothing and changes nothing.  So
    only the first of two consecutive calls can return a nonzero count. *)
Theorem kvm_dirty_ring_reap_one_idempotent
    (psize : Z) (s : KVMState) (cpu : CPUState) (ring : list kvm_dirty_gfn) :
  kvm_dirty_gfns cpu = Some ring ->
  0 < kvm_dirty_ring_size s < 2 ^ 32 ->
  Z.of_nat (length ring) = kvm_dirty_ring_size s ->
  in_u32 (kvm_fetch_index cpu) ->
  exists count s' cpu' ring',
    kvm_dirty_ring_reap_one psize s cpu = Some (count, s', cpu') /\
    kvm_dirty_gfns cpu' = Some ring' /\
    0 <= count <= kvm_dirty_ring_size s /\
    kvm_fetch_index cpu' = u32 (kvm_fetch_index cpu + count) /\
    (forall j, 0 <= j < count ->
       exists g,
         ring' !! Z.to_nat (u32 (kvm_fetch_index cpu + j) mod kvm_dirty_ring_size s)
           = Some g /\
         gfn_flags g = KVM_DIRTY_GFN_F_RESET) /\
    kvm_dirty_ring_reap_one psize s' cpu' = Some (0, s', cpu').
Proof.
  intros Hring [Hsz Hsz32] Hlen Hf.
  unfold kvm_dirty_ring_reap_one at 1. rewrite Hring. cbn [mbind option_bind].
  rewrite decide_False by lia.
  destruct (reap_loop_runs (S (length ring)) psize (kvm_dirty_ring_size s)
              (mkReap s ring (kvm_fetch_index cpu) 0))
    as (st' & n & Hrun & Hlen' & Hrs & Hn & Hfetch & Hcount & Hstop & Hframe & Hdone);
    [done | done | done | split; cbn [rp_count]; [lia | reflexivity]
    | cbn [rp_ring]; pose proof (dirty_count_le ring); lia |].
  cbn [rp_ring rp_kvm rp_fetch rp_count] in *. rewrite Hrun. cbn [mbind option_bind].
  pose proof (dirty_count_le ring) as Hdc.
  assert (Hcn : rp_count st' = Z.of_nat n).
  { rewrite Hcount. apply u32_small. unfold in_u32. lia. }
  eexists _, _, _, _. split; [reflexivity |]. cbn.
  split; [reflexivity |]. rewrite Hcn. split_and!; try done; try lia.
  - intros j Hj. destruct (Hdone (Z.to_nat j) ltac:(lia)) as (g & Hg & Hr).
    rewrite Z2Nat.id in Hg by lia. eauto.
  - unfold kvm_dirty_ring_reap_one. cbn [kvm_dirty_gfns mbind option_bind].
    rewrite Hrs. rewrite decide_False by lia.
    destruct Hstop as (cur & Hcur & Hnd).
    cbn [kvm_dirty_ring_reap_loop rp_fetch rp_ring].
    unfold ring_index in Hcur. rewrite Hcur. cbn [mbind option_bind].
    rewrite Hnd. cbn. rewrite Z.add_0_r.
    do 3 f_equal. unfold u64. apply Z.mod_mod. lia.
Qed.

(** A ring of four entries, two of them dirty: the first call collects
    two pages, the second none. *)
Lemma kvm_dirty_ring_reap_one_idempotent_witness :
  let mem := mkKVMSlot 0 8192 0 0 1 1 (Some [0]) 8 0 0 in
  let s := mkKVMState 1 1 [mkKml 0 [mem]] 4 in
  let ring := [mkGfn 1 0 0; mkGfn 1 0 1; mkGfn 2 0 0; mkGfn 0 0 0] in
  let cpu := mkCPU 0 (Some ring) 0 0 in
  exists s' cpu',
    kvm_dirty_ring_reap_one 4096 s cpu = Some (2, s', cpu') /\
    kvm_dirty_ring_reap_one 4096 s' cpu' = Some (0, s', cpu').
Proof.
  intros mem s ring cpu.
  destruct (kvm_dirty_ring_reap_one_idempotent 4096 s cpu ring)
    as (count & s' & cpu' & ring' & Hfirst & _ & _ & _ & _ & Hsecond).
  - reflexivity.
  - split; reflexivity.
  - reflexivity.
  - split; [discriminate | reflexivity].
  - exists s', cpu'. split; [| exact Hsecond].
    rewrite Hfirst. vm_compute in Hfirst. injection Hfirst as <- _ _. reflexivity.
Defined.

(** ** The kernel slot-update protocol *)

Lemma set_region_finish_calls ret slot_ used calls :
  sr_calls (set_region_finish ret slot_ used calls) = calls.
Proof. unfold set_region_finish. repeat case_decide; done. Qed.

Lemma set_region_finish_ret ret slot_ used calls :
  sr_ret (set_region_finish ret slot_ used calls) = ret.
Proof. unfold set_region_finish. repeat case_decide; done. Qed.

(** C5, as amended: the two-step update (a slot-set call with size 0,
    then one with the final state) is performed exactly when the slot
    keeps a non-zero size, is not new, and its read-only flag differs
    from the one last sent; the second call is issued only when the
    first succeeds.  In every other case, a slot that shrinks to zero
    included, a single slot-set call with the final state is issued. *)
Theorem kvm_set_user_memory_region_calls
    (ioctl : kvm_userspace_memory_region -> Z) (kml_as_id : Z)
    (slot_ : KVMSlot) (new : bool) (used : Z) :
  let r := kvm_set_user_memory_region ioctl kml_as_id slot_ new used in
  let zero := slot_set_zero kml_as_id slot_ in
  let final := slot_set_final kml_as_id slot_ in
  let two_step := memory_size slot_ <> 0 /\ new = false /\ readonly_flipped slot_ in
  (two_step -> 0 <= ioctl zero -> sr_calls r = [zero; final] /\ sr_ret r = ioctl final) /\
  (two_step -> ioctl zero < 0 -> sr_calls r = [zero] /\ sr_ret r = ioctl zero) /\
  (~ two_step -> sr_calls r = [final] /\ sr_ret r = ioctl final).
Proof.
  intros r zero final two_step. subst r.
  unfold kvm_set_user_memory_region, with_memory_size. cbn [um_slot um_flags
    um_guest_phys_addr um_userspace_addr].
  fold (slot_set_zero kml_as_id slot_). fold (slot_set_final kml_as_id slot_).
  fold zero. fold final.
  destruct (bool_decide (memory_size slot_ <> 0) && negb new &&
            bool_decide (Z.land (Z.lxor (flags slot_) (old_flags slot_))
                                KVM_MEM_READONLY <> 0)) eqn:Hc.
  - apply andb_true_iff in Hc as [Hc Hro]. apply andb_true_iff in Hc as [Hsz Hnew].
    apply bool_decide_eq_true in Hsz, Hro. apply negb_true_iff in Hnew.
    split_and!.
    + intros _ Hok. rewrite decide_False by lia.
      by rewrite set_region_finish_calls, set_region_finish_ret.
    + intros _ Hfail. rewrite decide_True by lia.
      by rewrite set_region_finish_calls, set_region_finish_ret.
    + intros Hn. destruct Hn. done.
  - rewrite set_region_finish_calls, set_region_finish_ret.
    split_and!; try done.
    + intros (Hsz & Hnew & Hro).
      rewrite (bool_decide_eq_true_2 _ Hsz), (bool_decide_eq_true_2 _ Hro), Hnew in Hc.
      done.
    + intros (Hsz & Hnew & Hro).
      rewrite (bool_decide_eq_true_2 _ Hsz), (bool_decide_eq_true_2 _ Hro), Hnew in Hc.
      done.
Qed.

(** A 4 KiB slot that turns read-only: two calls when the kernel accepts
    the first, the first alone when it refuses it; a slot that is
    removed: one call. *)
Lemma kvm_set_user_memory_region_calls_witness :
  let turned_ro := mkKVMSlot 4096 4096 0 3 KVM_MEM_READONLY 0 None 0 0 0 in
  let removed := mkKVMSlot 4096 0 0 3 0 KVM_MEM_READONLY None 0 0 0 in
  sr_calls (kvm_set_user_memory_region (fun _ => 0) 0 turned_ro false 0)
    = [slot_set_zero 0 turned_ro; slot_set_final 0 turned_ro] /\
  sr_calls (kvm_set_user_memory_region (fun _ => -1) 0 turned_ro false 0)
    = [slot_set_zero 0 turned_ro] /\
  sr_calls (kvm_set_user_memory_region (fun _ => 0) 0 removed false 0)
    = [slot_set_final 0 removed].
Proof.
  intros turned_ro removed. split_and!.
  - apply (kvm_set_user_memory_region_calls (fun _ => 0) 0 turned_ro false 0).
    + split_and!; [discriminate | reflexivity | discriminate].
    + discriminate.
  - apply (kvm_set_user_memory_region_calls (fun _ => -1) 0 turned_ro false 0).
    + split_and!; [discriminate | reflexivity | discriminate].
    + reflexivity.
  - apply (kvm_set_user_memory_region_calls (fun _ => 0) 0 removed false 0).
    intros (Hsz & _). by apply Hsz.
Defined.

(** C5 as stated fails in both directions.  A read-only slot that is
    removed shrinks to zero with only its read-only flag differing from
    the previous flags, and gets a single call; a slot that keeps its
    4 KiB and turns read-only gets the two-step update. *)
Lemma kvm_set_user_memory_region_counterexample :
  let removed := mkKVMSlot 4096 0 0 3 0 KVM_MEM_READONLY None 0 0 0 in
  let turned_ro := mkKVMSlot 4096 4096 0 3 KVM_MEM_READONLY 0 None 0 0 0 in
  (memory_size removed = 0 /\
   Z.lxor (flags removed) (old_flags removed) = KVM_MEM_READONLY /\
   sr_calls (kvm_set_user_memory_region (fun _ => 0) 0 removed false 0)
     = [slot_set_final 0 removed]) /\
  (memory_size turned_ro <> 0 /\
   sr_calls (kvm_set_user_memory_region (fun _ => 0) 0 turned_ro false 0)
     = [slot_set_zero 0 turned_ro; slot_set_final 0 turned_ro]).
Proof. vm_compute. repeat split; discriminate. Qed.

(** ** Syncing the dirty bitmap *)

(** A section that is already page aligned is its own alignment. *)
Lemma kvm_align_section_aligned (k : Z) (section : MemoryRegionSection) :
  0 <= k < 64 ->
  in_u64 (offset_within_address_space section) ->
  in_u64 (size section) ->
  offset_within_address_space section mod 2 ^ k = 0 ->
  size section mod 2 ^ k = 0 ->
  kvm_align_section (2 ^ k) section
  = Some (offset_within_address_space section, size section).
Proof.
  intros Hk Hoff Hsz Ho Hs.
  assert (HP : 0 < 2 ^ k) by (apply pow2_pos; lia).
  unfold kvm_align_section, int128_get64.
  rewrite decide_True by exact Hsz. cbn [mbind option_bind].
  assert (Hup : ROUND_UP (offset_within_address_space section) (2 ^ k)
                = offset_within_address_space section).
  { rewrite ROUND_UP_u64 by done.
    apply Z.mod_divide in Ho as [a Ha]; [| lia]. rewrite Ha.
    replace (a * 2 ^ k + 2 ^ k - 1) with (a * 2 ^ k + (2 ^ k - 1)) by lia.
    rewrite Z.div_add_l, Z.div_small, Z.add_0_r, (Z.mul_comm (2 ^ k)) by lia.
    rewrite <- Ha. by apply u64_small. }
  rewrite Hup, Z.sub_diag. change (u64 0) with 0.
  destruct Hsz as [Hs0 Hs64]. rewrite decide_False by lia.
  do 2 f_equal. rewrite Z.sub_0_r. unfold qemu_real_host_page_mask.
  rewrite u64_small by done. rewrite land_page_mask by done.
  apply Z.mod_divide in Hs as [b Hb]; [| lia].
  rewrite Hb, Z.div_mul by lia. lia.
Qed.

Lemma get_dirty_log_result (ioctl : get_dirty_log_oracle) (mem : KVMSlot) :
  let ret := fst (ioctl (Z.lor (slot mem) (Z.shiftl (as_id mem) 16)) (dirty_bmap mem)) in
  let buf := snd (ioctl (Z.lor (slot mem) (Z.shiftl (as_id mem) 16)) (dirty_bmap mem)) in
  kvm_slot_get_dirty_log ioctl mem
  = (bool_decide (ret = 0 \/ ret = - ENOENT),
     set_dirty_bmap buf (dirty_bmap_size mem) mem).
Proof.
  intros ret buf. subst ret buf. unfold kvm_slot_get_dirty_log.
  destruct (ioctl _ _) as [ret buf]. cbn [fst snd]. f_equal.
  destruct (decide (ret = - ENOENT)) as [-> | Hne].
  - rewrite bool_decide_eq_true_2 by done. by rewrite bool_decide_eq_true_2 by auto.
  - apply bool_decide_ext. tauto.
Qed.

(** C9, as amended: for a page-aligned section that is exactly one
    slot, a dirty-log fetch that fails with [-ENOENT] is reported as a
    successful sync, and so is merged like one: the slot's bitmap, as the
    kernel call left it, goes into the global dirty state.  Every other
    non-zero kernel result is reported as a failed sync and leaves the
    global dirty state as it was. *)
Theorem kvm_physical_sync_dirty_bitmap_enoent
    (k : Z) (kvm_max_slot_size nr_slots_ : Z) (ioctl : get_dirty_log_oracle)
    (section : MemoryRegionSection) (st : sync_state) (i : nat) (mem : KVMSlot) :
  0 <= k < 64 ->
  in_u64 (offset_within_address_space section) ->
  offset_within_address_space section mod 2 ^ k = 0 ->
  size section mod 2 ^ k = 0 ->
  0 < size section < 2 ^ 64 ->
  size section <= kvm_max_slot_size ->
  kvm_lookup_matching_slot nr_slots_ (sy_slots st)
    (offset_within_address_space section) (size section) = Some (i, mem) ->
  let psize := 2 ^ k in
  let reply := ioctl (Z.lor (slot mem) (Z.shiftl (as_id mem) 16)) (dirty_bmap mem) in
  let mem' := set_dirty_bmap (snd reply) (dirty_bmap_size mem) mem in
  (fst reply = - ENOENT ->
   fst (kvm_slot_get_dirty_log ioctl mem) = true /\
   forall bm, snd reply = Some bm ->
     kvm_physical_sync_dirty_bitmap psize kvm_max_slot_size nr_slots_ ioctl section st
     = Some (mkSync (<[i := mem']> (sy_slots st))
               (cpu_physical_memory_set_dirty_lebitmap psize bm (ram_start_offset mem)
                  (memory_size mem / psize) (sy_dirty st)))) /\
  (fst reply <> 0 -> fst reply <> - ENOENT ->
   fst (kvm_slot_get_dirty_log ioctl mem) = false /\
   kvm_physical_sync_dirty_bitmap psize kvm_max_slot_size nr_slots_ ioctl section st
   = Some (mkSync (<[i := mem']> (sy_slots st)) (sy_dirty st))).
Proof.
  intros Hk Hoff Hoa Hsa [Hs0 Hs64] Hmax Hlook psize reply mem'.
  assert (Hal : kvm_align_section psize section
                = Some (offset_within_address_space section, size section))
    by (apply kvm_align_section_aligned; try done; unfold in_u64; lia).
  unfold kvm_physical_sync_dirty_bitmap. rewrite Hal. cbn [mbind option_bind].
  destruct (Z.to_nat (size section)) as [| fuel] eqn:Hfuel; [lia |].
  cbn [kvm_physical_sync_dirty_bitmap_loop].
  rewrite decide_False by lia.
  assert (Hmin : MIN kvm_max_slot_size (size section) = size section).
  { unfold MIN. case_decide; lia. }
  rewrite Hmin, Hlook. rewrite get_dirty_log_result. fold reply. fold mem'.
  rewrite Z.sub_diag. change (u64 0) with 0.
  assert (Hend : forall f a st', kvm_physical_sync_dirty_bitmap_loop f psize
                   kvm_max_slot_size nr_slots_ ioctl a 0 st' = Some st').
  { intros [| f] a st'; done. }
  split.
  - intros He. rewrite bool_decide_eq_true_2 by auto. split; [done |].
    intros bm Hbm. unfold kvm_slot_sync_dirty_pages.
    subst mem'. cbn [dirty_bmap set_dirty_bmap]. rewrite Hbm.
    cbn [mbind option_bind fmap option_fmap option_map].
    rewrite Hend. by cbn.
  - intros Hn0 Hne. rewrite bool_decide_eq_false_2 by tauto. split; [done |].
    cbn [mbind option_bind]. by rewrite Hend.
Qed.

(** One dirty page: the kernel has no bitmap for the slot (ENOENT) and
    the cached bit is merged; the kernel fails with another error (EINVAL)
    and nothing is merged. *)
Lemma kvm_physical_sync_dirty_bitmap_enoent_witness :
  let ram_mr := mkMemoryRegion true false false false 1 0 0 in
  let section := mkSection ram_mr 0 4096 4096 in
  let mem := mkKVMSlot 4096 4096 0 0 1 1 (Some [1]) 8 0 8192 in
  let st := mkSync [mem] [] in
  kvm_physical_sync_dirty_bitmap (2 ^ 12) (2 ^ 64 - 1) 1
    (fun _ buf => (- ENOENT, buf)) section st = Some (mkSync [mem] [8192]) /\
  kvm_physical_sync_dirty_bitmap (2 ^ 12) (2 ^ 64 - 1) 1
    (fun _ buf => (- EINVAL, buf)) section st = Some (mkSync [mem] []).
Proof.
  intros ram_mr section mem st.
  assert (Hk : 0 <= 12 < 64) by (split; [discriminate | reflexivity]).
  assert (Hoff : in_u64 (offset_within_address_space section))
    by (split; [discriminate | reflexivity]).
  assert (Hsz : 0 < size section < 2 ^ 64) by (split; reflexivity).
  assert (Hmax : size section <= 2 ^ 64 - 1) by discriminate.
  split.
  - destruct (kvm_physical_sync_dirty_bitmap_enoent 12 (2 ^ 64 - 1) 1
                (fun _ buf => (- ENOENT, buf)) section st 0%nat mem
                Hk Hoff eq_refl eq_refl Hsz Hmax eq_refl) as [Henoent _].
    destruct (Henoent eq_refl) as [_ Hsync]. exact (Hsync [1] eq_refl).
  - destruct (kvm_physical_sync_dirty_bitmap_enoent 12 (2 ^ 64 - 1) 1
                (fun _ buf => (- EINVAL, buf)) section st 0%nat mem
                Hk Hoff eq_refl eq_refl Hsz Hmax eq_refl) as [_ Hfail].
    destruct Hfail as [_ Hsync]; [discriminate | discriminate |]. exact Hsync.
Defined.

(** C9 as stated fails on [-ENOENT]: the sync is reported successful and
    the page whose bit is set in the slot's cached bitmap is merged into
    the global dirty state, which was empty. *)
Lemma kvm_physical_sync_dirty_bitmap_counterexample :
  let ram_mr := mkMemoryRegion true false false false 1 0 0 in
  let section := mkSection ram_mr 0 4096 4096 in
  let mem := mkKVMSlot 4096 4096 0 0 1 1 (Some [1]) 8 0 8192 in
  let enoent : get_dirty_log_oracle := fun _ buf => (- ENOENT, buf) in
  fst (kvm_slot_get_dirty_log enoent mem) = true /\
  sy_dirty <$> kvm_physical_sync_dirty_bitmap 4096 (2 ^ 64 - 1) 1 enoent section
                 (mkSync [mem] [])
  = Some [8192].
Proof. vm_compute. split; reflexivity. Qed.

(** ** The hypercall dispatcher *)

(** C10: the dispatcher answers 0 for every opcode outside
    {13, ..., 19, 23}; for opcode 23 it answers 0 whatever
    [create_vdpa_and_hotplug] returned.  In both cases the registry is
    what the deferred deletion of a memory backend left. *)
Theorem handle_hypercall_zero
    (host : Host) (psize : Z) (mirror : MemslotMirror) (r : Registry)
    (nr a0 a1 a2 a3 : Z) :
  (~ registry_opcode nr -> nr <> 23 ->
   handle_hypercall host psize mirror r nr a0 a1 a2 a3
   = (0, reap_memory_backend host r)) /\
  (nr = 23 ->
   forall helper_result,
     create_vdpa_and_hotplug host (to_uint a0) (to_uint a1) = helper_result ->
     handle_hypercall host psize mirror r nr a0 a1 a2 a3
     = (0, reap_memory_backend host r)).
Proof.
  unfold registry_opcode, handle_hypercall. split.
  - intros Hn H23. repeat (rewrite decide_False by tauto). done.
  - intros -> res _. repeat (rewrite decide_False by discriminate).
    by rewrite decide_True.
Qed.

(** Opcode 99 is unknown and opcode 23 reaches a hotplug helper that
    fails with -1: the guest reads 0 in both cases. *)
Lemma handle_hypercall_zero_witness :
  handle_hypercall failing_host 4096 mirror_init registry_init 99 0 0 0 0
    = (0, registry_init) /\
  create_vdpa_and_hotplug failing_host (to_uint 1) (to_uint 0) = -1 /\
  handle_hypercall failing_host 4096 mirror_init registry_init 23 1 0 0 0
    = (0, registry_init).
Proof.
  destruct (handle_hypercall_zero failing_host 4096 mirror_init registry_init
              99 0 0 0 0) as [Hunknown _].
  destruct (handle_hypercall_zero failing_host 4096 mirror_init registry_init
              23 1 0 0 0) as [_ Hhotplug].
  split_and!.
  - apply Hunknown; [| discriminate].
    unfold registry_opcode. intros H. repeat destruct H as [H | H]; discriminate.
  - reflexivity.
  - exact (Hhotplug eq_refl (-1) eq_refl).
Defined.

(** ** The run loop *)

Lemma pre_run_no_request st :
  filter (fun e => is_transition_request e = true) (pre_run_events st) = [].
Proof. unfold pre_run_events. by destruct (vcpu_dirty st), (exit_request st). Qed.

Lemma kvm_cpu_exec_loop_through host psize mirror self before replies st mid :
  run_through host psize mirror self before st = Some mid ->
  kvm_cpu_exec_loop host psize mirror self (before ++ replies) st
  = kvm_cpu_exec_loop host psize mirror self replies mid.
Proof.
  revert st. induction before as [| reply before IH]; intros st Hrun.
  - by injection Hrun as ->.
  - cbn [run_through] in Hrun. cbn [app kvm_cpu_exec_loop].
    destruct (kvm_cpu_exec_iteration _ _ _ _ _ _) as [[ret st'] |]; [| done].
    cbn [mbind option_bind]. case_decide; [| done]. by apply IH.
Qed.

(** C7, as amended: in every execution of the run loop, after any
    number of exits that let the loop go on, a run call that succeeds
    with exit reason "shutdown" makes the loop request exactly one VM
    transition, and it is a reset ([qemu_system_reset_request] with cause
    guest-reset); the dispatch loop then ends with status
    [EXCP_INTERRUPT] without reading another answer of the kernel.  The
    shutdown request belongs to the system-event exit of type shutdown,
    which ends the loop in the same way. *)
Theorem kvm_cpu_exec_shutdown
    (host : Host) (psize : Z) (mirror : MemslotMirror) (self : nat)
    (before : list run_reply) (reply : run_reply) (rest : list run_reply)
    (st mid : RunState) :
  run_through host psize mirror self before st = Some mid ->
  0 <= run_ret reply ->
  filter (fun e => is_transition_request e = true) (pre_run_events mid) = [] /\
  (exit_reason reply = KVM_EXIT_SHUTDOWN ->
   exists st',
     kvm_cpu_exec host psize mirror self false (before ++ reply :: rest) st
     = Some (EXCP_INTERRUPT, st', rest) /\
     run_events st' = run_events mid ++ pre_run_events mid
                      ++ [EvResetRequest SHUTDOWN_CAUSE_GUEST_RESET]) /\
  (exit_reason reply = KVM_EXIT_SYSTEM_EVENT KVM_SYSTEM_EVENT_SHUTDOWN ->
   exists st',
     kvm_cpu_exec host psize mirror self false (before ++ reply :: rest) st
     = Some (EXCP_INTERRUPT, st', rest) /\
     run_events st' = run_events mid ++ pre_run_events mid
                      ++ [EvShutdownRequest SHUTDOWN_CAUSE_GUEST_SHUTDOWN]).
Proof.
  intros Hbefore Hret. split; [apply pre_run_no_request |].
  unfold kvm_cpu_exec, pre_run_events.
  rewrite (kvm_cpu_exec_loop_through _ _ _ _ _ _ _ _ Hbefore).
  cbn [kvm_cpu_exec_loop]. unfold kvm_cpu_exec_iteration.
  rewrite decide_False by lia.
  unfold kvm_cpu_exec_dispatch.
  destruct mid as [d e reg kvm cpus ev].
  assert (EXCP_INTERRUPT <> 0) by done.
  assert (~ EXCP_INTERRUPT < 0) by done.
  split; intros ->; destruct d, e; cbn -[decide];
    repeat (case_decide; try done; cbn -[decide]);
    eexists; (split; [reflexivity |]); cbn; by rewrite <- ?app_assoc.
Qed.

(** A vCPU whose registers are stale handles a port I/O exit and then
    runs into a shutdown exit; another one runs into a system event of
    type shutdown.  An I/O exit is waiting behind each.  Both leave the
    loop with [EXCP_INTERRUPT] and the last I/O exit unread. *)
Lemma kvm_cpu_exec_shutdown_witness :
  let stale := with_vcpu_dirty true run_init in
  (exists st',
     kvm_cpu_exec failing_host 4096 mirror_init 0 false
       [exit_with KVM_EXIT_IO; exit_with KVM_EXIT_SHUTDOWN; exit_with KVM_EXIT_IO] stale
     = Some (EXCP_INTERRUPT, st', [exit_with KVM_EXIT_IO]) /\
     run_events st'
     = [EvPutRegisters; EvHandleIO; EvResetRequest SHUTDOWN_CAUSE_GUEST_RESET]) /\
  (exists st',
     kvm_cpu_exec failing_host 4096 mirror_init 0 false
       [exit_with (KVM_EXIT_SYSTEM_EVENT KVM_SYSTEM_EVENT_SHUTDOWN);
        exit_with KVM_EXIT_IO] run_init
     = Some (EXCP_INTERRUPT, st', [exit_with KVM_EXIT_IO]) /\
     run_events st' = [EvShutdownRequest SHUTDOWN_CAUSE_GUEST_SHUTDOWN]).
Proof.
  intros stale. split.
  - destruct (kvm_cpu_exec_shutdown failing_host 4096 mirror_init 0
                [exit_with KVM_EXIT_IO] (exit_with KVM_EXIT_SHUTDOWN)
                [exit_with KVM_EXIT_IO] stale
                (emit EvHandleIO (with_vcpu_dirty false (emit EvPutRegisters stale))))
      as (_ & Hshutdown & _); [reflexivity | discriminate |].
    exact (Hshutdown eq_refl).
  - destruct (kvm_cpu_exec_shutdown failing_host 4096 mirror_init 0 []
                (exit_with (KVM_EXIT_SYSTEM_EVENT KVM_SYSTEM_EVENT_SHUTDOWN))
                [exit_with KVM_EXIT_IO] run_init run_init)
      as (_ & _ & Hevent); [reflexivity | discriminate |].
    exact (Hevent eq_refl).
Defined.

(** C7 as stated fails on the kind of transition: the exit reason
    "shutdown" makes the loop request a reset, and no shutdown request
    is among the events of the run. *)
Lemma kvm_cpu_exec_shutdown_counterexample :
  exists st',
    kvm_cpu_exec failing_host 4096 mirror_init 0 false
      [exit_with KVM_EXIT_SHUTDOWN] run_init
    = Some (EXCP_INTERRUPT, st', []) /\
    run_events st' = [EvResetRequest SHUTDOWN_CAUSE_GUEST_RESET] /\
    filter (fun e => is_shutdown_request e = true) (run_events st') = [].
Proof. eexists. split; [reflexivity |]. split; reflexivity. Qed.

(** ** The registry: program slots *)

(** The scan of [allocate_hyperupcall_prog_slot] never looks at the
    object it is called for. *)
Lemma allocate_hyperupcall_prog_slot_any_object pool h h' :
  allocate_hyperupcall_prog_slot pool h = allocate_hyperupcall_prog_slot pool h'.
Proof. reflexivity. Qed.

(** What it returns is free in the first object of the pool. *)
Lemma allocate_hyperupcall_prog_slot_head pool h i :
  allocate_hyperupcall_prog_slot pool h = i -> 0 <= i ->
  progs (pool_head pool) !! Z.to_nat i = Some None.
Proof.
  unfold allocate_hyperupcall_prog_slot, first_null. intros Hi Hnn.
  destruct (list_find _ _) as [[n x] |] eqn:Hfind; [| lia].
  apply list_find_Some in Hfind as (Hl & -> & _).
  rewrite lookup_take_Some in Hl. destruct Hl as [Hl _].
  subst i. by rewrite Nat2Z.id.
Qed.

(** C4 fails on the code: with two modules loaded, a first link request
    on the module in slot 1 gets program slot 0, and the program handle
    of slot 0 of that module is present afterwards; the allocation for
    the same module still returns 0, and a second link request
    overwrites the slot.  The scan runs over the program handles of the
    module in slot 0, whatever module the request names. *)
Theorem allocate_hyperupcall_prog_slot_reuses_slot :
  exists r1 r2 h1,
    link_hyperupcall working_host mirror_init two_modules 1 0
      HYPERUPCALL_MAJORID_XDP 0 = (0, r1) /\
    hyperupcalls r1 !! 1%nat = Some h1 /\
    progs h1 !! 0%nat = Some (Some (mkProg "probe" 7)) /\
    allocate_hyperupcall_prog_slot (hyperupcalls r1) h1 = 0 /\
    link_hyperupcall working_host mirror_init r1 1 0
      HYPERUPCALL_MAJORID_DIRECT_EXE 0 = (0, r2) /\
    major_id_in r1 1 0 = Some HYPERUPCALL_MAJORID_XDP /\
    major_id_in r2 1 0 = Some HYPERUPCALL_MAJORID_DIRECT_EXE /\
    program_in r2 0 0 = None.
Proof. eexists _, _, _. vm_compute. repeat split; reflexivity. Qed.

(** ** The registry: the export of the slot table *)

(** The copy loop writes no entry at or beyond its bound. *)
Lemma export_copy_beyond (n : Z) (local shared : list Z) (i : nat) :
  n <= Z.of_nat i -> export_copy n local shared !! i = shared !! i.
Proof.
  intros Hi. unfold export_copy.
  assert (Hl : Forall (fun j => 0 <= j < Z.of_nat i) (seqZ 0 n)).
  { apply Forall_forall. intros j Hj%elem_of_seqZ. lia. }
  revert shared. induction Hl as [| j l Hj _ IH]; intros shared; [done |].
  cbn [foldl]. rewrite IH. apply list_lookup_insert_ne. lia.
Qed.

(** After a successful slot-set call, [used_memslots] is the highest
    slot index seen so far, not a count of slots. *)
Lemma used_memslots_is_highest_index ret slot_ used calls :
  0 <= ret -> slot slot_ < HYPERUPCALL_MAX_N_MEMSLOTS ->
  sr_used_memslots (set_region_finish ret slot_ used calls) = Z.max used (slot slot_).
Proof.
  intros Hret Hs. unfold set_region_finish.
  rewrite decide_False by lia. rewrite decide_False by lia.
  cbn. case_decide; lia.
Qed.

(** C3 fails on the code.  One page of RAM is added to address space 0
    and lands in slot 0; the page-fault program is then linked with
    minor id 0, the export runs and succeeds, and the shared tables still
    show zero pages for slot 0: [used_memslots] is 0, the highest slot
    index, and the copy loop stops below it.  With a second region in
    slot 1 the export reaches slot 0 and leaves slot 1 out. *)
Theorem export_memslots_hyperupcall_leaves_out_last_slot :
  exists one two r1 r2,
    kvm_set_phys_mem accepting_kernel 0 (ram_section 4096 1 1048576) true
      four_free_slots = Some one /\
    (memory_size <$> listener_slots (acc_kvm one) 0 !! 0%nat) = Some 4096 /\
    memslot_npages_local (acc_mirror one) !! 0%nat = Some 1 /\
    used_memslots (acc_mirror one) = 0 /\
    link_hyperupcall working_host (acc_mirror one) two_modules 0 0
      HYPERUPCALL_MAJORID_PAGEFAULT 0 = (0, r1) /\
    table_in r1 0 "l0_memslots_npages" = Some [0; 0; 0; 0] /\
    kvm_set_phys_mem accepting_kernel 0 (ram_section 65536 2 2097152) true
      one = Some two /\
    (memory_size <$> listener_slots (acc_kvm two) 0 !! 1%nat) = Some 8192 /\
    used_memslots (acc_mirror two) = 1 /\
    link_hyperupcall working_host (acc_mirror two) two_modules 0 0
      HYPERUPCALL_MAJORID_PAGEFAULT 0 = (0, r2) /\
    table_in r2 0 "l0_memslots_npages" = Some [1; 0; 0; 0] /\
    table_in r2 0 "l0_memslots_base_gfns" = Some [1; 0; 0; 0] /\
    table_in r2 0 "l0_memslots_userspace_addr" = Some [1048576; 0; 0; 0].
Proof. eexists _, _, _, _. vm_compute. repeat split; reflexivity. Qed.

(** ** The GSI allocator and the route table *)

Module RoutingFacts.
Import Bitmap BitmapFacts.

(** Setting a bit never clears one, and clearing one never sets one. *)
Lemma test_bit_set_bit_mono (i j : Z) (bm : list Z) :
  test_bit i bm = true -> test_bit i (set_bit j bm) = true.
Proof.
  unfold test_bit, set_bit. rewrite word_at_alter. intros Hi.
  case_decide; [| done]. rewrite Z.lor_spec, Hi. done.
Qed.

Lemma test_bit_clear_bit_mono (i j : Z) (bm : list Z) :
  test_bit i bm = false -> test_bit i (clear_bit j bm) = false.
Proof.
  unfold test_bit, clear_bit. rewrite word_at_alter. intros Hi.
  case_decide; [| done]. rewrite Z.ldiff_spec, Hi. done.
Qed.

Lemma bitmap_new_covers (n : Z) :
  0 < n -> n <= 64 * Z.of_nat (length (bitmap_new n)).
Proof.
  intros Hn. unfold bitmap_new, BITS_TO_LONGS, BITS_PER_LONG.
  rewrite length_replicate.
  assert (0 <= (n + 64 - 1) / 64) by (apply Z.div_pos; lia).
  rewrite Z2Nat.id by done.
  pose proof (Z.mul_succ_div_gt (n + 64 - 1) 64 ltac:(lia)). lia.
Qed.

(** [find_first_zero_bit] returns the lowest clear bit below [size], or
    [size] when there is none. *)
Lemma find_first_zero_bit_spec (bm : list Z) (size : Z) :
  let v := find_first_zero_bit bm size in
  (forall g, 0 <= g < v -> test_bit g bm = true) /\
  (v = size \/ (0 <= v < size /\ test_bit v bm = false)).
Proof.
  unfold find_first_zero_bit.
  destruct (list_find _ _) as [[n v] |] eqn:Hfind.
  - apply list_find_Some in Hfind as (Hl & Hv & Hlow).
    apply lookup_seqZ in Hl as [-> Hn]. split.
    + intros g Hg. specialize (Hlow (Z.to_nat g) g).
      destruct (test_bit g bm) eqn:E; [done |]. exfalso. apply Hlow; [| lia | done].
      apply lookup_seqZ. lia.
    + right. split; [lia | done].
  - apply list_find_None in Hfind. split; [| by left].
    intros g Hg. rewrite Forall_forall in Hfind.
    specialize (Hfind g). destruct (test_bit g bm); [done |].
    exfalso. apply Hfind; [| done]. apply elem_of_seqZ. lia.
Qed.

Lemma gsi_unique_NoDup routes : gsi_unique routes <-> NoDup (gsi <$> routes).
Proof.
  rewrite NoDup_alt. unfold gsi_unique. setoid_rewrite list_lookup_fmap. split.
  - intros Hu j1 j2 g H1 H2.
    destruct (routes !! j1) as [e1 |] eqn:E1; [| done].
    destruct (routes !! j2) as [e2 |] eqn:E2; [| done].
    simplify_eq/=. eapply Hu; eauto.
  - intros Hn j1 j2 e1 e2 H1 H2 Hg. apply (Hn j1 j2 (gsi e1)).
    + by rewrite H1.
    + rewrite H2. cbn. by rewrite Hg.
Qed.

(** The loop leaves a table without the GSI as it is. *)
Lemma release_loop_absent (fuel i : nat) (v : Z) routes :
  Forall (fun e => gsi e <> v) routes -> release_loop fuel i v routes = routes.
Proof.
  intros Hall. revert i. induction fuel as [| fuel IH]; intros i; [done |].
  cbn [release_loop]. destruct (routes !! i) as [e |] eqn:E; [| done].
  rewrite decide_False; [apply IH |].
  eapply Forall_forall in Hall; [exact Hall |]. by eapply list_elem_of_lookup_2.
Qed.

Section swap_remove.
Context (routes : list kvm_irq_routing_entry) (i : nat) (v : Z)
        (e last_ : kvm_irq_routing_entry).
Hypothesis Hunique : gsi_unique routes.
Hypothesis He : routes !! i = Some e.
Hypothesis Hv : gsi e = v.
Hypothesis Hlast : routes !! pred (length routes) = Some last_.

Lemma swap_removed_lookup (j : nat) :
  swap_removed routes i last_ !! j =
    if decide (j < pred (length routes))%nat
    then if decide (j = i) then Some last_ else routes !! j
    else None.
Proof.
  unfold swap_removed. pose proof (lookup_lt_Some _ _ _ He) as Hi.
  case_decide as Hj.
  - rewrite lookup_take_lt by done. case_decide as Hji.
    + subst j. by rewrite list_lookup_insert_eq.
    + by rewrite list_lookup_insert_ne.
  - apply lookup_take_ge. lia.
Qed.

Lemma swap_removed_elem_of x :
  x ∈ swap_removed routes i last_ <-> x ∈ routes /\ gsi x <> v.
Proof.
  pose proof (lookup_lt_Some _ _ _ He) as Hi.
  rewrite !list_elem_of_lookup. setoid_rewrite swap_removed_lookup. split.
  - intros [j Hj].
    destruct (decide (j < pred (length routes))%nat) as [Hlt | ?]; [| done].
    destruct (decide (j = i)) as [Hji | Hji].
    + simplify_eq. split; [eauto |]. intros Hg.
      assert (pred (length routes) = i) by (eapply Hunique; eauto; congruence). lia.
    + split; [eauto |]. intros Hg. apply Hji. eapply Hunique; eauto; congruence.
  - intros [[j Hj] Hg].
    assert (j <> i) by (intros ->; simplify_eq; done).
    pose proof (lookup_lt_Some _ _ _ Hj) as Hjl.
    destruct (decide (j < pred (length routes))%nat) as [Hlt | Hge].
    + exists j. rewrite decide_True by done. by rewrite decide_False.
    + assert (j = pred (length routes)) by lia. subst j. simplify_eq.
      exists i. rewrite decide_True by lia. by rewrite decide_True.
Qed.

Lemma swap_removed_unique : gsi_unique (swap_removed routes i last_).
Proof.
  pose proof (lookup_lt_Some _ _ _ He) as Hi.
  intros j1 j2 e1 e2 H1 H2 Hg. rewrite swap_removed_lookup in H1, H2.
  destruct (decide (j1 < pred (length routes))%nat) as [Hl1 | ?]; [| done].
  destruct (decide (j2 < pred (length routes))%nat) as [Hl2 | ?]; [| done].
  destruct (decide (j1 = i)) as [-> | Hn1]; destruct (decide (j2 = i)) as [-> | Hn2];
    simplify_eq; try done.
  - assert (pred (length routes) = j2) by (eapply Hunique; eauto; congruence). lia.
  - assert (j1 = pred (length routes)) by (eapply Hunique; eauto; congruence). lia.
  - eapply Hunique; eauto; congruence.
Qed.

End swap_remove.

(** Under distinct GSIs the loop, given an index for every entry left,
    removes the entry of the GSI and no other. *)
Lemma release_loop_removes (v : Z) (fuel : nat) :
  forall (i : nat) routes,
    gsi_unique routes ->
    (length routes <= fuel + i)%nat ->
    (forall j e, (j < i)%nat -> routes !! j = Some e -> gsi e <> v) ->
    (forall x, x ∈ release_loop fuel i v routes <-> x ∈ routes /\ gsi x <> v) /\
    gsi_unique (release_loop fuel i v routes).
Proof.
  induction fuel as [| fuel IH]; intros i routes Hu Hfuel Hdone.
  - cbn [release_loop]. split; [| done]. intros x. split; [| tauto].
    intros Hx. split; [done |]. apply list_elem_of_lookup in Hx as [j Hj].
    apply (Hdone j); [| done]. apply lookup_lt_Some in Hj. lia.
  - cbn [release_loop]. destruct (routes !! i) as [e |] eqn:He.
    + destruct (decide (gsi e = v)) as [Hv | Hv].
      * pose proof (lookup_lt_Some _ _ _ He) as Hi.
        destruct (lookup_lt_is_Some_2 routes (pred (length routes)) ltac:(lia))
          as [last_ Hlast].
        rewrite Hlast. fold (swap_removed routes i last_).
        rewrite release_loop_absent.
        -- split; [| by eapply swap_removed_unique].
           intros x. by eapply swap_removed_elem_of.
        -- apply Forall_forall. intros x Hx.
           by eapply (swap_removed_elem_of routes i v e last_) in Hx as [_ ?].
      * apply IH; [done | lia |]. intros j e' Hj Hl.
        destruct (decide (j = i)) as [-> | Hne]; [by simplify_eq |].
        apply (Hdone j); [lia | done].
    + split; [| done]. intros x. split; [| tauto].
      intros Hx. split; [done |]. apply list_elem_of_lookup in Hx as [j Hj].
      apply (Hdone j); [| done].
      apply lookup_lt_Some in Hj. apply lookup_ge_None in He. lia.
Qed.

Lemma routing_inv_init cap direct_msi direct_mapping :
  routing_inv (kvm_init_irq_routing cap direct_msi direct_mapping).
Proof.
  unfold kvm_init_irq_routing. split; cbn.
  - case_decide as Hc.
    + pose proof (bitmap_new_covers (cap - 1) ltac:(lia)). lia.
    + cbn. lia.
  - done.
  - done.
  - apply NoDup_nil_2.
  - generalize (Z.to_nat KVM_MSI_HASHTAB_SIZE). intros n.
    induction n as [| n IH]; [done | exact IH].
Qed.

(** What a release leaves alone. *)
Lemma release_frame s v :
  gsi_count (kvm_irqchip_release_virq s v) = gsi_count s /\
  msi_hashtab (kvm_irqchip_release_virq s v) = msi_hashtab s /\
  kvm_direct_msi_allowed (kvm_irqchip_release_virq s v) = kvm_direct_msi_allowed s /\
  kvm_gsi_direct_mapping (kvm_irqchip_release_virq s v) = kvm_gsi_direct_mapping s /\
  length (used_gsi_bitmap (kvm_irqchip_release_virq s v)) = length (used_gsi_bitmap s).
Proof.
  unfold kvm_irqchip_release_virq. destruct (kvm_gsi_direct_mapping s) eqn:E; [done |].
  cbn. rewrite E. split_and!; try done. apply length_clear_bit.
Qed.

Lemma release_keeps_clear s v g :
  test_bit g (used_gsi_bitmap s) = false ->
  test_bit g (used_gsi_bitmap (kvm_irqchip_release_virq s v)) = false.
Proof.
  unfold kvm_irqchip_release_virq. destruct (kvm_gsi_direct_mapping s); [done |].
  cbn. apply test_bit_clear_bit_mono.
Qed.

Lemma release_clears s v :
  0 <= v -> kvm_gsi_direct_mapping s = false ->
  test_bit v (used_gsi_bitmap (kvm_irqchip_release_virq s v)) = false.
Proof.
  intros Hv Hd. unfold kvm_irqchip_release_virq. rewrite Hd. cbn.
  rewrite test_bit_clear_bit by done. by rewrite decide_True.
Qed.

Lemma routing_inv_release s v :
  routing_inv s -> 0 <= v -> routing_inv (kvm_irqchip_release_virq s v).
Proof.
  intros [Hb Hr Hm Hu Hc] Hv. unfold kvm_irqchip_release_virq.
  destruct (kvm_gsi_direct_mapping s); [done |].
  destruct (release_loop_removes v (length (irq_routes s)) 0 (irq_routes s))
    as [Hin Hu']; [by apply gsi_unique_NoDup | lia | intros; lia |].
  split; cbn.
  - by rewrite length_clear_bit.
  - apply Forall_forall. intros x [Hx _]%Hin.
    by eapply Forall_forall in Hr.
  - apply Forall_forall. intros x [Hx Hne]%Hin.
    rewrite test_bit_clear_bit; [| by eapply Forall_forall in Hr | done].
    rewrite decide_False by done. by eapply Forall_forall in Hm.
  - by apply gsi_unique_NoDup.
  - done.
Qed.

Lemma routing_inv_release_all (l : list kvm_irq_routing_entry) s :
  routing_inv s -> Forall (fun e => 0 <= gsi e) l ->
  routing_inv (foldl (fun st route => kvm_irqchip_release_virq st (gsi route)) s l).
Proof.
  intros Hs Hl. revert s Hs. induction Hl as [| e l He _ IH]; intros s Hs; [done |].
  cbn [foldl]. apply IH. by apply routing_inv_release.
Qed.

Lemma release_all_frame (l : list kvm_irq_routing_entry) s :
  let s' := foldl (fun st route => kvm_irqchip_release_virq st (gsi route)) s l in
  gsi_count s' = gsi_count s /\
  kvm_direct_msi_allowed s' = kvm_direct_msi_allowed s /\
  kvm_gsi_direct_mapping s' = kvm_gsi_direct_mapping s /\
  (forall g, test_bit g (used_gsi_bitmap s) = false ->
             test_bit g (used_gsi_bitmap s') = false).
Proof.
  revert s. induction l as [| e l IH]; intros s; [done |].
  cbn [foldl]. cbn zeta in IH.
  destruct (IH (kvm_irqchip_release_virq s (gsi e))) as (Hg & Hm & Hd & Hclear).
  destruct (release_frame s (gsi e)) as (Hg' & _ & Hm' & Hd' & _).
  split_and!; try congruence.
  intros g Hgc. apply Hclear. by apply release_keeps_clear.
Qed.

Lemma routing_inv_flush s :
  routing_inv s -> routing_inv (kvm_flush_dynamic_msi_routes s).
Proof.
  intros Hs. unfold kvm_flush_dynamic_msi_routes.
  destruct (routing_inv_release_all (concat (msi_hashtab s)) s Hs (inv_cache s Hs))
    as [Hb Hr Hm Hu _].
  split; cbn; try done.
  generalize (length (msi_hashtab s)). intros n.
  induction n as [| n IH]; [done | exact IH].
Qed.

(** What an allocation leaves alone, and what it returns: the lowest
    GSI that is clear in the bitmap it searched, or [-ENOSPC] when every
    GSI is in use. *)
Lemma get_virq_spec s v s' :
  kvm_irqchip_get_virq s = (v, s') ->
  gsi_count s' = gsi_count s /\
  kvm_direct_msi_allowed s' = kvm_direct_msi_allowed s /\
  kvm_gsi_direct_mapping s' = kvm_gsi_direct_mapping s /\
  (forall g, test_bit g (used_gsi_bitmap s) = false ->
             test_bit g (used_gsi_bitmap s') = false) /\
  (routing_inv s -> routing_inv s') /\
  ((v = - ENOSPC /\
    forall g, 0 <= g < gsi_count s' -> test_bit g (used_gsi_bitmap s') = true) \/
   (0 <= v < gsi_count s' /\
    test_bit v (used_gsi_bitmap s') = false /\
    forall g, 0 <= g < v -> test_bit g (used_gsi_bitmap s') = true)).
Proof.
  unfold kvm_irqchip_get_virq.
  set (s1 := if _ && _ then kvm_flush_dynamic_msi_routes s else s).
  assert (Hframe : gsi_count s1 = gsi_count s /\
                   kvm_direct_msi_allowed s1 = kvm_direct_msi_allowed s /\
                   kvm_gsi_direct_mapping s1 = kvm_gsi_direct_mapping s /\
                   (forall g, test_bit g (used_gsi_bitmap s) = false ->
                              test_bit g (used_gsi_bitmap s1) = false) /\
                   (routing_inv s -> routing_inv s1)).
  { subst s1. destruct (_ && _); [| done].
    destruct (release_all_frame (concat (msi_hashtab s)) s) as (? & ? & ? & ?).
    unfold kvm_flush_dynamic_msi_routes. cbn. split_and!; try done.
    apply routing_inv_flush. }
  destruct Hframe as (Hg & Hm & Hd & Hclear & Hinv).
  destruct (find_first_zero_bit_spec (used_gsi_bitmap s1) (gsi_count s1))
    as [Hlow Hv]. cbv zeta in Hlow, Hv.
  case_decide as Hfull; intros [= <- <-]; split_and!; try done.
  - left. split; [done |]. intros g Hgr. apply Hlow. lia.
  - right. destruct Hv as [Hv | [Hv Hclr]]; [exfalso; lia | done].
Qed.

Lemma add_routing_entry_frame s e :
  gsi_count (kvm_add_routing_entry s e) = gsi_count s /\
  irq_routes (kvm_add_routing_entry s e) = irq_routes s ++ [e] /\
  used_gsi_bitmap (kvm_add_routing_entry s e) = set_bit (gsi e) (used_gsi_bitmap s) /\
  msi_hashtab (kvm_add_routing_entry s e) = msi_hashtab s.
Proof. unfold kvm_add_routing_entry. by case_decide. Qed.

(** Appending the route of a GSI that is in range and not in use. *)
Lemma routing_inv_add s e :
  routing_inv s -> 0 <= gsi e < gsi_count s ->
  test_bit (gsi e) (used_gsi_bitmap s) = false ->
  routing_inv (kvm_add_routing_entry s e).
Proof.
  intros [Hb Hr Hm Hu Hc] Hg Hfree.
  destruct (add_routing_entry_frame s e) as (Hgc & Hroutes & Hbm & Hh).
  split; rewrite ?Hgc, ?Hroutes, ?Hbm, ?Hh; try done.
  - by rewrite length_set_bit.
  - apply Forall_app. split; [done |]. apply Forall_singleton. lia.
  - apply Forall_app. split.
    + eapply Forall_impl; [exact Hm |]. intros x. apply test_bit_set_bit_mono.
    + apply Forall_singleton. rewrite test_bit_set_bit by lia. by rewrite decide_True.
  - rewrite fmap_app. apply NoDup_app. split_and!; [done | | apply NoDup_singleton].
    intros g Hin Hin'. apply list_elem_of_singleton in Hin'. subst g.
    apply list_elem_of_fmap in Hin as (x & Hgx & Hx).
    eapply Forall_forall in Hm; [| exact Hx]. congruence.
Qed.

Lemma routing_inv_update s new_entry :
  routing_inv s -> routing_inv (kvm_update_routing_entry s new_entry).2.
Proof.
  intros Hs. unfold kvm_update_routing_entry.
  destruct (list_find _ _) as [[n entry] |] eqn:Hfind; [| done].
  case_decide; [done |]. cbn.
  apply list_find_Some in Hfind as (Hl & Hg & _).
  destruct Hs as [Hb Hr Hm Hu Hc].
  pose proof (list_elem_of_lookup_2 _ _ _ Hl) as Hin.
  split; cbn; try done.
  - apply Forall_insert; [done |]. rewrite <- Hg. by eapply Forall_forall in Hr.
  - apply Forall_insert; [done |]. rewrite <- Hg. by eapply Forall_forall in Hm.
  - rewrite list_fmap_insert, list_insert_id; [done |].
    by rewrite list_lookup_fmap, Hl, <- Hg.
Qed.

Lemma Forall_concat_alter_snoc {A} (P : A -> Prop) (x : A) (k : nat) (tab : list (list A)) :
  Forall P (concat tab) -> P x ->
  Forall P (concat (alter (fun bucket => bucket ++ [x]) k tab)).
Proof.
  intros Htab Hx. revert k. induction tab as [| b tab IH]; intros k; [done |].
  cbn in Htab. apply Forall_app in Htab as [Hb Ht].
  destruct k as [| k]; cbn; apply Forall_app; split; auto.
  apply Forall_app. split; [done |]. by apply Forall_singleton.
Qed.

(** Allocate-then-append, as the route constructors do it. *)
Lemma routing_inv_allocate s v s1 e :
  routing_inv s -> kvm_irqchip_get_virq s = (v, s1) -> ~ v < 0 -> gsi e = v ->
  routing_inv (kvm_add_routing_entry s1 e).
Proof.
  intros Hs Hget Hv He.
  destruct (get_virq_spec _ _ _ Hget) as (_ & _ & _ & _ & Hinv & Hres).
  destruct Hres as [[-> _] | (Hr & Hfree & _)]; [done |].
  apply routing_inv_add; [auto | lia | by rewrite He].
Qed.

Lemma routing_inv_send_msi signal_msi set_irq s msg :
  routing_inv s -> routing_inv (kvm_irqchip_send_msi signal_msi set_irq s msg).2.
Proof.
  intros Hs. unfold kvm_irqchip_send_msi.
  destruct (kvm_direct_msi_allowed s); [done |].
  destruct (kvm_lookup_msi_route s msg); [done |].
  destruct (kvm_irqchip_get_virq s) as [virq s1] eqn:Hget.
  case_decide as Hneg.
  - cbn. by apply (get_virq_spec _ _ _ Hget).
  - pose proof (routing_inv_allocate s virq s1 (msi_route virq msg) Hs Hget Hneg eq_refl)
      as [Hb Hr Hm Hu Hc].
    split; cbn; try done.
    apply Forall_concat_alter_snoc; [done | cbn; lia].
Qed.

Lemma routing_inv_add_adapter_route s adapter :
  routing_inv s -> routing_inv (kvm_irqchip_add_adapter_route s adapter).2.
Proof.
  intros Hs. unfold kvm_irqchip_add_adapter_route.
  destruct (kvm_irqchip_get_virq s) as [virq s1] eqn:Hget.
  case_decide as Hneg; cbn.
  - by apply (get_virq_spec _ _ _ Hget).
  - by eapply routing_inv_allocate.
Qed.

Lemma routing_inv_add_hv_sint_route s vcpu sint :
  routing_inv s -> routing_inv (kvm_irqchip_add_hv_sint_route s vcpu sint).2.
Proof.
  intros Hs. unfold kvm_irqchip_add_hv_sint_route.
  destruct (kvm_irqchip_get_virq s) as [virq s1] eqn:Hget.
  case_decide as Hneg; cbn.
  - by apply (get_virq_spec _ _ _ Hget).
  - by eapply routing_inv_allocate.
Qed.

End RoutingFacts.

Import Bitmap RoutingFacts.

Lemma routing_reachable_inv s : routing_reachable s -> routing_inv s.
Proof.
  induction 1 as [| s irq irqchip pin s' _ IH Hr Hfree Hadd | | | | |].
  - apply routing_inv_init.
  - unfold kvm_irqchip_add_irq_route in Hadd. case_decide; [| done].
    injection Hadd as <-. by apply routing_inv_add.
  - by apply routing_inv_send_msi.
  - by apply routing_inv_add_adapter_route.
  - by apply routing_inv_add_hv_sint_route.
  - by apply routing_inv_update.
  - by apply routing_inv_release.
Qed.

(** C6, as amended: in every routing state the allocator can produce
    (irqchip routes being added on GSIs not in use), every GSI of the
    route table is marked in the used-GSI bitmap and appears once in the
    table.  An allocation returns the lowest GSI that is clear in the
    bitmap it searches (after the flush of the cached MSI routes, when
    one is due), or [-ENOSPC] when none is clear, so never a GSI marked
    used.  Unless GSIs are mapped directly, releasing a GSI clears its
    bit, and the allocation that follows returns that GSI or a lower
    free one: that GSI itself when every lower one is in use. *)
Theorem routing_table_invariant (s : RoutingState) :
  routing_reachable s ->
  Forall (fun e => test_bit (gsi e) (used_gsi_bitmap s) = true) (irq_routes s) /\
  NoDup (gsi <$> irq_routes s) /\
  (forall v s', kvm_irqchip_get_virq s = (v, s') ->
     (v = - ENOSPC /\
      forall g, 0 <= g < gsi_count s' -> test_bit g (used_gsi_bitmap s') = true) \/
     (0 <= v < gsi_count s' /\
      test_bit v (used_gsi_bitmap s') = false /\
      forall g, 0 <= g < v -> test_bit g (used_gsi_bitmap s') = true)) /\
  (forall virq, 0 <= virq < gsi_count s -> kvm_gsi_direct_mapping s = false ->
     let released := kvm_irqchip_release_virq s virq in
     test_bit virq (used_gsi_bitmap released) = false /\
     exists v s',
       kvm_irqchip_get_virq released = (v, s') /\
       0 <= v <= virq /\
       ((forall g, 0 <= g < virq -> test_bit g (used_gsi_bitmap s') = true) ->
        v = virq)).
Proof.
  intros Hreach. pose proof (routing_reachable_inv s Hreach) as Hinv.
  split_and!.
  - apply Hinv.
  - apply Hinv.
  - intros v s' Hget. by apply (get_virq_spec _ _ _ Hget).
  - intros virq Hv Hdm released.
    pose proof (release_clears s virq ltac:(lia) Hdm) as Hclr. fold released in Hclr.
    split; [done |].
    destruct (kvm_irqchip_get_virq released) as [v s'] eqn:Hget.
    exists v, s'. split; [done |].
    destruct (get_virq_spec _ _ _ Hget) as (Hgc & _ & _ & Hkeep & _ & Hres).
    destruct (release_frame s virq) as (Hgc' & _).
    fold released in Hgc'. specialize (Hkeep virq Hclr).
    destruct Hres as [[_ Hall] | (Hr & Hfree & Hlow)].
    + rewrite Hall in Hkeep by lia. done.
    + assert (v <= virq).
      { destruct (decide (v <= virq)); [done |].
        rewrite Hlow in Hkeep by lia. done. }
      split; [lia |]. intros Hbelow.
      destruct (decide (v = virq)); [done |].
      rewrite Hbelow in Hfree by lia. done.
Qed.

(** A machine with 24 GSIs sends one MSI through the route cache: the
    route gets GSI 0; releasing it makes GSI 0 the next one allocated. *)
Lemma routing_table_invariant_witness :
  let s0 := kvm_init_irq_routing 25 false false in
  let s := (kvm_irqchip_send_msi 0 1 s0 (mkMsi 4276092928 16449)).2 in
  routing_reachable s /\
  gsi <$> irq_routes s = [0] /\
  NoDup (gsi <$> irq_routes s) /\
  (kvm_irqchip_get_virq s).1 = 1 /\
  exists s', kvm_irqchip_get_virq (kvm_irqchip_release_virq s 0) = (0, s').
Proof.
  intros s0 s.
  assert (Hreach : routing_reachable s)
    by (apply reach_send_msi, reach_init).
  destruct (routing_table_invariant s Hreach) as (_ & Hunique & _ & Hrelease).
  split; [exact Hreach |]. split; [reflexivity |]. split; [exact Hunique |].
  split; [reflexivity |].
  destruct (Hrelease 0) as (_ & v & s' & Hget & Hv & _).
  - split; [discriminate | reflexivity].
  - reflexivity.
  - exists s'. rewrite Hget. f_equal. lia.
Defined.

(** C6 as stated fails on uniqueness and, after it, on marking:
    [kvm_irqchip_add_irq_route] appends whatever GSI it is given, as the
    PIC and the IOAPIC need for the GSIs they share, so GSI 2 is twice
    in the table; releasing GSI 2 then removes one of the two entries
    and clears the bit of the one that stays. *)
Lemma routing_table_shared_gsi_counterexample :
  exists s1 s2,
    kvm_irqchip_add_irq_route (kvm_init_irq_routing 25 false false) 2 0 2 = Some s1 /\
    kvm_irqchip_add_irq_route s1 2 2 2 = Some s2 /\
    gsi <$> irq_routes s2 = [2; 2] /\
    ~ NoDup (gsi <$> irq_routes s2) /\
    gsi <$> irq_routes (kvm_irqchip_release_virq s2 2) = [2] /\
    test_bit 2 (used_gsi_bitmap (kvm_irqchip_release_virq s2 2)) = false.
Proof.
  eexists _, _. split; [reflexivity |]. split; [reflexivity |].
  split; [reflexivity |]. split; [| split; reflexivity].
  cbn. intros Hnd. apply NoDup_cons in Hnd as [Hnotin _].
  apply Hnotin. apply list_elem_of_here.
Qed.

(** * Further properties *)

Import Bitmap BitmapFacts RoutingFacts.

(** ** Poisoned pages *)

Lemma hwpoison_add_elem_of (a x : Z) (l : list Z) :
  x ∈ kvm_hwpoison_page_add a l <-> x = a \/ x ∈ l.
Proof.
  unfold kvm_hwpoison_page_add.
  destruct (list_find _ l) as [[i p] |] eqn:Hfind.
  - apply list_find_Some in Hfind as (Hl & -> & _).
    apply list_elem_of_lookup_2 in Hl. split; [tauto | intros [-> | H]; done].
  - rewrite elem_of_cons. tauto.
Qed.

Lemma hwpoison_add_NoDup (a : Z) (l : list Z) :
  NoDup l -> NoDup (kvm_hwpoison_page_add a l).
Proof.
  intros Hnd. unfold kvm_hwpoison_page_add.
  destruct (list_find _ l) as [[i p] |] eqn:Hfind; [done |].
  apply NoDup_cons. split; [| done].
  intros Hin. apply list_elem_of_lookup in Hin as [i Hi].
  eapply list_find_None in Hfind. rewrite Forall_forall in Hfind.
  apply (Hfind a); [| done]. eapply list_elem_of_lookup_2. exact Hi.
Qed.

Lemma unpoison_all_loop (done_ l : list Z) :
  foldl (fun '(remapped, rest) page => (remapped ++ [page], tail rest)) (done_, l) l
  = (done_ ++ l, []).
Proof.
  assert (forall visit rest_ d : list Z,
            foldl (fun '(remapped, rest) page => (remapped ++ [page], tail rest))
                  (d, visit ++ rest_) visit = (d ++ visit, rest_)) as Hgen.
  { induction visit as [| p visit IH]; intros rest_ d; cbn.
    - by rewrite app_nil_r.
    - rewrite IH. by rewrite <- app_assoc. }
  specialize (Hgen l [] done_). by rewrite app_nil_r in Hgen.
Qed.

(** X1: whatever pages are reported as poisoned, and however often, the
    reset handler remaps each reported page exactly once and leaves the
    list empty. *)
Theorem kvm_unpoison_all_remaps_once (addrs : list Z) :
  let '(remapped, rest) := kvm_unpoison_all (poisoned_after addrs) in
  NoDup remapped /\ (forall a, a ∈ remapped <-> a ∈ addrs) /\ rest = [].
Proof.
  unfold kvm_unpoison_all. rewrite unpoison_all_loop. cbn [app].
  assert (forall l0, NoDup l0 ->
            NoDup (foldl (fun l a => kvm_hwpoison_page_add a l) l0 addrs) /\
            forall a, a ∈ foldl (fun l a => kvm_hwpoison_page_add a l) l0 addrs
                      <-> a ∈ l0 \/ a ∈ addrs) as Hgen.
  { induction addrs as [| x addrs IH]; intros l0 Hnd; cbn.
    - split; [done |]. intros a. rewrite elem_of_nil. tauto.
    - destruct (IH (kvm_hwpoison_page_add x l0)) as [Hnd' Hin];
        [by apply hwpoison_add_NoDup |].
      split; [done |]. intros a. rewrite Hin, hwpoison_add_elem_of, elem_of_cons.
      tauto. }
  destruct (Hgen [] (NoDup_nil_2)) as [Hnd Hin].
  split; [exact Hnd |]. split; [| done].
  intros a. unfold poisoned_after. rewrite Hin, elem_of_nil. tauto.
Qed.

(** ** Parked vCPUs *)

Lemma list_find_head {A} (P : A -> Prop) `{!forall x, Decision (P x)} (x : A) (l : list A) :
  P x -> list_find P (x :: l) = Some (0%nat, x).
Proof. intros HP. cbn. by rewrite decide_True. Qed.

(** X2: a vCPU that is destroyed with success is parked, and creating
    the vCPU of that id again takes the parked descriptor back without
    asking the kernel, leaving the parked list as it was; a failed
    destruction parks nothing; an id that is not parked is created by
    the kernel. *)
Theorem kvm_get_vcpu_takes_parked_back
    (env : DestroyEnv) (create_vcpu : Z -> Z) (id fd : Z) (has_dirty_gfns : bool)
    (parked : list KVMParkedVcpu) :
  let '(ret, parked') := do_kvm_destroy_vcpu env id fd has_dirty_gfns parked in
  (0 <= ret -> kvm_get_vcpu create_vcpu id parked' = (fd, parked)) /\
  (ret < 0 -> parked' = parked) /\
  (Forall (fun cpu => vcpu_id cpu <> id) parked ->
   kvm_get_vcpu create_vcpu id parked = (create_vcpu id, parked)).
Proof.
  unfold do_kvm_destroy_vcpu.
  assert (kvm_get_vcpu create_vcpu id (mkParked id fd :: parked) = (fd, parked)) as Hback.
  { unfold kvm_get_vcpu. by rewrite list_find_head. }
  assert (Forall (fun cpu => vcpu_id cpu <> id) parked ->
          kvm_get_vcpu create_vcpu id parked = (create_vcpu id, parked)) as Hnew.
  { intros Hall. unfold kvm_get_vcpu.
    destruct (list_find _ parked) as [[i cpu] |] eqn:Hfind; [| done].
    apply list_find_Some in Hfind as (Hl & Hid & _).
    rewrite Forall_forall in Hall. exfalso. eapply Hall; [| exact Hid].
    eapply list_elem_of_lookup_2, Hl. }
  repeat case_decide;
    try (destruct has_dirty_gfns; cbn [andb]; try case_bool_decide);
    (split_and!;
     [intros; first [lia | exact Hback] | intros; first [lia | done] | exact Hnew]).
Qed.

(** ** Software breakpoints *)

Lemma to_int_small (z : Z) : - 2 ^ 31 <= z < 2 ^ 31 -> to_int z = z.
Proof.
  intros H. unfold to_int. rewrite Z.mod_small by lia. lia.
Qed.

Lemma with_use_count_same bp : with_use_count (use_count bp) bp = bp.
Proof. by destruct bp. Qed.

Lemma breakpoints_inv_lookup l i bp :
  breakpoints_inv l -> l !! i = Some bp -> 1 <= use_count bp <= 2 ^ 31 - 1.
Proof.
  intros [_ Hall] Hl. rewrite Forall_forall in Hall. apply Hall.
  eapply list_elem_of_lookup_2, Hl.
Qed.

Lemma breakpoints_inv_recount l i bp n :
  breakpoints_inv l -> l !! i = Some bp -> 1 <= n <= 2 ^ 31 - 1 ->
  breakpoints_inv (<[i := with_use_count n bp]> l).
Proof.
  intros [Hnd Hall] Hl Hn. split.
  - rewrite list_fmap_insert. cbn. rewrite list_insert_id; [done |].
    rewrite list_lookup_fmap, Hl. done.
  - apply Forall_insert; done.
Qed.

Lemma breakpoints_inv_delete l i :
  breakpoints_inv l -> breakpoints_inv (delete i l).
Proof.
  intros [Hnd Hall]. split.
  - eapply sublist_NoDup; [exact Hnd |]. apply fmap_sublist, sublist_delete.
  - rewrite Forall_forall in Hall |- *. intros bp Hbp. apply Hall.
    by apply (list_subseteq_delete i l).
Qed.

Lemma find_insert_same l i bp pc n :
  kvm_find_sw_breakpoint l pc = Some (i, bp) ->
  kvm_find_sw_breakpoint (<[i := with_use_count n bp]> l) pc
  = Some (i, with_use_count n bp).
Proof.
  unfold kvm_find_sw_breakpoint. intros Hfind.
  apply list_find_Some in Hfind as (Hl & Hpc & Hfirst).
  apply list_find_Some. split_and!.
  - apply list_lookup_insert_eq. eapply lookup_lt_Some, Hl.
  - done.
  - intros j y Hj Hlt. rewrite list_lookup_insert_ne in Hj by lia. eauto.
Qed.

(** X3: breakpoints are counted by use.  With an architecture that
    patches without error, inserting a software breakpoint and removing
    it again gives back the list of breakpoints as it was, whether the
    address was new (the breakpoint is linked, then unlinked) or in use
    (its count goes up, then down); the removal of an address that has
    no breakpoint fails with -ENOENT and changes nothing. *)
Theorem kvm_insert_remove_breakpoint
    (env : DebugEnv) (addr len : Z) (l : list kvm_sw_breakpoint) :
  breakpoints_inv l ->
  can_take_again l addr ->
  (kvm_arch_insert_sw_breakpoint env addr).1 = 0 ->
  (forall bp, kvm_arch_remove_sw_breakpoint env bp = 0) ->
  let inserted := (kvm_insert_breakpoint env GDB_BREAKPOINT_SW addr len l).2 in
  is_Some (kvm_find_sw_breakpoint inserted addr) /\
  breakpoints_inv inserted /\
  (kvm_remove_breakpoint env GDB_BREAKPOINT_SW addr len inserted).2 = l /\
  (kvm_find_sw_breakpoint l addr = None ->
   kvm_remove_breakpoint env GDB_BREAKPOINT_SW addr len l = (- ENOENT, l)).
Proof.
  intros Hinv Hagain Hins Hrem inserted. subst inserted.
  unfold kvm_insert_breakpoint, kvm_remove_breakpoint.
  rewrite !decide_True by done.
  destruct (kvm_find_sw_breakpoint l addr) as [[i bp] |] eqn:Hfind.
  - pose proof Hfind as Hfind0.
    unfold kvm_find_sw_breakpoint in Hfind0.
    apply list_find_Some in Hfind0 as (Hl & Hpc & _).
    pose proof (breakpoints_inv_lookup _ _ _ Hinv Hl) as Hrange.
    pose proof (Hagain i bp Hfind) as Hbound.
    cbn [snd]. rewrite (find_insert_same _ _ _ _ _ Hfind).
    rewrite to_int_small by lia.
    split_and!; [done | apply breakpoints_inv_recount; [done | done | lia] | | done].
    cbn [use_count with_use_count]. rewrite decide_True by lia.
    cbn [snd bp_pc saved_insn with_use_count].
    rewrite list_insert_insert_eq.
    replace (use_count bp + 1 - 1) with (use_count bp) by lia.
    rewrite to_int_small by lia.
    replace (with_use_count (use_count bp) (with_use_count (use_count bp + 1) bp))
      with bp by (by destruct bp).
    by apply list_insert_id.
  - destruct (kvm_arch_insert_sw_breakpoint env addr) as [err insn] eqn:Harch.
    cbn in Hins. subst err. rewrite decide_False by lia. cbn [snd].
    unfold kvm_find_sw_breakpoint at 1 2. rewrite list_find_head by done.
    split_and!; [done | | | done].
    + destruct Hinv as [Hnd Hall]. split.
      * cbn. apply NoDup_cons. split; [| done].
        intros Hin. apply list_elem_of_fmap in Hin as (bp & Hpc & Hbp).
        apply list_elem_of_lookup in Hbp as [j Hj].
        unfold kvm_find_sw_breakpoint in Hfind.
        eapply list_find_None in Hfind. rewrite Forall_forall in Hfind.
        apply (Hfind bp); [| done]. eapply list_elem_of_lookup_2, Hj.
      * apply Forall_cons. split; [cbn; lia | done].
    + cbn [use_count]. rewrite decide_False by lia. rewrite Hrem.
      rewrite decide_False by lia. done.
Qed.

(** A breakpoint in use twice at 0x1000 and none at 0x2000: both
    addresses come back as they were. *)
Lemma kvm_insert_remove_breakpoint_witness :
  let env := mkDebugEnv (fun _ => (0, 144)) (fun _ => 0) (fun _ _ _ => 0)
                        (fun _ _ _ => 0) [0; 0] in
  let l := [mkBreakpoint 4096 204 2] in
  (kvm_insert_breakpoint env GDB_BREAKPOINT_SW 4096 1 l).2 = [mkBreakpoint 4096 204 3] /\
  (kvm_remove_breakpoint env GDB_BREAKPOINT_SW 4096 1
     (kvm_insert_breakpoint env GDB_BREAKPOINT_SW 4096 1 l).2).2 = l /\
  (kvm_remove_breakpoint env GDB_BREAKPOINT_SW 8192 1
     (kvm_insert_breakpoint env GDB_BREAKPOINT_SW 8192 1 l).2).2 = l /\
  kvm_remove_breakpoint env GDB_BREAKPOINT_SW 8192 1 l = (- ENOENT, l).
Proof.
  intros env l.
  assert (breakpoints_inv l) as Hinv.
  { split; [apply NoDup_singleton | repeat constructor; cbn; lia]. }
  assert (forall pc, can_take_again l pc) as Hagain.
  { intros pc i bp Hfind. unfold kvm_find_sw_breakpoint in Hfind.
    apply list_find_Some in Hfind as (Hl & _).
    apply list_elem_of_lookup_2, list_elem_of_singleton in Hl. subst bp. cbn. lia. }
  destruct (kvm_insert_remove_breakpoint env 4096 1 l Hinv (Hagain _) eq_refl
              (fun _ => eq_refl)) as (_ & _ & Hback & _).
  destruct (kvm_insert_remove_breakpoint env 8192 1 l Hinv (Hagain _) eq_refl
              (fun _ => eq_refl)) as (_ & _ & Hback' & Hnone).
  split_and!; [reflexivity | exact Hback | exact Hback' | by apply Hnone].
Defined.

(** ** The coalesced MMIO ring *)

(** The distance from [first] to [last], going round a ring of [max]
    entries. *)
Lemma ring_distance_step (max first last : Z) :
  0 <= first < max -> 0 <= last < max -> first <> last ->
  0 <= (first + 1) mod max < max /\
  (last - (first + 1) mod max) mod max = (last - first) mod max - 1 /\
  0 < (last - first) mod max.
Proof.
  intros Hf Hl Hne.
  destruct (decide (first + 1 = max)) as [Heq | Hlt].
  - rewrite Heq, Z.mod_same by lia. rewrite Z.sub_0_r.
    rewrite (Z.mod_small last) by lia.
    replace (last - first) with (last + 1 + (-1) * max) by lia.
    rewrite Z.mod_add by lia. rewrite Z.mod_small by lia. lia.
  - rewrite (Z.mod_small (first + 1)) by lia.
    destruct (decide (first < last)).
    + rewrite !Z.mod_small by lia. lia.
    + replace (last - (first + 1)) with (last - first - 1 + max + (-1) * max) by lia.
      replace (last - first) with (last - first + max + (-1) * max) at 2 3 by lia.
      rewrite !Z.mod_add by lia. rewrite !Z.mod_small by lia. lia.
Qed.

Lemma coalesced_flush_loop_runs (max last : Z) (entries : list kvm_coalesced_mmio) :
  0 < max < 2 ^ 32 -> Z.of_nat (length entries) = max -> 0 <= last < max ->
  forall (fuel : nat) (first : Z) (writes : list coalesced_write),
    0 <= first < max ->
    ((last - first) mod max < Z.of_nat fuel) ->
    exists replay,
      coalesced_flush_loop fuel max (mkCoalescedRing first last entries) writes
      = Some (mkCoalescedRing last last entries, writes ++ replay) /\
      Z.of_nat (length replay) = (last - first) mod max /\
      forall j : nat, (j < length replay)%nat ->
        replay !! j = replayed <$> entries !! Z.to_nat ((first + Z.of_nat j) mod max).
Proof.
  intros Hmax Hlen Hlast.
  induction fuel as [| fuel IH]; intros first writes Hfirst Hfuel.
  { pose proof (Z.mod_pos_bound (last - first) max). lia. }
  cbn [coalesced_flush_loop ring_first ring_last coalesced_mmio].
  destruct (decide (first = last)) as [-> | Hne].
  - exists []. rewrite app_nil_r. split; [done |].
    split; [rewrite Z.sub_diag, Z.mod_0_l by lia; done |]. cbn. lia.
  - destruct (ring_distance_step max first last) as (Hnext & Hdist & Hpos); [done.. |].
    destruct (lookup_lt_is_Some_2 entries (Z.to_nat first)) as [ent Hent]; [lia |].
    rewrite Hent. cbn [mbind option_bind].
    unfold u32. rewrite (Z.mod_small (first + 1)) by lia.
    destruct (IH ((first + 1) mod max)
                 (writes ++ [replayed ent])) as (replay & Hrun & Hcount & Hreplay);
      [done | lia |].
    exists (replayed ent :: replay).
    split; [| split].
    + unfold replayed in Hrun. rewrite Hrun. by rewrite <- app_assoc.
    + cbn [length]. lia.
    + intros [| j] Hj.
      * cbn. rewrite Z.add_0_r, Z.mod_small by lia. by rewrite Hent.
      * cbn [lookup list_lookup]. cbn in Hj. rewrite Hreplay by lia.
        f_equal. f_equal. f_equal.
        rewrite Zplus_mod_idemp_l. f_equal. lia.
Qed.

(** X4: flushing the coalesced MMIO ring replays the entries from
    [first] up to [last], going round the ring, each one once and in the
    order the kernel queued them, and leaves the ring empty ([first] =
    [last]); the loop ends for every pair of indices inside the ring.  A
    flush that finds another one in progress does nothing. *)
Theorem kvm_flush_coalesced_mmio_buffer_replays
    (max first last : Z) (entries : list kvm_coalesced_mmio) :
  0 < max < 2 ^ 32 -> Z.of_nat (length entries) = max ->
  0 <= first < max -> 0 <= last < max ->
  let ring := mkCoalescedRing first last entries in
  (exists replay,
     kvm_flush_coalesced_mmio_buffer max (mkCoalescedState false (Some ring))
     = Some (mkCoalescedState false (Some (mkCoalescedRing last last entries)), replay) /\
     Z.of_nat (length replay) = (last - first) mod max /\
     forall j : nat, (j < length replay)%nat ->
       replay !! j = replayed <$> entries !! Z.to_nat ((first + Z.of_nat j) mod max)) /\
  kvm_flush_coalesced_mmio_buffer max (mkCoalescedState true (Some ring))
  = Some (mkCoalescedState true (Some ring), []).
Proof.
  intros Hmax Hlen Hfirst Hlast ring. split; [| done].
  unfold kvm_flush_coalesced_mmio_buffer.
  cbn [coalesced_flush_in_progress coalesced_mmio_ring].
  destruct (coalesced_flush_loop_runs max last entries Hmax Hlen Hlast
              (S (Z.to_nat max)) first [] Hfirst) as (replay & Hrun & Hcount & Hreplay).
  { pose proof (Z.mod_pos_bound (last - first) max). lia. }
  exists replay. subst ring. rewrite Hrun. cbn. done.
Qed.

(** A ring of four entries with [first] = 3 and [last] = 1: the entries
    3 and 0 are replayed, in that order. *)
Lemma kvm_flush_coalesced_mmio_buffer_replays_witness :
  let e i := mkCoalesced (4096 + i) 1 (i mod 2) [i] in
  let entries := [e 0; e 1; e 2; e 3] in
  kvm_flush_coalesced_mmio_buffer 4
    (mkCoalescedState false (Some (mkCoalescedRing 3 1 entries)))
  = Some (mkCoalescedState false (Some (mkCoalescedRing 1 1 entries)),
          [AddressSpaceIoWrite 4099 [3] 1; PhysicalMemoryWrite 4096 [0] 1]).
Proof.
  intros e entries.
  destruct (kvm_flush_coalesced_mmio_buffer_replays 4 3 1 entries)
    as [(replay & Hrun & _) _]; [lia | reflexivity | lia | lia |].
  rewrite Hrun. vm_compute in Hrun. congruence.
Defined.

(** ** Capabilities and vCPU ids *)

Lemma kvm_check_extension_nonneg k extension : 0 <= kvm_check_extension k extension.
Proof. unfold kvm_check_extension. case_decide; lia. Qed.

Lemma kvm_vm_check_extension_nonneg k extension : 0 <= kvm_vm_check_extension k extension.
Proof.
  unfold kvm_vm_check_extension. case_decide; [apply kvm_check_extension_nonneg | lia].
Qed.

(** X5: whatever the kernel answers to the capability queries, errors
    included, the bound on vCPU ids is positive, so that id 0 is always
    valid; an id is valid exactly when it is non-negative and below the
    bound; and a kernel that knows none of the three capabilities gives
    the bound 4. *)
Theorem kvm_vcpu_id_is_valid_bound (k : CapKernel) (id : Z) :
  0 < kvm_max_vcpu_id k /\
  kvm_vcpu_id_is_valid k 0 = true /\
  (kvm_vcpu_id_is_valid k id = true <-> 0 <= id < kvm_max_vcpu_id k) /\
  ((forall ext, kvm_ioctl_check_extension k ext <= 0) ->
   (forall ext, kvm_vm_ioctl_check_extension k ext <= 0) ->
   kvm_max_vcpu_id k = 4).
Proof.
  assert (0 < kvm_recommended_vcpus k) as Hrec.
  { unfold kvm_recommended_vcpus.
    pose proof (kvm_vm_check_extension_nonneg k KVM_CAP_NR_VCPUS). case_decide; lia. }
  assert (0 < kvm_max_vcpus k) as Hmax.
  { unfold kvm_max_vcpus.
    pose proof (kvm_check_extension_nonneg k KVM_CAP_MAX_VCPUS). case_decide; lia. }
  assert (0 < kvm_max_vcpu_id k) as Hid.
  { unfold kvm_max_vcpu_id.
    pose proof (kvm_check_extension_nonneg k KVM_CAP_MAX_VCPU_ID). case_decide; lia. }
  split_and!; [done | | |].
  - unfold kvm_vcpu_id_is_valid. rewrite !bool_decide_eq_true_2 by lia. done.
  - unfold kvm_vcpu_id_is_valid. rewrite andb_true_iff, !bool_decide_eq_true. lia.
  - intros Hsys Hvm.
    assert (forall ext, kvm_check_extension k ext = 0) as Hnone.
    { intros ext. unfold kvm_check_extension. specialize (Hsys ext). case_decide; lia. }
    assert (kvm_vm_check_extension k KVM_CAP_NR_VCPUS = 0) as Hvmnone.
    { unfold kvm_vm_check_extension. specialize (Hvm KVM_CAP_NR_VCPUS).
      case_decide; [apply Hnone | lia]. }
    unfold kvm_max_vcpu_id, kvm_max_vcpus, kvm_recommended_vcpus.
    rewrite !Hnone, Hvmnone. done.
Qed.

(** ** Properties of the accelerator object *)

Lemma land_pred_pow2 (k : Z) : 0 <= k -> Z.land (2 ^ k) (2 ^ k - 1) = 0.
Proof.
  intros Hk. replace (2 ^ k - 1) with (Z.ones k) by (rewrite Z.ones_equiv; lia).
  rewrite <- (Z.shiftl_1_l k).
  apply Z.bits_inj'. intros n Hn. rewrite Z.land_spec, Z.bits_0.
  destruct (decide (n < k)).
  - rewrite Z.shiftl_spec_low by lia. done.
  - rewrite Z.ones_spec_high by lia. apply andb_false_r.
Qed.

Lemma land_pred_not_pow2 (v : Z) :
  0 < v -> Z.land v (v - 1) = 0 -> v = 2 ^ Z.log2 v.
Proof.
  intros Hv Hland.
  pose proof (Z.log2_spec v Hv) as [Hlo Hhi].
  pose proof (Z.log2_nonneg v) as Hk.
  destruct (decide (v = 2 ^ Z.log2 v)) as [| Hne]; [done |]. exfalso.
  assert (Z.log2 (v - 1) = Z.log2 v) as Hlog.
  { apply Z.log2_unique; [done |]. lia. }
  assert (Z.testbit (Z.land v (v - 1)) (Z.log2 v) = true) as Hbit.
  { rewrite Z.land_spec. rewrite Z.bit_log2 by lia.
    pose proof (Z.bit_log2 (v - 1)) as Hpred. rewrite Hlog in Hpred.
    rewrite Hpred by lia. done. }
  rewrite Hland, Z.bits_0 in Hbit. done.
Qed.

(** X6: before the accelerator is initialised, the dirty-ring-size
    property accepts exactly 0 and the powers of two among the 32-bit
    values, and stores the value it accepts; every other value, a value
    the visitor could not read, and any value once the accelerator is
    initialised, is refused with an error and the size is left as it
    was. *)
Theorem kvm_set_dirty_ring_size_power_of_two (value : Z) (s : AccelProps) :
  in_u32 value ->
  let '(s', failed) := kvm_set_dirty_ring_size (Some value) s in
  (failed = false <->
   ap_fd s = -1 /\ (value = 0 \/ exists k, 0 <= k < 32 /\ value = 2 ^ k)) /\
  (failed = false -> ap_dirty_ring_size s' = value) /\
  (failed = true -> s' = s) /\
  kvm_set_dirty_ring_size None s = (s, true).
Proof.
  intros [Hlo Hhi]. unfold kvm_set_dirty_ring_size.
  assert (Z.land value (u32 (value - 1)) = 0 <->
          value = 0 \/ exists k, 0 <= k < 32 /\ value = 2 ^ k) as Hpow.
  { destruct (decide (value = 0)) as [-> | Hnz].
    - split; [by left | done].
    - unfold u32. rewrite (Z.mod_small (value - 1)) by lia. split.
      + intros Hland. right. exists (Z.log2 value).
        split; [| apply land_pred_not_pow2; [lia | done]].
        split; [apply Z.log2_nonneg |]. apply Z.log2_lt_pow2; lia.
      + intros [| (k & Hk & ->)]; [done |]. apply land_pred_pow2. lia. }
  destruct (decide (ap_fd s <> -1)) as [Hinit | Hfresh].
  { split_and!; try done. split; [done | intros [? _]; done]. }
  destruct (decide (Z.land value (u32 (value - 1)) <> 0)) as [Hbad | Hgood].
  - split_and!; try done. split; [done | intros [_ ?]; tauto].
  - split_and!; try done. split; [intros _ | done].
    split; [destruct (decide (ap_fd s = -1)); done |].
    apply Hpow. destruct (decide (Z.land value (u32 (value - 1)) = 0)); done.
Qed.

(** The size 4096 is stored, the size 4097 is refused. *)
Lemma kvm_set_dirty_ring_size_power_of_two_witness :
  kvm_set_dirty_ring_size (Some 4096) kvm_accel_instance_init
  = (mkAccelProps (-1) (-1) true false ON_OFF_AUTO_AUTO 4096, false) /\
  kvm_set_dirty_ring_size (Some 4097) kvm_accel_instance_init
  = (kvm_accel_instance_init, true).
Proof.
  pose proof (kvm_set_dirty_ring_size_power_of_two 4096 kvm_accel_instance_init) as H1.
  pose proof (kvm_set_dirty_ring_size_power_of_two 4097 kvm_accel_instance_init) as H2.
  destruct (kvm_set_dirty_ring_size (Some 4096) kvm_accel_instance_init)
    as [s1 f1] eqn:E1.
  destruct (kvm_set_dirty_ring_size (Some 4097) kvm_accel_instance_init)
    as [s2 f2] eqn:E2.
  destruct H1 as (_ & _ & _ & _); [split; lia |].
  destruct H2 as (_ & _ & Hsame & _); [split; lia |].
  split; [rewrite <- E1 | rewrite <- E2]; reflexivity.
Defined.

(** ** Statistics *)

Lemma add_kvmstat_entry_cases pdesc stats_data stats_list :
  add_kvmstat_entry pdesc stats_data stats_list = stats_list \/
  exists value,
    add_kvmstat_entry pdesc stats_data stats_list
    = mkStats (sd_name pdesc) value :: stats_list /\
    add_kvmschema_entry pdesc [] <> [].
Proof.
  unfold add_kvmstat_entry, add_kvmschema_entry.
  repeat (case_bool_decide; cbn [orb negb]; try (by left));
    right; eexists; (split; [reflexivity |]);
    repeat (case_decide; try congruence; try done).
Qed.

Lemma add_kvmschema_entry_cases pdesc list_ :
  (add_kvmschema_entry pdesc list_ = list_ /\ add_kvmschema_entry pdesc [] = []) \/
  exists entry,
    ssv_name entry = sd_name pdesc /\
    forall l, add_kvmschema_entry pdesc l = entry :: l.
Proof.
  unfold add_kvmschema_entry.
  repeat (case_decide; try (by left));
    right; eexists; (split; [| intros l; reflexivity]); reflexivity.
Qed.

Lemma query_stats_schema_list_names (descs : list kvm_stats_desc) (acc : list StatsSchemaValue)
    (name : string) :
  (name ∈ ssv_name <$> acc \/
   exists pdesc, pdesc ∈ descs /\ sd_name pdesc = name /\ add_kvmschema_entry pdesc [] <> [])
  -> name ∈ ssv_name <$> foldl (fun l pdesc => add_kvmschema_entry pdesc l) acc descs.
Proof.
  revert acc. induction descs as [| d descs IH]; intros acc; cbn.
  - intros [H | (p & Hp & _)]; [done | by apply elem_of_nil in Hp].
  - intros H. apply IH.
    destruct (add_kvmschema_entry_cases d acc) as [[Hsame Hnone] | (entry & Hname & Hadd)].
    + rewrite Hsame. destruct H as [H | (p & Hp & Hn & Hin)]; [by left |].
      apply elem_of_cons in Hp as [-> | Hp]; [done | right; eauto].
    + rewrite Hadd. cbn. destruct H as [H | (p & Hp & Hn & Hin)].
      * left. by apply list_elem_of_further.
      * apply elem_of_cons in Hp as [-> | Hp]; [| right; eauto].
        left. rewrite Hname, Hn. apply list_elem_of_here.
Qed.

(** X7: every statistic that a query reports, whatever the name filter
    and the data, is described in the schema built from the same
    descriptors: a descriptor whose type, unit or base the schema leaves
    out is never reported. *)
Theorem query_stats_list_in_schema
    (names : string -> bool) (descs : list kvm_stats_desc)
    (stats_data : Z -> nat -> Z) (st : Stats) :
  st ∈ query_stats_list names descs stats_data ->
  stats_name st ∈ ssv_name <$> query_stats_schema_list descs.
Proof.
  unfold query_stats_list, query_stats_schema_list. intros Hst.
  apply query_stats_schema_list_names. right.
  assert (forall acc,
            st ∈ foldl (fun stats_list pdesc =>
                          if names (sd_name pdesc)
                          then add_kvmstat_entry pdesc (stats_data (sd_offset pdesc)) stats_list
                          else stats_list) acc descs ->
            st ∈ acc \/
            exists pdesc, pdesc ∈ descs /\ sd_name pdesc = stats_name st /\
                          add_kvmschema_entry pdesc [] <> []) as Hgen.
  { clear Hst. induction descs as [| d descs IH]; intros acc; cbn; [by left |].
    intros H. apply IH in H as [H | (p & Hp & Hrest)];
      [| right; exists p; split; [by apply list_elem_of_further | done]].
    destruct (names (sd_name d)); [| by left].
    destruct (add_kvmstat_entry_cases d (stats_data (sd_offset d)) acc)
      as [Hsame | (value & Hadd & Hschema)].
    - rewrite Hsame in H. by left.
    - rewrite Hadd in H. apply elem_of_cons in H as [-> | H]; [| by left].
      right. exists d. split; [apply list_elem_of_here | done]. }
  destruct (Hgen [] Hst) as [H | H]; [by apply elem_of_nil in H | done].
Qed.

(** A cumulative counter and a descriptor of an unknown type: the first
    is reported and described, the second is neither. *)
Lemma query_stats_list_in_schema_witness :
  let descs := [mkStatsDesc 0 0 1 0 0 "exits"; mkStatsDesc 7 0 1 8 0 "odd"]%string in
  let data : Z -> nat -> Z := fun _ _ => 42 in
  query_stats_list (fun _ => true) descs data = [mkStats "exits" (StatsScalar 42)] /\
  "exits"%string ∈ ssv_name <$> query_stats_schema_list descs.
Proof.
  intros descs data. split; [reflexivity |].
  apply (query_stats_list_in_schema (fun _ => true) descs data
           (mkStats "exits" (StatsScalar 42))).
  vm_compute. apply list_elem_of_here.
Defined.

(** ** The slot table: translation and allocation *)

(** X8: the translation of a host address to a guest physical address
    answers 1 exactly when a slot of the table is backed by RAM that
    holds the address, and then the guest address it stores lies in the
    first such slot, at the same distance from the slot's start as the
    host address is from the start of the slot's RAM; free slots never
    match; it answers 0, storing nothing, when no slot holds the
    address. *)
Theorem kvm_physical_memory_addr_from_host_inverse
    (nr_slots_ : Z) (slots : list KVMSlot) (hva : Z) :
  Forall slot_fits slots ->
  match kvm_physical_memory_addr_from_host nr_slots_ slots hva with
  | (ret, Some gpa) =>
    ret = 1 /\
    exists (i : nat) mem,
      Z.of_nat i < nr_slots_ /\ slots !! i = Some mem /\ backs mem hva /\
      memory_size mem <> 0 /\
      start_addr mem <= gpa < start_addr mem + memory_size mem /\
      gpa - start_addr mem = hva - ram mem /\
      forall (j : nat) mem', (j < i)%nat -> slots !! j = Some mem' -> ~ backs mem' hva
  | (ret, None) =>
    ret = 0 /\
    forall (i : nat) mem,
      Z.of_nat i < nr_slots_ -> slots !! i = Some mem -> ~ backs mem hva
  end.
Proof.
  intros Hfits. unfold kvm_physical_memory_addr_from_host.
  destruct (list_find _ _) as [[i mem] |] eqn:Hfind.
  - apply list_find_Some in Hfind as (Hl & [Hge Hlt] & Hfirst).
    apply lookup_take_Some in Hl as [Hl Hi].
    assert (slot_fits mem) as (Hs0 & Hm0 & Hfit).
    { rewrite Forall_forall in Hfits. apply Hfits. eapply list_elem_of_lookup_2, Hl. }
    split; [done |]. exists i, mem.
    rewrite u64_small by (unfold in_u64; lia).
    split_and!; try done; try lia; [unfold backs; lia |].
    intros j mem' Hj Hl' Hb. apply (Hfirst j mem'); [| done | unfold backs in Hb; lia].
    apply lookup_take_Some. split; [done | lia].
  - split; [done |]. intros i mem Hi Hl Hb.
    eapply list_find_None in Hfind. rewrite Forall_forall in Hfind.
    apply (Hfind mem); [| unfold backs in Hb; lia].
    eapply list_elem_of_lookup_2. apply lookup_take_Some. split; [exact Hl | lia].
Qed.

(** Two slots of one page each: an address in the RAM of the second one
    is translated into the second slot, an address outside both is
    not. *)
Lemma kvm_physical_memory_addr_from_host_inverse_witness :
  let slots := [mkKVMSlot 4096 4096 1048576 0 0 0 None 0 0 0;
                mkKVMSlot 65536 4096 2097152 1 0 0 None 0 0 0] in
  kvm_physical_memory_addr_from_host 2 slots 2097160 = (1, Some 65544) /\
  kvm_physical_memory_addr_from_host 2 slots 3145728 = (0, None).
Proof.
  intros slots.
  assert (Forall slot_fits slots) as Hfits
    by (repeat constructor; cbn; lia).
  pose proof (kvm_physical_memory_addr_from_host_inverse 2 slots 2097160 Hfits) as H1.
  pose proof (kvm_physical_memory_addr_from_host_inverse 2 slots 3145728 Hfits) as H2.
  destruct (kvm_physical_memory_addr_from_host 2 slots 2097160) as [r1 [g1 |]] eqn:E1;
    destruct (kvm_physical_memory_addr_from_host 2 slots 3145728) as [r2 [g2 |]] eqn:E2;
    try discriminate E1; try discriminate E2.
  split; [rewrite <- E1 | rewrite <- E2]; reflexivity.
Defined.

(** ** The dirty bitmap of a slot *)

Lemma ALIGN_64 (x : Z) :
  0 <= x -> x + 63 < 2 ^ 64 -> ALIGN x 64 = 64 * ((x + 63) / 64).
Proof.
  intros Hx Hfit. unfold ALIGN.
  replace (Z.lnot (64 - 1)) with (- 2 ^ 6) by done.
  replace (x + 64 - 1) with (x + 63) by lia.
  rewrite (u64_small (x + 63)) by (unfold in_u64; lia).
  rewrite land_page_mask by (unfold in_u64; lia). done.
Qed.

(** X9: when logging is requested for a slot that has no bitmap yet,
    the bitmap that is allocated is zeroed, holds whole 64-bit words,
    one bit for every page of the slot and less than 64 bits more, and
    the recorded size is its size in bytes; a slot of no page gets no
    bitmap and the size 0.  A slot that has a bitmap, or for which
    logging is not requested, is left as it is, and allocating twice is
    allocating once. *)
Theorem kvm_slot_init_dirty_bitmap_covers (k : Z) (mem : KVMSlot) :
  0 <= k < 64 -> 0 <= memory_size mem ->
  memory_size mem / 2 ^ k + 63 < 2 ^ 64 ->
  let psize := 2 ^ k in
  let pages := memory_size mem / psize in
  let mem' := kvm_slot_init_dirty_bitmap psize mem in
  (Z.land (flags mem) KVM_MEM_LOG_DIRTY_PAGES <> 0 -> dirty_bmap mem = None ->
   (pages = 0 /\ mem' = set_dirty_bmap None 0 mem) \/
   (0 < pages /\
    exists bm,
      mem' = set_dirty_bmap (Some bm) (8 * Z.of_nat (length bm)) mem /\
      Forall (fun w => w = 0) bm /\
      pages <= 64 * Z.of_nat (length bm) < pages + 64)) /\
  (Z.land (flags mem) KVM_MEM_LOG_DIRTY_PAGES = 0 \/ is_Some (dirty_bmap mem) ->
   mem' = mem) /\
  kvm_slot_init_dirty_bitmap psize mem' = mem'.
Proof.
  intros Hk Hsz Hfit psize pages mem'.
  assert (0 < psize) as HP by (apply pow2_pos; lia).
  assert (0 <= pages) as Hpages by (apply Z.div_pos; lia).
  assert (ALIGN pages 64 / 8 = 8 * ((pages + 63) / 64)) as Hbytes.
  { rewrite ALIGN_64 by done.
    replace (64 * ((pages + 63) / 64)) with (8 * ((pages + 63) / 64) * 8) by lia.
    by rewrite Z.div_mul. }
  assert (ALIGN pages 64 / 8 / 8 = (pages + 63) / 64) as Hwords.
  { rewrite Hbytes. rewrite Z.mul_comm. by rewrite Z.div_mul. }
  assert (0 <= (pages + 63) / 64) as Hw0 by (apply Z.div_pos; lia).
  pose proof (Z.div_mod (pages + 63) 64 ltac:(lia)) as Hdm.
  pose proof (Z.mod_pos_bound (pages + 63) 64 ltac:(lia)) as Hmb.
  subst mem'. unfold kvm_slot_init_dirty_bitmap. fold pages.
  split_and!.
  - intros Hlog Hnone. rewrite Hnone.
    rewrite bool_decide_eq_false_2 by done.
    rewrite bool_decide_eq_false_2 by (intros [? ?]; done). cbn [orb].
    rewrite Hwords, Hbytes.
    destruct (decide (8 * ((pages + 63) / 64) = 0)) as [Hzero | Hzero].
    + left. split; [lia |]. by rewrite Hzero.
    + right. split; [lia |]. eexists. split; [| split].
      * f_equal. rewrite length_replicate. lia.
      * apply Forall_replicate. done.
      * rewrite length_replicate. lia.
  - intros [Hoff | Hhas].
    + by rewrite bool_decide_eq_true_2.
    + rewrite (bool_decide_eq_true_2 (is_Some _)) by done. by rewrite orb_true_r.
  - destruct (bool_decide (Z.land (flags mem) KVM_MEM_LOG_DIRTY_PAGES = 0)) eqn:Hoff;
      cbn [orb].
    + by rewrite Hoff.
    + destruct (bool_decide (is_Some (dirty_bmap mem))) eqn:Hhas.
      * by rewrite Hoff, Hhas.
      * rewrite Hbytes.
        destruct (decide (8 * ((pages + 63) / 64) = 0)) as [Hzero | Hzero].
        -- cbn [set_dirty_bmap flags dirty_bmap memory_size].
           rewrite Hoff. cbn [orb bool_decide]. fold pages.
           rewrite bool_decide_eq_false_2 by (intros [? ?]; done).
           rewrite Hbytes. rewrite decide_True by done. done.
        -- cbn [set_dirty_bmap flags dirty_bmap]. rewrite Hoff.
           rewrite (bool_decide_eq_true_2 (is_Some _)) by done. done.
Qed.

(** A slot of 100 pages of 4 KiB: two words, 16 bytes. *)
Lemma kvm_slot_init_dirty_bitmap_covers_witness :
  let mem := mkKVMSlot 0 (100 * 4096) 0 0 KVM_MEM_LOG_DIRTY_PAGES 0 None 0 0 0 in
  kvm_slot_init_dirty_bitmap (2 ^ 12) mem = set_dirty_bmap (Some [0; 0]) 16 mem.
Proof.
  intros mem.
  destruct (kvm_slot_init_dirty_bitmap_covers 12 mem) as [Hnew _];
    [lia | discriminate | reflexivity |].
  destruct Hnew as [[Hzero _] | (_ & bm & Heq & _)];
    [discriminate | reflexivity | discriminate |].
  rewrite Heq. vm_compute in Heq. injection Heq as <-. reflexivity.
Defined.

(** ** What a slot update leaves in the slot and in the high-water mark *)

Lemma set_region_finish_slot ret slot_ used calls :
  sr_slot (set_region_finish ret slot_ used calls) = slot_.
Proof. unfold set_region_finish. by repeat case_decide. Qed.

Lemma set_region_finish_used ret slot_ used calls :
  sr_used_memslots (set_region_finish ret slot_ used calls)
  = if decide (0 <= ret /\ slot slot_ < HYPERUPCALL_MAX_N_MEMSLOTS)
    then Z.max used (slot slot_) else used.
Proof. unfold set_region_finish. repeat case_decide; cbn; lia. Qed.

(** X10: a slot update changes nothing in the slot but the record of
    the flags last sent, and refreshes that record whenever the call
    with the final state was issued, even if the kernel refused it; it
    is left alone only when the size-0 call of a two-step update fails.
    The high-water mark of slot indices never decreases: it becomes
    the larger of its value and the slot's index when the update
    succeeds on a slot below the export capacity, and is unchanged in
    every other case. *)
Theorem kvm_set_user_memory_region_bookkeeping
    (ioctl : kvm_userspace_memory_region -> Z) (kml_as_id : Z)
    (slot_ : KVMSlot) (new : bool) (used : Z) :
  let r := kvm_set_user_memory_region ioctl kml_as_id slot_ new used in
  let two_step := memory_size slot_ <> 0 /\ new = false /\ readonly_flipped slot_ in
  (two_step /\ ioctl (slot_set_zero kml_as_id slot_) < 0 -> sr_slot r = slot_) /\
  (~ (two_step /\ ioctl (slot_set_zero kml_as_id slot_) < 0) ->
   sr_slot r = set_old_flags (flags slot_) slot_) /\
  used <= sr_used_memslots r /\
  sr_used_memslots r
  = (if decide (0 <= sr_ret r /\ slot slot_ < HYPERUPCALL_MAX_N_MEMSLOTS)
     then Z.max used (slot slot_) else used).
Proof.
  intros r two_step. subst r two_step.
  unfold kvm_set_user_memory_region, readonly_flipped, slot_set_zero.
  cbn [um_flags with_memory_size um_slot um_guest_phys_addr um_userspace_addr].
  destruct (bool_decide (memory_size slot_ <> 0)) eqn:Hsz; cbn [andb];
    [apply bool_decide_eq_true in Hsz | apply bool_decide_eq_false in Hsz].
  2: { rewrite set_region_finish_slot, set_region_finish_used, set_region_finish_ret.
       cbn [slot set_old_flags].
       split_and!; [tauto | done | case_decide; lia | done]. }
  destruct new; cbn [negb andb].
  { rewrite set_region_finish_slot, set_region_finish_used, set_region_finish_ret.
    cbn [slot set_old_flags].
    split_and!; [intros [(_ & ? & _) _]; done | done | case_decide; lia | done]. }
  destruct (bool_decide (Z.land (Z.lxor (flags slot_) (old_flags slot_))
                                KVM_MEM_READONLY <> 0)) eqn:Hro;
    [apply bool_decide_eq_true in Hro | apply bool_decide_eq_false in Hro].
  2: { rewrite set_region_finish_slot, set_region_finish_used, set_region_finish_ret.
       cbn [slot set_old_flags].
       split_and!; [tauto | done | case_decide; lia | done]. }
  set (zero := mkUserMem _ _ _ 0 _).
  destruct (decide (ioctl zero < 0)) as [Hfail | Hok];
    rewrite set_region_finish_slot, set_region_finish_used, set_region_finish_ret;
    cbn [slot set_old_flags].
  - split_and!; [done | tauto | case_decide; lia | done].
  - split_and!; [tauto | done | case_decide; lia | done].
Qed.

(** ** The request a clear sends to the kernel *)

Lemma test_bit_bitmap_new (n i : Z) : test_bit i (bitmap_new n) = false.
Proof.
  unfold test_bit, bitmap_new, word_at.
  destruct (replicate _ 0 !! _) as [w |] eqn:Hw; cbn.
  - apply lookup_replicate in Hw as [-> _]. apply Z.bits_0.
  - apply Z.bits_0.
Qed.

Lemma test_bit_drop (w i : Z) (bm : list Z) :
  0 <= w -> 0 <= i -> test_bit i (drop (Z.to_nat w) bm) = test_bit (64 * w + i) bm.
Proof.
  intros Hw Hi. unfold test_bit, word_at, BIT_WORD, BITS_PER_LONG.
  rewrite lookup_drop.
  replace ((64 * w + i) / 64) with (w + i / 64)
    by (rewrite Z.mul_comm, Z.div_add_l by lia; done).
  replace ((64 * w + i) mod 64) with (i mod 64)
    by (rewrite Z.add_comm, Z.mul_comm, Z.mod_add by lia; done).
  assert (0 <= i / 64) by (apply Z.div_pos; lia).
  replace (Z.to_nat w + Z.to_nat (i / 64))%nat with (Z.to_nat (w + i / 64)) by lia.
  done.
Qed.

Lemma test_bit_assign_all (f : Z -> bool) (l : list Z) (i : Z) (bm : list Z) :
  0 <= i -> Forall (fun j => 0 <= j < 64 * Z.of_nat (length bm)) l ->
  test_bit i (foldl (fun d j => assign_bit j (f j) d) bm l) =
    if decide (i ∈ l) then f i else test_bit i bm.
Proof.
  intros Hi. revert bm. induction l as [| j l IH]; intros bm Hall.
  - cbn. destruct (decide (i ∈ [])) as [Hin | _]; [by apply elem_of_nil in Hin | done].
  - apply Forall_cons in Hall as [Hj Hall]. cbn [foldl].
    assert (length (assign_bit j (f j) bm) = length bm) as Hlen.
    { unfold assign_bit. destruct (f j); [apply length_set_bit | apply length_clear_bit]. }
    rewrite IH by (by rewrite Hlen).
    assert (test_bit i (assign_bit j (f j) bm)
            = if decide (i = j) then f j else test_bit i bm) as Hone.
    { unfold assign_bit. destruct (f j).
      - apply test_bit_set_bit; lia.
      - apply test_bit_clear_bit; lia. }
    rewrite Hone.
    destruct (decide (i ∈ l)) as [Hin | Hnin].
    + rewrite decide_True by (by apply list_elem_of_further). done.
    + destruct (decide (i = j)) as [-> | Hne].
      * rewrite decide_True by apply list_elem_of_here. done.
      * rewrite decide_False; [done |].
        intros Hin. apply elem_of_cons in Hin as [? | ?]; done.
Qed.

Lemma test_bit_bitmap_copy (dst src : list Z) (shift nbits i : Z) :
  0 <= i -> nbits <= 64 * Z.of_nat (length dst) ->
  test_bit i (bitmap_copy_with_src_offset dst src shift nbits) =
    if decide (i < nbits) then test_bit (shift + i) src else test_bit i dst.
Proof.
  intros Hi Hfit. unfold bitmap_copy_with_src_offset.
  rewrite (test_bit_assign_all (fun j => test_bit (shift + j) src)); [| done |].
  - destruct (decide (i ∈ seqZ 0 nbits)) as [Hin | Hnin].
    + apply elem_of_seqZ in Hin. by rewrite decide_True by lia.
    + rewrite decide_False; [done |]. intros Hlt. apply Hnin, elem_of_seqZ. lia.
  - apply Forall_forall. intros j Hj. apply elem_of_seqZ in Hj. lia.
Qed.

Lemma clear_geometry (k : Z) (mem : KVMSlot) (start size_ : Z) :
  clear_request_ok k mem start size_ ->
  let first := clear_first_page k start in
  let pad := clear_padding k start in
  let n := clear_num_pages k mem start size_ in
  first mod 64 = 0 /\ 0 <= first /\ 0 <= pad < 64 /\
  first + pad = start / 2 ^ k /\
  0 <= size_ / 2 ^ k /\
  pad + size_ / 2 ^ k <= n /\
  first + n <= memory_size mem / 2 ^ k /\
  (n mod 64 = 0 \/ first + n = memory_size mem / 2 ^ k).
Proof.
  intros (Hk & Hs & Hz & Hin & Hfit & H32) first pad n.
  subst first pad n. unfold clear_first_page, clear_padding, clear_num_pages.
  unfold clear_first_page.
  assert (HA : 2 ^ (k + 6) = 2 ^ k * 64) by (rewrite Z.pow_add_r by lia; done).
  set (psize := 2 ^ k) in *. set (A := 2 ^ (k + 6)) in *.
  assert (HP : 0 < psize) by (apply pow2_pos; lia).
  assert (HAp : 0 < A) by lia.
  set (q := start / A).
  assert (Hq : 0 <= q) by (apply Z.div_pos; lia).
  pose proof (Z.div_mod start A ltac:(lia)) as Hdm. fold q in Hdm.
  pose proof (Z.mod_pos_bound start A HAp) as Hmb.
  set (sd := start mod A) in *.
  assert (Hsp : start / psize = 64 * q + sd / psize).
  { replace start with ((64 * q) * psize + sd) at 1 by lia.
    rewrite Z.div_add_l by lia. done. }
  assert (Hsd0 : 0 <= sd / psize) by (apply Z.div_pos; lia).
  assert (Hsd64 : sd / psize < 64) by (apply Z.div_lt_upper_bound; lia).
  assert (Hsz0 : 0 <= size_ / psize) by (apply Z.div_pos; lia).
  set (c := (size_ + sd + A - 1) / A).
  assert (Hc : size_ + sd <= A * c).
  { subst c. pose proof (Z.div_mod (size_ + sd + A - 1) A ltac:(lia)).
    pose proof (Z.mod_pos_bound (size_ + sd + A - 1) A HAp). lia. }
  assert (Hsum : sd / psize + size_ / psize <= (size_ + sd) / psize).
  { pose proof (Z.div_mod sd psize ltac:(lia)).
    pose proof (Z.div_mod size_ psize ltac:(lia)).
    pose proof (Z.mod_pos_bound sd psize HP).
    pose proof (Z.mod_pos_bound size_ psize HP).
    apply Z.div_le_lower_bound; [lia |]. lia. }
  assert (Hcov0 : (size_ + sd) / psize <= 64 * c).
  { apply Z.div_le_upper_bound; [lia |]. lia. }
  assert (Hend : (start + size_) / psize <= memory_size mem / psize)
    by (apply Z.div_le_mono; lia).
  assert (Hss : 64 * q + (size_ + sd) / psize = (start + size_) / psize).
  { replace (start + size_) with ((64 * q) * psize + (size_ + sd)) by lia.
    rewrite Z.div_add_l by lia. done. }
  split_and!.
  - rewrite Z.mul_comm. apply Z.mod_mul. lia.
  - lia.
  - lia.
  - lia.
  - lia.
  - done.
  - apply Z.min_glb; lia.
  - pose proof (Z.le_min_r (64 * c) (memory_size mem / psize - 64 * q)). lia.
  - destruct (Z.min_spec (64 * c) (memory_size mem / psize - 64 * q)) as [[_ ->] | [_ ->]].
    + left. rewrite Z.mul_comm. apply Z.mod_mul. lia.
    + right. lia.
Qed.

Lemma clear_request_value (k : Z) (ioctl : kvm_clear_dirty_log -> Z) (mem : KVMSlot)
    (as_id_ start size_ : Z) (bm : list Z) :
  clear_request_ok k mem start size_ -> dirty_bmap mem = Some bm ->
  let first := clear_first_page k start in
  let pad := clear_padding k start in
  let n := clear_num_pages k mem start size_ in
  let bitmap :=
    if bool_decide (pad <> 0) || bool_decide (n - size_ / 2 ^ k <> 0)
    then bitmap_clear
           (bitmap_copy_with_src_offset (bitmap_new n) bm first (pad + size_ / 2 ^ k))
           0 pad
    else drop (Z.to_nat (first / 64)) bm in
  let d := mkClearLog (Z.lor (slot mem) (Z.shiftl as_id_ 16)) n first bitmap in
  exists res,
    kvm_log_clear_one_slot (2 ^ k) ioctl mem as_id_ start size_ = Some res /\
    cr_request res = d /\
    cr_ret res = (if decide (ioctl d < 0 /\ ioctl d <> - ENOENT) then ioctl d else 0) /\
    cr_slot res
    = set_dirty_bmap (Some (bitmap_clear bm (start / 2 ^ k) (size_ / 2 ^ k)))
                     (dirty_bmap_size mem) mem.
Proof.
  intros Hok Hbm first pad n bitmap d.
  destruct (clear_geometry k mem start size_ Hok)
    as (Hal & Hf0 & Hpad & Hfp & Hsz0 & Hcov & Hend & _).
  fold first pad n in Hal, Hf0, Hpad, Hfp, Hcov, Hend.
  destruct Hok as (Hk & Hs & Hz & Hin & Hfit & H32).
  assert (HA : 2 ^ (k + 6) = 2 ^ k * 64) by (rewrite Z.pow_add_r by lia; done).
  assert (HP : 0 < 2 ^ k) by (apply pow2_pos; lia).
  assert (Hsu : in_u64 start) by (unfold in_u64; lia).
  pose proof (Z.div_mod start (2 ^ (k + 6)) ltac:(lia)) as Hdm.
  pose proof (Z.mod_pos_bound start (2 ^ (k + 6)) ltac:(lia)) as Hmb.
  assert (Hland : Z.land start (KVM_CLEAR_LOG_MASK (2 ^ k))
                  = 2 ^ (k + 6) * (start / 2 ^ (k + 6))).
  { unfold KVM_CLEAR_LOG_MASK. rewrite clear_log_align_pow2 by done.
    apply land_page_mask; [lia | done]. }
  assert (Hq : 0 <= start / 2 ^ (k + 6)) by (apply Z.div_pos; lia).
  assert (Hfirst : Z.land start (KVM_CLEAR_LOG_MASK (2 ^ k)) / 2 ^ k = first).
  { rewrite Hland, HA. subst first. unfold clear_first_page. rewrite HA.
    rewrite <- Z.mul_assoc, Z.mul_comm, Z.div_mul by lia. lia. }
  assert (Hdelta : u64 (start - Z.land start (KVM_CLEAR_LOG_MASK (2 ^ k)))
                   = start mod 2 ^ (k + 6)).
  { rewrite Hland.
    replace (start - 2 ^ (k + 6) * (start / 2 ^ (k + 6))) with (start mod 2 ^ (k + 6)) by lia.
    apply u64_small. unfold in_u64. lia. }
  assert (Hpadv : start mod 2 ^ (k + 6) / 2 ^ k = pad).
  { subst pad. unfold clear_padding. fold first.
    replace start with ((first * 2 ^ k) + start mod 2 ^ (k + 6)) at 2
      by (subst first; unfold clear_first_page; lia).
    rewrite Z.div_add_l by lia. lia. }
  unfold kvm_log_clear_one_slot. cbv zeta.
  rewrite Hfirst, Hdelta, Hpadv.
  rewrite (u64_small (size_ + _)) by (unfold in_u64; lia).
  unfold DIV_ROUND_UP. rewrite clear_log_align_pow2 by done.
  rewrite (u64_small (size_ + _ + _ - 1)) by (unfold in_u64; lia).
  unfold KVM_CLEAR_LOG_SHIFT. rewrite Z.shiftl_mul_pow2 by lia.
  set (c := (size_ + start mod 2 ^ (k + 6) + 2 ^ (k + 6) - 1) / 2 ^ (k + 6)).
  assert (Hc0 : 0 <= c) by (apply Z.div_pos; lia).
  assert (Hcb : 2 ^ (k + 6) * c <= size_ + start mod 2 ^ (k + 6) + 2 ^ (k + 6) - 1).
  { subst c. apply Z.mul_div_le. lia. }
  rewrite (u64_small (c * 2 ^ 6)) by (unfold in_u64; nia).
  assert (Hn0 : 0 <= n) by lia.
  rewrite (u64_small (memory_size mem / 2 ^ k - first)) by (unfold in_u64, UINT32_MAX in *; lia).
  assert (Hn : (if decide (c * 2 ^ 6 > memory_size mem / 2 ^ k - first)
                then memory_size mem / 2 ^ k - first else c * 2 ^ 6) = n).
  { subst n. unfold clear_num_pages. fold first c. case_decide; lia. }
  rewrite Hn.
  rewrite decide_False by (unfold BITS_PER_LONG; lia).
  rewrite Hbm. cbn [mbind option_bind].
  rewrite decide_False by lia.
  rewrite (u64_small (n - _)) by (unfold in_u64, UINT32_MAX in *; lia).
  rewrite (u64_small (pad + _)) by (unfold in_u64, UINT32_MAX in *; lia).
  rewrite (u64_small (first + pad)) by (unfold in_u64, UINT32_MAX in *; lia).
  rewrite Hfp.
  unfold BIT_WORD, BITS_PER_LONG.
  eexists. split; [reflexivity |]. cbn [cr_request cr_ret cr_slot]. done.
Qed.

(** X11: a clear request that lies inside a slot reaches the kernel in
    the shape the kernel demands.  The first page is a multiple of 64
    pages, at most 63 pages before the caller's first page; the page
    count is a multiple of 64 or runs to the end of the slot; the pages
    handed over cover the caller's pages and stay inside the slot; the
    slot id carries the address space in its upper half.  A negative
    answer of the kernel other than -ENOENT is returned as it is, every
    other answer as 0. *)
Theorem kvm_log_clear_one_slot_request
    (k : Z) (ioctl : kvm_clear_dirty_log -> Z) (mem : KVMSlot)
    (as_id_ start size_ : Z) (bm : list Z) :
  clear_request_ok k mem start size_ -> dirty_bmap mem = Some bm ->
  exists res,
    kvm_log_clear_one_slot (2 ^ k) ioctl mem as_id_ start size_ = Some res /\
    let d := cr_request res in
    let pages := memory_size mem / 2 ^ k in
    cl_slot d = Z.lor (slot mem) (Z.shiftl as_id_ 16) /\
    cl_first_page d mod 64 = 0 /\
    (cl_num_pages d mod 64 = 0 \/ cl_first_page d + cl_num_pages d = pages) /\
    0 <= cl_first_page d <= start / 2 ^ k /\
    start / 2 ^ k < cl_first_page d + 64 /\
    start / 2 ^ k + size_ / 2 ^ k <= cl_first_page d + cl_num_pages d <= pages /\
    cr_ret res = (if decide (ioctl d < 0 /\ ioctl d <> - ENOENT) then ioctl d else 0).
Proof.
  intros Hok Hbm.
  destruct (clear_request_value k ioctl mem as_id_ start size_ bm Hok Hbm)
    as (res & Hres & Hreq & Hret & _).
  destruct (clear_geometry k mem start size_ Hok)
    as (Hal & Hf0 & Hpad & Hfp & Hsz0 & Hcov & Hend & Hshape).
  exists res. split; [done |]. cbv zeta. rewrite Hret, Hreq.
  cbn [cl_slot cl_first_page cl_num_pages].
  split_and!; try done; lia.
Qed.

(** Pages 3 to 72 of a 128-page slot: the kernel is asked for pages 0
    to 127.  Pages 70 to 99 of a 100-page slot: the kernel is asked for
    pages 64 to 99, up to the end of the slot. *)
Lemma kvm_log_clear_one_slot_request_witness :
  let big := mkKVMSlot 0 (128 * 4096) 0 5 1 1 (Some [1; 1]) 16 0 0 in
  let small := mkKVMSlot 0 (100 * 4096) 0 5 1 1 (Some [1; 1]) 16 0 0 in
  (exists res,
     kvm_log_clear_one_slot (2 ^ 12) (fun _ => 0) big 1 (3 * 4096) (70 * 4096) = Some res /\
     cl_slot (cr_request res) = 65541 /\
     cl_first_page (cr_request res) = 0 /\ cl_num_pages (cr_request res) = 128) /\
  (exists res,
     kvm_log_clear_one_slot (2 ^ 12) (fun _ => -5) small 1 (70 * 4096) (30 * 4096) = Some res /\
     cl_first_page (cr_request res) = 64 /\ cl_num_pages (cr_request res) = 36 /\
     cr_ret res = -5).
Proof.
  intros big small.
  destruct (kvm_log_clear_one_slot_request 12 (fun _ => 0) big 1 (3 * 4096) (70 * 4096) [1; 1])
    as (res1 & Hres1 & _); [by vm_compute | reflexivity |].
  destruct (kvm_log_clear_one_slot_request 12 (fun _ => -5) small 1 (70 * 4096) (30 * 4096) [1; 1])
    as (res2 & Hres2 & _); [by vm_compute | reflexivity |].
  split.
  - exists res1. split; [exact Hres1 |]. vm_compute in Hres1.
    injection Hres1 as <-. by vm_compute.
  - exists res2. split; [exact Hres2 |]. vm_compute in Hres2.
    injection Hres2 as <-. by vm_compute.
Defined.

(** X12: the bitmap a clear hands to the kernel never shows a page the
    caller did not name.  Among the pages of the request, a bit is set
    exactly when the page lies in the caller's range and is dirty in the
    slot's cached bitmap; the padding that aligns the request to 64
    pages, in front of the range and behind it, reads as clean, on the
    path through the temporary copy as on the path that points into the
    cached bitmap. *)
Theorem kvm_log_clear_one_slot_bitmap
    (k : Z) (ioctl : kvm_clear_dirty_log -> Z) (mem : KVMSlot)
    (as_id_ start size_ : Z) (bm : list Z) :
  clear_request_ok k mem start size_ -> dirty_bmap mem = Some bm ->
  exists res,
    kvm_log_clear_one_slot (2 ^ k) ioctl mem as_id_ start size_ = Some res /\
    let d := cr_request res in
    forall i, 0 <= i < cl_num_pages d ->
      test_bit i (cl_dirty_bitmap d) =
        if decide (start / 2 ^ k <= cl_first_page d + i < start / 2 ^ k + size_ / 2 ^ k)
        then test_bit (cl_first_page d + i) bm
        else false.
Proof.
  intros Hok Hbm.
  destruct (clear_request_value k ioctl mem as_id_ start size_ bm Hok Hbm)
    as (res & Hres & Hreq & _).
  destruct (clear_geometry k mem start size_ Hok)
    as (Hal & Hf0 & Hpad & Hfp & Hsz0 & Hcov & Hend & _).
  exists res. split; [done |]. cbv zeta. rewrite Hreq.
  cbn [cl_first_page cl_num_pages cl_dirty_bitmap].
  set (first := clear_first_page k start) in *.
  set (pad := clear_padding k start) in *.
  set (n := clear_num_pages k mem start size_) in *.
  intros i Hi.
  destruct (bool_decide (pad <> 0) || bool_decide (n - size_ / 2 ^ k <> 0)) eqn:Hpath.
  - rewrite test_bit_bitmap_clear by lia.
    destruct (decide (0 <= i < 0 + pad)) as [Hin | Hout].
    + rewrite decide_False by lia. done.
    + rewrite test_bit_bitmap_copy; [| lia |].
      * destruct (decide (i < pad + size_ / 2 ^ k)).
        -- rewrite decide_True by lia. done.
        -- rewrite decide_False by lia. apply test_bit_bitmap_new.
      * destruct (decide (0 < n)) as [Hpos | Hzero];
          [pose proof (bitmap_new_covers n Hpos) |]; lia.
  - apply orb_false_iff in Hpath as [Hp Hn].
    apply bool_decide_eq_false in Hp, Hn.
    assert (pad = 0) as Hp0 by lia. assert (n = size_ / 2 ^ k) as Hnsz by lia.
    rewrite decide_True by lia.
    rewrite test_bit_drop; [| apply Z.div_pos; lia | lia].
    f_equal. pose proof (Z.div_mod first 64 ltac:(lia)). lia.
Qed.

(** Pages 3 to 5 of a slot whose pages 0 to 7 are all dirty: the kernel
    is shown pages 3, 4 and 5 as dirty, and pages 2 and 6 as clean. *)
Lemma kvm_log_clear_one_slot_bitmap_witness :
  let mem := mkKVMSlot 0 (128 * 4096) 0 0 1 1 (Some [255; 0]) 16 0 0 in
  exists res,
    kvm_log_clear_one_slot (2 ^ 12) (fun _ => 0) mem 0 (3 * 4096) (3 * 4096) = Some res /\
    test_bit 2 (cl_dirty_bitmap (cr_request res)) = false /\
    test_bit 3 (cl_dirty_bitmap (cr_request res)) = true /\
    test_bit 5 (cl_dirty_bitmap (cr_request res)) = true /\
    test_bit 6 (cl_dirty_bitmap (cr_request res)) = false.
Proof.
  intros mem.
  destruct (kvm_log_clear_one_slot_bitmap 12 (fun _ => 0) mem 0 (3 * 4096) (3 * 4096) [255; 0])
    as (res & Hres & Hbits); [by vm_compute | reflexivity |].
  exists res. split; [exact Hres |].
  assert (cl_num_pages (cr_request res) = 64 /\ cl_first_page (cr_request res) = 0)
    as [Hn Hf].
  { vm_compute in Hres. injection Hres as <-. by vm_compute. }
  cbv zeta in Hbits. rewrite Hn, Hf in Hbits.
  rewrite (Hbits 2), (Hbits 3), (Hbits 5), (Hbits 6) by lia.
  by vm_compute.
Defined.

(** ** Clearing the dirty log of a section *)










(** ** Switching dirty logging on and off *)




(** ** From the dirty ring to the bitmaps *)

Lemma registered_id_decode (as_id_ slot_id : Z) :
  0 <= as_id_ -> 0 <= slot_id < 2 ^ 16 ->
  Z.shiftr (registered_id as_id_ slot_id) 16 = as_id_ /\
  Z.land (registered_id as_id_ slot_id) 65535 = slot_id.
Proof.
  intros Ha Hb. unfold registered_id. split.
  - rewrite Z.shiftr_lor, Z.shiftr_shiftl_l by lia. rewrite Z.sub_diag, Z.shiftl_0_r.
    rewrite Z.shiftr_div_pow2 by lia. rewrite Z.div_small by lia. apply Z.lor_0_l.
  - change 65535 with (Z.ones 16). rewrite Z.land_lor_distr_l.
    rewrite (Z.land_ones slot_id) by lia. rewrite Z.mod_small by lia.
    rewrite Z.land_ones by lia. rewrite Z.shiftl_mul_pow2 by lia.
    rewrite Z.mod_mul by lia. apply Z.lor_0_r.
Qed.

Lemma registered_id_is_slot_set (kml_as_id : Z) (mem : KVMSlot) :
  um_slot (slot_set_final kml_as_id mem) = registered_id kml_as_id (slot mem).
Proof. done. Qed.

Lemma slot_at_mark_page (psize : Z) (s : KVMState) (a b c a' b' : Z) (mem' : KVMSlot) :
  slot_at s a' b' = Some mem' ->
  exists mem'',
    slot_at (kvm_dirty_ring_mark_page psize s a b c) a' b' = Some mem'' /\
    (mem'' = mem' \/ mem'' = mark_slot c mem').
Proof.
  intros Hat. unfold kvm_dirty_ring_mark_page.
  case_decide; [by eauto |].
  destruct (as_ml s !! Z.to_nat a) as [kml |] eqn:Hkml; [| by eauto].
  destruct (kml_slots kml !! Z.to_nat b) as [mem |] eqn:Hmem; [| by eauto].
  destruct (_ || _); [by eauto |].
  unfold slot_at in *. cbn [as_ml].
  destruct (decide (Z.to_nat a' = Z.to_nat a)) as [Ha | Ha].
  - rewrite Ha in *. rewrite Hkml in Hat. cbn in Hat.
    rewrite list_lookup_insert_eq by (by eapply lookup_lt_Some). cbn.
    destruct (decide (Z.to_nat b' = Z.to_nat b)) as [Hb | Hb].
    + rewrite Hb in *. rewrite Hmem in Hat. injection Hat as <-.
      rewrite list_lookup_insert_eq by (by eapply lookup_lt_Some). eauto.
    + rewrite list_lookup_insert_ne by done. eauto.
  - rewrite list_lookup_insert_ne by done. eauto.
Qed.

Lemma slot_at_mark_page_same (psize : Z) (s : KVMState) (a b c : Z) (mem : KVMSlot) :
  0 <= a < nr_as s -> slot_at s a b = Some mem ->
  memory_size mem <> 0 -> c < memory_size mem / psize ->
  slot_at (kvm_dirty_ring_mark_page psize s a b c) a b = Some (mark_slot c mem).
Proof.
  intros Ha Hat Hsz Hc. unfold kvm_dirty_ring_mark_page.
  rewrite decide_False by lia. unfold slot_at in *.
  destruct (as_ml s !! Z.to_nat a) as [kml |] eqn:Hkml; [| done]. cbn in Hat.
  rewrite Hat. rewrite !bool_decide_eq_false_2 by lia. cbn [orb as_ml].
  rewrite list_lookup_insert_eq by (by eapply lookup_lt_Some). cbn.
  rewrite list_lookup_insert_eq by (by eapply lookup_lt_Some). done.
Qed.

Lemma mark_page_nr_as psize s a b c :
  nr_as (kvm_dirty_ring_mark_page psize s a b c) = nr_as s.
Proof.
  unfold kvm_dirty_ring_mark_page. repeat case_match; done.
Qed.

Lemma page_marked_mark_page psize s a b c a' b' c' :
  page_marked s a' b' c' -> page_marked (kvm_dirty_ring_mark_page psize s a b c) a' b' c'.
Proof.
  intros (mem & bm & Hat & Hbm & Hbit).
  destruct (slot_at_mark_page psize s a b c a' b' mem Hat) as (mem'' & Hat' & [-> | ->]).
  - exists mem, bm. done.
  - exists (mark_slot c mem), (set_bit c bm). split; [done |].
    unfold mark_slot. cbn. rewrite Hbm. split; [done |].
    by apply test_bit_set_bit_mono.
Qed.

Lemma page_tracked_mark_page psize s a b c a' b' c' :
  page_tracked psize s a' b' c' ->
  page_tracked psize (kvm_dirty_ring_mark_page psize s a b c) a' b' c'.
Proof.
  intros (Ha & Hb & mem & bm & Hat & Hslot & Hsz & Hc & Hbm & Hlen).
  rewrite <- (mark_page_nr_as psize s a b c) in Ha.
  split; [done |]. split; [done |].
  destruct (slot_at_mark_page psize s a b c a' b' mem Hat) as (mem'' & Hat' & [-> | ->]).
  - exists mem, bm. done.
  - exists (mark_slot c mem), (set_bit c bm). split; [done |].
    unfold mark_slot. cbn. rewrite Hbm. cbn. rewrite length_set_bit. done.
Qed.

Lemma page_marked_by_mark_page psize s a b c :
  page_tracked psize s a b c -> page_marked (kvm_dirty_ring_mark_page psize s a b c) a b c.
Proof.
  intros (Ha & Hb & mem & bm & Hat & Hslot & Hsz & Hc & Hbm & Hlen).
  exists (mark_slot c mem), (set_bit c bm).
  split; [apply slot_at_mark_page_same; try done; lia |].
  unfold mark_slot. cbn. rewrite Hbm. split; [done |].
  rewrite test_bit_set_bit by lia. by rewrite decide_True.
Qed.

Lemma reap_loop_marks (psize ring_size : Z) (fuel : nat) :
  forall st st',
    kvm_dirty_ring_reap_loop fuel psize ring_size st = Some st' ->
    (forall a b c, page_marked (rp_kvm st) a b c -> page_marked (rp_kvm st') a b c) /\
    (forall a b c, page_tracked psize (rp_kvm st) a b c ->
                   page_tracked psize (rp_kvm st') a b c) /\
    (forall idx g g' a b,
       rp_ring st !! idx = Some g -> dirty_gfn_is_dirtied g = true ->
       rp_ring st' !! idx = Some g' -> dirty_gfn_is_dirtied g' = false ->
       gfn_slot g = registered_id a b ->
       page_tracked psize (rp_kvm st) a b (gfn_offset g) ->
       page_marked (rp_kvm st') a b (gfn_offset g)).
Proof.
  induction fuel as [| fuel IH]; intros st st' Hrun; [done |].
  cbn [kvm_dirty_ring_reap_loop] in Hrun.
  destruct (rp_ring st !! Z.to_nat (rp_fetch st mod ring_size)) as [cur |] eqn:Hcur;
    [| done].
  cbn [mbind option_bind] in Hrun.
  destruct (dirty_gfn_is_dirtied cur) eqn:Hdirty; cbn [negb] in Hrun.
  2: { injection Hrun as <-. split_and!; try done.
       intros idx g g' a b Hg Hgd Hg' Hgc. congruence. }
  apply IH in Hrun as (Hmono & Htracked & Hmarks).
  cbn [rp_kvm rp_ring] in *.
  split_and!.
  - intros a b c Hm. by apply Hmono, page_marked_mark_page.
  - intros a b c Ht. by apply Htracked, page_tracked_mark_page.
  - intros idx g g' a b Hg Hgd Hg' Hgc Hid Ht.
    destruct (decide (idx = Z.to_nat (rp_fetch st mod ring_size))) as [-> | Hne].
    + rewrite Hcur in Hg. injection Hg as <-.
      destruct Ht as (Ha & Hb & Hrest).
      destruct (registered_id_decode a b) as [Hda Hdb]; [lia | done |].
      apply Hmono. rewrite Hid, Hda, Hdb.
      apply page_marked_by_mark_page. by split.
    + apply (Hmarks idx g g'); try done.
      * by rewrite list_lookup_insert_ne.
      * by apply page_tracked_mark_page.
Qed.

(** X15: reaping the dirty ring of a vCPU never loses a page.  Every
    entry that the reaper turns from dirty into collected has its page
    set in the cached bitmap of the slot it names, the slot being found
    from the id under which [kvm_set_user_memory_region] registered it
    (slot index in the lower 16 bits, address space above); a dirty
    entry at the fetch index is always collected; and no bit that was
    set before is cleared. *)
Theorem kvm_dirty_ring_reap_one_marks
    (psize : Z) (s : KVMState) (cpu : CPUState) (ring : list kvm_dirty_gfn) :
  kvm_dirty_gfns cpu = Some ring ->
  0 < kvm_dirty_ring_size s < 2 ^ 32 ->
  Z.of_nat (length ring) = kvm_dirty_ring_size s ->
  in_u32 (kvm_fetch_index cpu) ->
  exists count s' cpu' ring',
    kvm_dirty_ring_reap_one psize s cpu = Some (count, s', cpu') /\
    kvm_dirty_gfns cpu' = Some ring' /\
    (forall a b c, page_marked s a b c -> page_marked s' a b c) /\
    (forall idx g g' a b,
       ring !! idx = Some g -> gfn_flags g = KVM_DIRTY_GFN_F_DIRTY ->
       ring' !! idx = Some g' -> gfn_flags g' = KVM_DIRTY_GFN_F_RESET ->
       gfn_slot g = registered_id a b ->
       page_tracked psize s a b (gfn_offset g) ->
       page_marked s' a b (gfn_offset g)) /\
    (forall g,
       ring !! ring_index (kvm_dirty_ring_size s) (kvm_fetch_index cpu) = Some g ->
       gfn_flags g = KVM_DIRTY_GFN_F_DIRTY ->
       exists g',
         ring' !! ring_index (kvm_dirty_ring_size s) (kvm_fetch_index cpu) = Some g' /\
         gfn_flags g' = KVM_DIRTY_GFN_F_RESET).
Proof.
  intros Hring Hsize Hlen Hfetch. unfold kvm_dirty_ring_reap_one.
  rewrite Hring. cbn [mbind option_bind]. rewrite decide_False by lia.
  set (st0 := mkReap s ring (kvm_fetch_index cpu) 0).
  destruct (reap_loop_runs (S (length ring)) psize (kvm_dirty_ring_size s) st0)
    as (st' & n & Hrun & Hreap);
    [lia | done | done | subst st0; unfold in_u32; cbn [rp_count]; lia | |].
  { pose proof (dirty_count_le ring). subst st0. cbn [rp_ring]. lia. }
  rewrite Hrun. cbn [mbind option_bind].
  destruct (reap_loop_marks psize (kvm_dirty_ring_size s) _ st0 st' Hrun)
    as (Hmono & _ & Hmarks).
  destruct Hreap as (_ & _ & _ & Hf & _ & (cur & Hcur & Hclean) & Hent & Hreset).
  cbn [rp_kvm rp_ring rp_fetch st0] in *.
  eexists _, _, _, (rp_ring st'). split; [reflexivity |]. cbn [kvm_dirty_gfns].
  split_and!; [done | done | |].
  - intros idx g g' a b Hg Hgd Hg' Hgr Hid Ht.
    apply (Hmarks idx g g'); try done.
    + by apply is_dirtied_true.
    + unfold dirty_gfn_is_dirtied. rewrite Hgr. done.
  - intros g Hg Hgd. destruct n as [| n].
    + rewrite Z.add_0_r, u32_small in Hf by done. rewrite Hf in Hcur.
      exists cur. split; [done |].
      destruct (Hent _ _ Hcur) as (g0 & Hg0 & [-> | Hr]); [| done].
      rewrite Hg in Hg0. injection Hg0 as <-.
      apply is_dirtied_true in Hgd. congruence.
    + destruct (Hreset 0%nat) as (g' & Hg' & Hr); [lia |].
      rewrite Z.add_0_r, u32_small in Hg' by done. eauto.
Qed.

(** A ring of two entries on a slot of two pages in address space 0,
    the first entry dirty on page 1: after the reaping the entry is
    collected and page 1 is set in the slot's bitmap. *)
Lemma kvm_dirty_ring_reap_one_marks_witness :
  let mem := mkKVMSlot 0 8192 0 0 1 1 (Some [0]) 8 0 0 in
  let s := mkKVMState 1 1 [mkKml 0 [mem]] 2 in
  let ring := [mkGfn KVM_DIRTY_GFN_F_DIRTY (registered_id 0 0) 1; mkGfn 0 0 0] in
  exists count s' cpu',
    kvm_dirty_ring_reap_one 4096 s (mkCPU 0 (Some ring) 0 0) = Some (count, s', cpu') /\
    page_marked s' 0 0 1.
Proof.
  intros mem s ring.
  destruct (kvm_dirty_ring_reap_one_marks 4096 s (mkCPU 0 (Some ring) 0 0) ring)
    as (count & s' & cpu' & ring' & Hrun & Hring' & _ & Hmarks & Hhead);
    [reflexivity | split; reflexivity | reflexivity | split; [discriminate | reflexivity] |].
  exists count, s', cpu'. split; [exact Hrun |].
  destruct (Hhead (mkGfn KVM_DIRTY_GFN_F_DIRTY (registered_id 0 0) 1))
    as (g' & Hg' & Hreset); [reflexivity | reflexivity |].
  apply (Hmarks 0%nat (mkGfn KVM_DIRTY_GFN_F_DIRTY (registered_id 0 0) 1) g' 0 0);
    [reflexivity | reflexivity | exact Hg' | exact Hreset | reflexivity |].
  split; [split; [discriminate | reflexivity] |]. split; [lia |].
  exists mem, [0]. repeat split; try reflexivity; try discriminate.
Defined.

(** ** MSI routes: the cache of sent messages *)






(** ** MSI routes of devices *)







Lemma kvm_resample_fd_notify_insert (gsi_ event g : Z) (l : list KVMResampleFd) :
  kvm_resample_fd_notify g (kvm_resample_fd_insert gsi_ event l) =
  if decide (g = gsi_) then Some event else kvm_resample_fd_notify g l.
Proof.
  unfold kvm_resample_fd_notify, kvm_resample_fd_insert.
  cbn [list_find rfd_gsi]. case_decide as Hg.
  - by rewrite decide_True.
  - rewrite decide_False by congruence.
    by destruct (list_find _ l) as [[i x] |].
Qed.

Lemma kvm_resample_fd_remove_insert (gsi_ event : Z) (l : list KVMResampleFd) :
  kvm_resample_fd_remove gsi_ (kvm_resample_fd_insert gsi_ event l) = l.
Proof.
  unfold kvm_resample_fd_remove, kvm_resample_fd_insert.
  by rewrite list_find_head.
Qed.

(** X19: with a split irqchip, adding an irqfd notifier with a resample
    notifier for an interrupt line whose GSI was set registers the
    resample event: the next end-of-interrupt of that GSI sets this
    event (whatever was registered before), other GSIs are notified as
    before, and removing the notifier leaves the list of resample events
    as it was before the two calls.  The kernel is asked without the
    resample descriptor, or not at all (-ENOSYS) when irqfds are not
    enabled, and the list is updated in both cases.  For a line with no
    GSI both functions answer -ENXIO and change nothing. *)
Theorem kvm_irqfd_notifier_round_trip
    (ioctl : kvm_irqfd -> Z) (enabled : bool) (gsimap : gmap Z Z)
    (irq gsi_ n rfd : Z) (l : list KVMResampleFd) :
  rfd <> -1 ->
  - 2 ^ 31 <= gsi_ < 2 ^ 31 ->
  let gsimap' := kvm_irqchip_set_qemuirq_gsi gsimap irq gsi_ in
  exists l1,
    kvm_irqchip_add_irqfd_notifier ioctl true enabled gsimap' n (Some rfd) irq l =
      Some (if enabled then ioctl (mkIrqfd n gsi_ 0 0) else - ENOSYS, l1) /\
    kvm_resample_fd_notify gsi_ l1 = Some rfd /\
    (forall g, g <> gsi_ -> kvm_resample_fd_notify g l1 = kvm_resample_fd_notify g l) /\
    kvm_irqchip_remove_irqfd_notifier ioctl true enabled gsimap' n irq l1 =
      Some (if enabled then ioctl (mkIrqfd n gsi_ KVM_IRQFD_FLAG_DEASSIGN 0)
            else - ENOSYS, l) /\
    (forall split_ rn irq', gsimap' !! irq' = None ->
       kvm_irqchip_add_irqfd_notifier ioctl split_ enabled gsimap' n rn irq' l1 =
         Some (- ENXIO, l1) /\
       kvm_irqchip_remove_irqfd_notifier ioctl split_ enabled gsimap' n irq' l1 =
         Some (- ENXIO, l1)).
Proof.
  intros Hrfd Hgsi gsimap'.
  exists (kvm_resample_fd_insert gsi_ rfd l).
  unfold kvm_irqchip_add_irqfd_notifier, kvm_irqchip_remove_irqfd_notifier,
    kvm_irqchip_add_irqfd_notifier_gsi, kvm_irqchip_remove_irqfd_notifier_gsi,
    kvm_irqchip_assign_irqfd.
  subst gsimap'. unfold kvm_irqchip_set_qemuirq_gsi.
  rewrite lookup_insert_eq. rewrite (to_int_small gsi_) by lia.
  split_and!.
  - cbn [default negb]. rewrite decide_True by done. cbn.
    by destruct enabled.
  - rewrite kvm_resample_fd_notify_insert. by rewrite decide_True.
  - intros g Hg. rewrite kvm_resample_fd_notify_insert. by rewrite decide_False.
  - cbn [default negb]. rewrite decide_False by lia.
    rewrite kvm_resample_fd_remove_insert. cbn. by destruct enabled.
  - intros split_ rn irq' Hnone. by rewrite Hnone.
Qed.

Lemma kvm_irqfd_notifier_round_trip_witness :
  exists l1,
    kvm_irqchip_add_irqfd_notifier (fun _ => 0) true true
      (kvm_irqchip_set_qemuirq_gsi ∅ 3 5) 10 (Some 11) 3 [mkResampleFd 5 12] =
      Some (0, l1) /\
    kvm_resample_fd_notify 5 l1 = Some 11 /\
    kvm_irqchip_remove_irqfd_notifier (fun _ => 0) true true
      (kvm_irqchip_set_qemuirq_gsi ∅ 3 5) 10 3 l1 = Some (0, [mkResampleFd 5 12]).
Proof.
  destruct (kvm_irqfd_notifier_round_trip (fun _ => 0) true ∅ 3 5 10 11
              [mkResampleFd 5 12]) as (l1 & Hadd & Hnotify & _ & Hremove & _).
  - discriminate.
  - split; [discriminate | reflexivity].
  - exists l1. by split_and!.
Defined.

(** ** The vCPU run loop *)









(** ** The life of a registry slot *)

















(** ** Linking a program and unlinking it *)







(** ** Mapping a table and unmapping it *)



(** ** Adding a region and removing it *)

Lemma listener_slots_lookup (s : KVMState) (k : nat) (kml : KVMMemoryListener) :
  as_ml s !! k = Some kml -> listener_slots s k = kml_slots kml.
Proof. intros H. unfold listener_slots. by rewrite H. Qed.

Lemma listener_as_id_lookup (s : KVMState) (k : nat) (kml : KVMMemoryListener) :
  as_ml s !! k = Some kml -> listener_as_id s k = kml_as_id kml.
Proof. intros H. unfold listener_as_id. by rewrite H. Qed.

Lemma as_ml_store_slot (s : KVMState) (k i : nat) (m : KVMSlot)
    (kml : KVMMemoryListener) :
  as_ml s !! k = Some kml ->
  as_ml (store_slot k i m s) !! k
  = Some (mkKml (kml_as_id kml) (<[i := m]> (kml_slots kml))).
Proof.
  intros H. unfold store_slot. cbn [as_ml].
  rewrite list_lookup_alter_eq. by rewrite H.
Qed.

Lemma kvm_mem_flags_no_log (b : bool) (mr_ : MemoryRegion) :
  mr_dirty_log_mask mr_ = 0 ->
  Z.land (kvm_mem_flags b mr_) KVM_MEM_LOG_DIRTY_PAGES = 0.
Proof.
  intros H. unfold kvm_mem_flags. rewrite H.
  rewrite decide_False by lia.
  by destruct (_ && b).
Qed.

Lemma kvm_set_user_memory_region_accepted
    (ioctl : kvm_userspace_memory_region -> Z) (kml_as_id : Z) (slot_ : KVMSlot)
    (new : bool) (used : Z) :
  (forall m, ioctl m = 0) ->
  sr_ret (kvm_set_user_memory_region ioctl kml_as_id slot_ new used) = 0 /\
  sr_slot (kvm_set_user_memory_region ioctl kml_as_id slot_ new used)
  = set_old_flags (flags slot_) slot_.
Proof.
  intros Hok. unfold kvm_set_user_memory_region.
  destruct (_ && _ && _).
  - rewrite Hok. rewrite decide_False by lia.
    by rewrite set_region_finish_ret, set_region_finish_slot, Hok.
  - by rewrite set_region_finish_ret, set_region_finish_slot, Hok.
Qed.

Lemma MIN_r (a b : Z) : b <= a -> MIN a b = b.
Proof. intros H. unfold MIN. case_decide; lia. Qed.

(** The slot a region of one chunk is registered in. *)
Lemma kvm_set_phys_mem_add_one (fuel : nat) (env : SlotEnv) (k : nat)
    (mr_ : MemoryRegion) (start size_ rso ram_ : Z) (w : Accel)
    (kml : KVMMemoryListener) (i : nat) (mem0 : KVMSlot) :
  (forall m, env_set_region env m = 0) ->
  0 < size_ <= env_max_slot_size env -> size_ < 2 ^ 64 ->
  as_ml (acc_kvm w) !! k = Some kml ->
  kvm_get_free_slot (nr_slots (acc_kvm w)) (kml_slots kml) = Some (i, mem0) ->
  let f := kvm_mem_flags (env_readonly_mem_allowed env) mr_ in
  let mem1 :=
    set_old_flags f
      (kvm_slot_init_dirty_bitmap (env_psize env)
         (mkKVMSlot start size_ ram_ (slot mem0) f (old_flags mem0)
                    (dirty_bmap mem0) (dirty_bmap_size mem0) (kml_as_id kml) rso)) in
  exists w1,
    kvm_set_phys_mem_add (S fuel) env k mr_ start size_ rso ram_ w = Some w1 /\
    acc_kvm w1 = store_slot k i mem1 (acc_kvm w) /\
    acc_cpus w1 = acc_cpus w /\ acc_dirty w1 = acc_dirty w.
Proof.
  intros Hok Hsize Hfit Hkml Hfree f mem1.
  cbn [kvm_set_phys_mem_add].
  rewrite (listener_slots_lookup _ _ _ Hkml), (listener_as_id_lookup _ _ _ Hkml).
  rewrite Hfree. cbn [mbind option_bind].
  rewrite MIN_r by lia.
  match goal with
  | |- context [kvm_set_user_memory_region ?io ?a ?m ?n ?u] =>
    destruct (kvm_set_user_memory_region_accepted io a m n u Hok) as [Hret Hslot];
    rewrite Hret, Hslot
  end.
  rewrite decide_False by lia.
  replace (u64 (size_ - size_)) with 0 by (by rewrite Z.sub_diag).
  rewrite decide_True by done.
  eexists. split; [done |]. cbn [acc_kvm acc_cpus acc_dirty].
  split; [| done]. f_equal. subst mem1 f.
  unfold kvm_slot_init_dirty_bitmap. cbn [flags].
  by destruct (_ || _).
Qed.

Lemma kvm_lookup_matching_slot_Some (nr_slots_ : Z) (slots : list KVMSlot)
    (start size_ : Z) (i : nat) (mem : KVMSlot) :
  kvm_lookup_matching_slot nr_slots_ slots start size_ = Some (i, mem) ->
  slots !! i = Some mem /\ (i < Z.to_nat nr_slots_)%nat /\
  start_addr mem = start /\ memory_size mem = size_.
Proof.
  unfold kvm_lookup_matching_slot. intros H.
  apply list_find_Some in H as (Hl & [-> ->] & _).
  apply lookup_take_Some in Hl as [Hl Hi]. done.
Qed.

(** The slot a region of one chunk is removed from, when its dirty
    pages are not logged. *)
Lemma kvm_set_phys_mem_remove_one (fuel : nat) (env : SlotEnv) (k : nat)
    (start size_ : Z) (w : Accel)
    (kml : KVMMemoryListener) (i : nat) (mem : KVMSlot) :
  (forall m, env_set_region env m = 0) ->
  0 < size_ <= env_max_slot_size env -> size_ < 2 ^ 64 ->
  as_ml (acc_kvm w) !! k = Some kml ->
  kvm_lookup_matching_slot (nr_slots (acc_kvm w)) (kml_slots kml) start size_
    = Some (i, mem) ->
  Z.land (flags mem) KVM_MEM_LOG_DIRTY_PAGES = 0 ->
  let mem2 :=
    mkKVMSlot (start_addr mem) 0 (ram mem) (slot mem) 0 0 None
              (dirty_bmap_size mem) (as_id mem) (ram_start_offset mem) in
  exists w2,
    kvm_set_phys_mem_remove (S fuel) env k start size_ w = Some w2 /\
    acc_kvm w2 = store_slot k i mem2 (acc_kvm w) /\
    acc_cpus w2 = acc_cpus w /\ acc_dirty w2 = acc_dirty w.
Proof.
  intros Hok Hsize Hfit Hkml Hfind Hnolog mem2.
  pose proof (kvm_lookup_matching_slot_Some _ _ _ _ _ _ Hfind) as (Hl & _ & _ & _).
  cbn [kvm_set_phys_mem_remove].
  rewrite MIN_r by lia.
  rewrite (listener_slots_lookup _ _ _ Hkml). rewrite Hfind.
  rewrite decide_False by (intros Hn; by apply Hn).
  cbn [mbind option_bind].
  rewrite (listener_slots_lookup _ _ _ Hkml), (listener_as_id_lookup _ _ _ Hkml).
  rewrite Hl. cbn [mbind option_bind].
  match goal with
  | |- context [kvm_set_user_memory_region ?io ?a ?m ?n ?u] =>
    destruct (kvm_set_user_memory_region_accepted io a m n u Hok) as [Hret Hslot];
    rewrite Hret, Hslot
  end.
  rewrite decide_False by lia.
  replace (u64 (size_ - size_)) with 0 by (by rewrite Z.sub_diag).
  rewrite decide_True by done.
  eexists. split; [done |]. cbn [acc_kvm acc_cpus acc_dirty].
  done.
Qed.

Lemma list_find_insert_first {A} (P : A -> Prop) `{!forall x, Decision (P x)}
    (l : list A) (i : nat) (y : A) :
  (i < length l)%nat -> P y ->
  (forall j x, l !! j = Some x -> (j < i)%nat -> ~ P x) ->
  list_find P (<[i := y]> l) = Some (i, y).
Proof.
  intros Hi Hy Hfirst. apply list_find_Some. split_and!.
  - by apply list_lookup_insert_eq.
  - done.
  - intros j x Hj Hlt. rewrite list_lookup_insert_ne in Hj by lia. eauto.
Qed.

Lemma kvm_get_free_slot_Some (nr_slots_ : Z) (slots : list KVMSlot)
    (i : nat) (mem : KVMSlot) :
  kvm_get_free_slot nr_slots_ slots = Some (i, mem) ->
  slots !! i = Some mem /\ (i < Z.to_nat nr_slots_)%nat /\ memory_size mem = 0 /\
  forall j x, slots !! j = Some x -> (j < i)%nat -> memory_size x <> 0.
Proof.
  unfold kvm_get_free_slot. intros H.
  apply list_find_Some in H as (Hl & Hfree & Hfirst).
  apply lookup_take_Some in Hl as [Hl Hi]. split_and!; try done.
  intros j x Hj Hlt. apply (Hfirst j); [| done].
  apply lookup_take_Some. split; [done | lia].
Qed.

(** X24: a RAM section of whole pages that fits one slot, is matched by
    no slot yet and is not logged, is registered in the first free slot
    of the listener when the kernel accepts it: the slot gets the
    section's guest address, size and host address and keeps its index,
    the other slots are untouched, and the section is found in that
    slot.  Removing the same section empties that slot again, which is
    once more the first free one; the global dirty pages and the vCPUs
    are not touched by either call. *)
Theorem kvm_set_phys_mem_add_remove
    (kk : Z) (env : SlotEnv) (k : nat) (section : MemoryRegionSection)
    (w : Accel) (kml : KVMMemoryListener) (i : nat) (mem0 : KVMSlot) :
  0 <= kk < 64 -> env_psize env = 2 ^ kk ->
  (forall m, env_set_region env m = 0) ->
  mr_is_ram (mr section) = true ->
  mr_dirty_log_mask (mr section) = 0 ->
  in_u64 (offset_within_address_space section) ->
  offset_within_address_space section mod 2 ^ kk = 0 ->
  size section mod 2 ^ kk = 0 ->
  0 < size section <= env_max_slot_size env ->
  size section < 2 ^ 64 ->
  as_ml (acc_kvm w) !! k = Some kml ->
  kvm_get_free_slot (nr_slots (acc_kvm w)) (kml_slots kml) = Some (i, mem0) ->
  kvm_lookup_matching_slot (nr_slots (acc_kvm w)) (kml_slots kml)
    (offset_within_address_space section) (size section) = None ->
  exists w1 w2 mem1 mem2,
    kvm_set_phys_mem env k section true w = Some w1 /\
    listener_slots (acc_kvm w1) k = <[i := mem1]> (kml_slots kml) /\
    start_addr mem1 = offset_within_address_space section /\
    memory_size mem1 = size section /\
    ram mem1 = u64 (mr_ram_ptr (mr section) + u64 (offset_within_region section)) /\
    slot mem1 = slot mem0 /\
    kvm_lookup_matching_slot (nr_slots (acc_kvm w1)) (listener_slots (acc_kvm w1) k)
      (offset_within_address_space section) (size section) = Some (i, mem1) /\
    kvm_set_phys_mem env k section false w1 = Some w2 /\
    listener_slots (acc_kvm w2) k = <[i := mem2]> (kml_slots kml) /\
    memory_size mem2 = 0 /\ slot mem2 = slot mem0 /\ dirty_bmap mem2 = None /\
    kvm_get_free_slot (nr_slots (acc_kvm w2)) (listener_slots (acc_kvm w2) k)
      = Some (i, mem2) /\
    acc_dirty w2 = acc_dirty w /\ acc_cpus w2 = acc_cpus w.
Proof.
  intros Hkk Hpsize Hok Hram Hnolog Hoff Hoffa Hsza Hsize Hfit Hkml Hfree Hnone.
  pose proof (kvm_get_free_slot_Some _ _ _ _ Hfree) as (Hl0 & Hi & Hsz0 & Hfirst).
  assert (i < length (kml_slots kml))%nat as Hlen by (by eapply lookup_lt_Some).
  assert (kvm_align_section (env_psize env) section
          = Some (offset_within_address_space section, size section)) as Halign.
  { rewrite Hpsize. apply kvm_align_section_aligned; try done.
    unfold in_u64. lia. }
  assert (exists n, Z.to_nat (size section) = S n) as [n Hfuel].
  { exists (Nat.pred (Z.to_nat (size section))). lia. }
  assert (forall add w0,
            kvm_set_phys_mem env k section add w0 =
            if add
            then kvm_set_phys_mem_add (S n) env k (mr section)
                   (offset_within_address_space section) (size section)
                   (u64 (mr_ram_addr (mr section) + u64 (offset_within_region section)))
                   (u64 (mr_ram_ptr (mr section) + u64 (offset_within_region section)))
                   w0
            else kvm_set_phys_mem_remove (S n) env k
                   (offset_within_address_space section) (size section) w0) as Hunfold.
  { intros add w0. unfold kvm_set_phys_mem. rewrite Hram, Halign. cbn [negb andb].
    cbn [mbind option_bind]. rewrite decide_False by lia. rewrite Hfuel.
    replace (offset_within_region section + offset_within_address_space section
             - offset_within_address_space section)
      with (offset_within_region section) by lia.
    done. }
  destruct (kvm_set_phys_mem_add_one n env k (mr section)
              (offset_within_address_space section) (size section)
              (u64 (mr_ram_addr (mr section) + u64 (offset_within_region section)))
              (u64 (mr_ram_ptr (mr section) + u64 (offset_within_region section)))
              w kml i mem0 Hok Hsize Hfit Hkml Hfree)
    as (w1 & Hadd & Hkvm1 & Hcpus1 & Hdirty1).
  set (f := kvm_mem_flags (env_readonly_mem_allowed env) (mr section)) in *.
  assert (Z.land f KVM_MEM_LOG_DIRTY_PAGES = 0) as Hf
    by (by apply kvm_mem_flags_no_log).
  match type of Hkvm1 with
  | _ = store_slot _ _ ?m _ => set (mem1 := m) in *
  end.
  assert (mem1 =
          mkKVMSlot (offset_within_address_space section) (size section)
            (u64 (mr_ram_ptr (mr section) + u64 (offset_within_region section)))
            (slot mem0) f f (dirty_bmap mem0) (dirty_bmap_size mem0) (kml_as_id kml)
            (u64 (mr_ram_addr (mr section) + u64 (offset_within_region section))))
    as Hmem1.
  { subst mem1. unfold kvm_slot_init_dirty_bitmap. cbn [flags].
    by rewrite (bool_decide_eq_true_2 _ Hf). }
  clearbody mem1.
  pose proof (as_ml_store_slot (acc_kvm w) k i mem1 kml Hkml) as Hkml1.
  rewrite <- Hkvm1 in Hkml1.
  assert (nr_slots (acc_kvm w1) = nr_slots (acc_kvm w)) as Hnr1 by (by rewrite Hkvm1).
  assert (kvm_lookup_matching_slot (nr_slots (acc_kvm w1))
            (<[i := mem1]> (kml_slots kml))
            (offset_within_address_space section) (size section) = Some (i, mem1))
    as Hfind1.
  { rewrite Hnr1. unfold kvm_lookup_matching_slot in *.
    rewrite take_insert_lt by done.
    apply list_find_insert_first.
    - rewrite length_take. lia.
    - by rewrite Hmem1.
    - intros j x Hj _. eapply list_find_None in Hnone.
      rewrite Forall_forall in Hnone. apply Hnone.
      by eapply list_elem_of_lookup_2. }
  destruct (kvm_set_phys_mem_remove_one n env k
              (offset_within_address_space section) (size section) w1
              (mkKml (kml_as_id kml) (<[i := mem1]> (kml_slots kml))) i mem1
              Hok Hsize Hfit Hkml1 Hfind1)
    as (w2 & Hrem & Hkvm2 & Hcpus2 & Hdirty2).
  { by rewrite Hmem1. }
  match type of Hkvm2 with
  | _ = store_slot _ _ ?m _ => set (mem2 := m) in *
  end.
  pose proof (as_ml_store_slot (acc_kvm w1) k i mem2 _ Hkml1) as Hkml2.
  rewrite <- Hkvm2 in Hkml2. cbn [kml_as_id kml_slots] in Hkml2.
  rewrite list_insert_insert_eq in Hkml2.
  exists w1, w2, mem1, mem2.
  rewrite (Hunfold true w), (Hunfold false w1).
  rewrite (listener_slots_lookup _ _ _ Hkml1), (listener_slots_lookup _ _ _ Hkml2).
  cbn [kml_slots].
  split; [exact Hadd |]. split; [done |].
  split; [by rewrite Hmem1 |]. split; [by rewrite Hmem1 |].
  split; [by rewrite Hmem1 |]. split; [by rewrite Hmem1 |].
  split; [exact Hfind1 |]. split; [exact Hrem |]. split; [done |].
  split; [done |]. split; [by (cbn; rewrite Hmem1) |]. split; [done |].
  split.
  { assert (nr_slots (acc_kvm w2) = nr_slots (acc_kvm w)) as ->
      by (by rewrite Hkvm2, <- Hnr1).
    unfold kvm_get_free_slot. rewrite take_insert_lt by done.
    apply list_find_insert_first.
    - rewrite length_take. lia.
    - done.
    - intros j x Hj Hlt. apply lookup_take_Some in Hj as [Hj _]. by eapply Hfirst. }
  split; congruence.
Qed.

Lemma kvm_set_phys_mem_add_remove_witness :
  let section := ram_section 4096 1 1048576 in
  exists w1 w2,
    kvm_set_phys_mem accepting_kernel 0 section true four_free_slots = Some w1 /\
    memory_size <$> listener_slots (acc_kvm w1) 0 = [4096; 0; 0; 0] /\
    kvm_set_phys_mem accepting_kernel 0 section false w1 = Some w2 /\
    memory_size <$> listener_slots (acc_kvm w2) 0 = [0; 0; 0; 0].
Proof.
  intros section.
  destruct (kvm_set_phys_mem_add_remove 12 accepting_kernel 0 section
              four_free_slots
              (mkKml 0 ((fun i => mkKVMSlot 0 0 0 i 0 0 None 0 0 0) <$> [0; 1; 2; 3]))
              0 (mkKVMSlot 0 0 0 0 0 0 None 0 0 0))
    as (w1 & w2 & mem1 & mem2 & Hadd & Hs1 & _ & Hsz1 & _ & _ & _ & Hrem & Hs2
        & Hsz2 & _).
  - lia.
  - reflexivity.
  - intros m. reflexivity.
  - reflexivity.
  - reflexivity.
  - split; [discriminate | reflexivity].
  - reflexivity.
  - reflexivity.
  - split; [reflexivity | discriminate].
  - reflexivity.
  - reflexivity.
  - reflexivity.
  - reflexivity.
  - exists w1, w2. split; [exact Hadd |]. split.
    { rewrite Hs1, list_fmap_insert, Hsz1. reflexivity. }
    split; [exact Hrem |].
    rewrite Hs2, list_fmap_insert, Hsz2. reflexivity.
Defined.

(** ** Syncing every slot after a ring flush *)





